(** * Matter MCP server: the API client, the tool dispatcher and the QR OAuth bridge

    A shallow embedding of [src/matter-api.ts] (the [MatterClient] class),
    of the tool dispatcher of [src/server.ts] and of the OAuth bridge under
    [api/oauth/] and [api/mcp.ts], followed by the properties of the
    specification that concern them.

    Asynchronous code is sequential here: every [await] is a call in a state
    and exception monad over a [World] that holds the client's fields, the
    provider and the record of the network calls made so far.  [while] loops
    take a fuel argument and report [OutOfFuel] when it is exhausted. *)

From Stdlib Require Import ZArith NArith List String Ascii Bool Lia.
From Stdlib Require Import Decimal DecimalString DecimalZ DecimalPos.
Import ListNotations.

Local Open Scope string_scope.
Local Open Scope Z_scope.

(* ================================================================= *)
(** * Part I: definitions *)
(* ================================================================= *)

(** ** JavaScript primitives used by the client *)

Module Js.

(** [String(n)] for a safe integer (see [is_safe_integer] below): canonical
    decimal notation. *)
Definition String_of_number (n : Z) : string :=
  NilZero.string_of_int (Z.to_int n).

Definition is_digit (c : ascii) : bool :=
  ((48 <=? nat_of_ascii c) && (nat_of_ascii c <=? 57))%nat.

Definition digit_value (c : ascii) : Z := Z.of_nat (nat_of_ascii c) - 48.

(** Bytes of the UTF-8 encoded white space that [parseInt] strips:
    TAB, LF, VT, FF, CR, SP, and the encoded forms of U+00A0, U+1680,
    U+2000..U+200A, U+2028, U+2029, U+202F, U+205F, U+3000 and U+FEFF. *)
Definition is_ascii_space (c : ascii) : bool :=
  let n := nat_of_ascii c in
  ((9 <=? n) && (n <=? 13) || (n =? 32))%nat.

Fixpoint skip_white_space (s : string) : string :=
  match s with
  | EmptyString => s
  | String c s1 =>
    if is_ascii_space c then skip_white_space s1
    else
      match nat_of_ascii c, s1 with
      | 194%nat, String c1 s2 =>
        if (nat_of_ascii c1 =? 160)%nat then skip_white_space s2 else s
      | 225%nat, String c1 (String c2 s3) =>
        if ((nat_of_ascii c1 =? 154) && (nat_of_ascii c2 =? 128))%nat
        then skip_white_space s3 else s
      | 226%nat, String c1 (String c2 s3) =>
        let n1 := nat_of_ascii c1 in
        let n2 := nat_of_ascii c2 in
        if ((n1 =? 128) && ((128 <=? n2) && (n2 <=? 138) || (n2 =? 168)
                             || (n2 =? 169) || (n2 =? 175))
            || (n1 =? 129) && (n2 =? 159))%nat
        then skip_white_space s3 else s
      | 227%nat, String c1 (String c2 s3) =>
        if ((nat_of_ascii c1 =? 128) && (nat_of_ascii c2 =? 128))%nat
        then skip_white_space s3 else s
      | 239%nat, String c1 (String c2 s3) =>
        if ((nat_of_ascii c1 =? 187) && (nat_of_ascii c2 =? 191))%nat
        then skip_white_space s3 else s
      | _, _ => s
      end
  end.

Fixpoint all_digits (s : string) : bool :=
  match s with
  | EmptyString => true
  | String c s1 => is_digit c && all_digits s1
  end.

(** The longest prefix of decimal digits, read as a number. *)
Fixpoint parse_digits (acc : Z) (s : string) : Z :=
  match s with
  | EmptyString => acc
  | String c s1 =>
    if is_digit c then parse_digits (10 * acc + digit_value c) s1 else acc
  end.

(** [parseInt(s, 10)]: white space, an optional sign, then the longest
    prefix of digits; [None] stands for [NaN].  The result is that of
    JavaScript when it is a safe integer (see [safe_identifier] below);
    the rounding of a longer run of digits to a double is not modelled. *)
Definition parseInt (s : string) : option Z :=
  let s1 := skip_white_space s in
  let '(sign, s2) :=
    match s1 with
    | String "-" t => (-1, t)
    | String "+" t => (1, t)
    | _ => (1, s1)
    end in
  match s2 with
  | String c _ => if is_digit c then Some (sign * parse_digits 0 s2) else None
  | EmptyString => None
  end.

(** [a === b] between a number and the result of [parseInt]: [NaN] is
    equal to nothing. *)
Definition number_eq (a : Z) (b : option Z) : bool :=
  match b with
  | Some b' => a =? b'
  | None => false
  end.

Definition hex_digit (n : nat) : ascii :=
  ascii_of_nat (if (n <? 10)%nat then 48 + n else 55 + n).

(** [encodeURIComponent] on a UTF-8 byte string: the unreserved
    characters [A-Z a-z 0-9 - _ . ! ~ * ' ( )] are kept and every other
    byte becomes [%XX]. *)
Definition is_uri_unreserved (c : ascii) : bool :=
  let n := nat_of_ascii c in
  ((65 <=? n) && (n <=? 90) || (97 <=? n) && (n <=? 122)
   || (48 <=? n) && (n <=? 57)
   || (n =? 45) || (n =? 95) || (n =? 46) || (n =? 33) || (n =? 126)
   || (n =? 42) || (n =? 39) || (n =? 40) || (n =? 41))%nat.

Fixpoint encodeURIComponent (s : string) : string :=
  match s with
  | EmptyString => EmptyString
  | String c s1 =>
    if is_uri_unreserved c then String c (encodeURIComponent s1)
    else
      let n := nat_of_ascii c in
      String "%" (String (hex_digit (n / 16)) (String (hex_digit (n mod 16))
             (encodeURIComponent s1)))
  end.

(** [a || b] on optional numbers and strings: [undefined], [0] and the
    empty string are falsy. *)
Definition number_or (a : option Z) (b : Z) : Z :=
  match a with
  | Some n => if n =? 0 then b else n
  | None => b
  end.

Definition string_or (a : option string) (b : string) : string :=
  match a with
  | Some EmptyString | None => b
  | Some s => s
  end.

(** [xs.slice(0, n)] for an integral [n]: a negative [n] counts from the
    end. *)
Definition slice0 {A} (xs : list A) (n : Z) : list A :=
  if n <? 0 then firstn (List.length xs - Z.to_nat (- n)) xs
  else firstn (Z.to_nat n) xs.

(** [Number.isSafeInteger]: the integers that a JavaScript number holds
    exactly.  On them [String], [parseInt] and [===] are those of the
    integers, which is what [String_of_number], [parseInt] and [number_eq]
    compute; beyond them a JavaScript number is rounded and, from 1e21 on,
    printed with an exponent, which this model of numbers does not follow.
    Statements that depend on what these functions compute are made for
    safe integers. *)
Definition is_safe_integer (n : Z) : bool :=
  (- (2 ^ 53 - 1) <=? n) && (n <=? 2 ^ 53 - 1).

(** An identifier from which [parseInt] reads a safe integer, or nothing. *)
Definition safe_identifier (s : string) : bool :=
  match parseInt s with
  | Some n => is_safe_integer n
  | None => true
  end.

End Js.

(** ** The API client, [src/matter-api.ts] *)

Module MatterApi.

Definition API_BASE : string := "https://api.getmatter.com/api/v20".

Record MatterTokens := mkTokens {
  tok_accessToken : string;
  tok_refreshToken : string }.

Record Tag := { tag_name : string }.

Record Annotation := {
  annotation_id : string;
  annotation_text : string;
  annotation_note : option string }.

Record Library := {
  library_id : Z;
  library_state : Z }.

(** The fields of [Content] that the client or the dispatcher look at;
    the client itself reads [id] only. *)
Record Content := {
  content_id : Z;
  content_url : string;
  content_title : string;
  content_library : option Library;
  content_my_annotations : list Annotation;
  content_my_note : option string;
  content_tags : list Tag }.

Record FeedEntry := {
  entry_id : string;
  entry_content : Content;
  entry_annotations : list Annotation }.

Record FeedResponse := {
  feed_id : string;
  feed : list FeedEntry;
  next : option string;
  previous : option string;
  queue_count : option Z;
  archive_count : option Z }.

Record TokenRefreshResponse := {
  access_token : string;
  refresh_token : string }.

Record SaveArticleResponse := {
  save_id : Z;
  save_content_id : Z }.

(** A parsed response body.  The client casts it to the type it expects
    ([as FeedResponse], ...) without a check.  The model covers the
    providers that answer within the TypeScript types.  A body of another
    shape is outside it: the code goes on there with fields that are
    [undefined], which this model does not follow; it stops with a
    [TypeError] instead ([as_feed], [as_tokens], [as_save] below), and the
    statements of this development are made for bodies of the expected
    shape only. *)
Inductive Json :=
| JFeed (r : FeedResponse)
| JTokens (r : TokenRefreshResponse)
| JSave (r : SaveArticleResponse)
| JOther (raw : string).

Inductive ErrorBody :=
| ErrJson (j : Json)
| ErrText (t : string).

(** Exceptions: the client's own [MatterAPIError] and the errors of the
    runtime ([TypeError] of a rejected [fetch], [SyntaxError] of
    [response.json()], ...). *)
Inductive Exn :=
| MatterAPIError (message : string) (status : Z) (response : option ErrorBody)
| JsError (name message : string).

Definition exn_message (e : Exn) : string :=
  match e with
  | MatterAPIError m _ _ => m
  | JsError _ m => m
  end.

(** A [Response] of [fetch]: [json()] and [text()] either produce a value
    or throw ([None]). *)
Record Response := {
  status : Z;
  statusText : string;
  body_json : option Json;
  body_text : option string }.

Definition ok (r : Response) : bool := (200 <=? status r) && (status r <=? 299).

Inductive FetchResult :=
| Resolves (r : Response)
| Rejects (reason : string).

(** The second argument of [fetch]; [body] is the object given to
    [JSON.stringify]. *)
Record RequestInit := {
  init_method : option string;
  init_body : option (list (string * string)) }.

Definition no_init : RequestInit := {| init_method := None; init_body := None |}.

Record HttpRequest := {
  req_url : string;
  req_method : option string;
  req_headers : list (string * string);
  req_body : option (list (string * string)) }.

(** [fetch(url, {...options, headers})] *)
Definition mk_request (url : string) (options : RequestInit)
           (headers : list (string * string)) : HttpRequest :=
  {| req_url := url; req_method := init_method options;
     req_headers := headers; req_body := init_body options |}.

(** The provider answers a request knowing the requests made before it
    (oldest first). *)
Definition Provider := list HttpRequest -> HttpRequest -> FetchResult.

(** The observer either returns or throws. *)
Inductive ObserverResult := ObserverReturns | ObserverThrows (message : string).

Record World := {
  accessToken : string;
  refreshToken : string;
  onTokenRefresh : option (MatterTokens -> ObserverResult);
  provider : Provider;
  fetched : list HttpRequest;        (* every call of fetch, oldest first *)
  notified : list MatterTokens }.    (* every call of the observer *)

(** [new MatterClient(tokens, onTokenRefresh)] in front of a provider. *)
Definition new_MatterClient (tokens : MatterTokens)
           (observer : option (MatterTokens -> ObserverResult))
           (p : Provider) : World :=
  {| accessToken := tok_accessToken tokens;
     refreshToken := tok_refreshToken tokens;
     onTokenRefresh := observer;
     provider := p; fetched := []; notified := [] |}.

Inductive Completion (A : Type) :=
| Returned (a : A)
| Threw (e : Exn)
| OutOfFuel.
Arguments Returned {A} a.
Arguments Threw {A} e.
Arguments OutOfFuel {A}.

Definition M (A : Type) : Type := World -> Completion A * World.

Definition ret {A} (a : A) : M A := fun w => (Returned a, w).
Definition throw {A} (e : Exn) : M A := fun w => (Threw e, w).
Definition out_of_fuel {A} : M A := fun w => (OutOfFuel, w).

Definition bind {A B} (m : M A) (k : A -> M B) : M B :=
  fun w =>
    match m w with
    | (Returned a, w1) => k a w1
    | (Threw e, w1) => (Threw e, w1)
    | (OutOfFuel, w1) => (OutOfFuel, w1)
    end.

(** [try { m } catch { h }] *)
Definition try_catch {A} (m : M A) (h : Exn -> M A) : M A :=
  fun w =>
    match m w with
    | (Threw e, w1) => h e w1
    | r => r
    end.

Declare Scope client_scope.
Delimit Scope client_scope with client.
Notation "x <- m ;; k" := (bind m (fun x => k))
  (at level 61, m at next level, right associativity) : client_scope.
Notation "m ;;; k" := (bind m (fun _ => k))
  (at level 61, right associativity) : client_scope.
Local Open Scope client_scope.

Definition get_accessToken : M string := fun w => (Returned (accessToken w), w).
Definition get_refreshToken : M string := fun w => (Returned (refreshToken w), w).

(** [this.accessToken = a; this.refreshToken = r] *)
Definition install_tokens (a r : string) (w : World) : World :=
  {| accessToken := a; refreshToken := r;
     onTokenRefresh := onTokenRefresh w; provider := provider w;
     fetched := fetched w; notified := notified w |}.

Definition record_fetch (req : HttpRequest) (w : World) : World :=
  {| accessToken := accessToken w; refreshToken := refreshToken w;
     onTokenRefresh := onTokenRefresh w; provider := provider w;
     fetched := (fetched w ++ [req])%list; notified := notified w |}.

Definition record_notify (t : MatterTokens) (w : World) : World :=
  {| accessToken := accessToken w; refreshToken := refreshToken w;
     onTokenRefresh := onTokenRefresh w; provider := provider w;
     fetched := fetched w; notified := (notified w ++ [t])%list |}.

Definition set_tokens (a r : string) : M unit :=
  fun w => (Returned tt, install_tokens a r w).

(** [await fetch(...)]: the call is recorded, a rejected promise throws. *)
Definition fetch (req : HttpRequest) : M Response :=
  fun w =>
    match provider w (fetched w) req with
    | Resolves r => (Returned r, record_fetch req w)
    | Rejects reason => (Threw (JsError "TypeError" reason), record_fetch req w)
    end.

Definition response_json (r : Response) : M Json :=
  match body_json r with
  | Some j => ret j
  | None => throw (JsError "SyntaxError" "Unexpected token in JSON")
  end.

(** [response.text()].  The body of a [Response] can be read once:
    [bodyUsed] says that [json()] or [text()] has been called before, in
    which case the body is consumed, also when that call threw, and
    [text()] throws a [TypeError]. *)
Definition response_text (bodyUsed : bool) (r : Response) : M string :=
  if bodyUsed then
    throw (JsError "TypeError" "Body is unusable: Body has already been read")
  else
    match body_text r with
    | Some t => ret t
    | None => throw (JsError "TypeError" "Body is unusable")
    end.

(** [if (this.onTokenRefresh) { this.onTokenRefresh({...}) }] *)
Definition notify_observer : M unit :=
  fun w =>
    match onTokenRefresh w with
    | None => (Returned tt, w)
    | Some f =>
      let t := mkTokens (accessToken w) (refreshToken w) in
      match f t with
      | ObserverReturns => (Returned tt, record_notify t w)
      | ObserverThrows m => (Threw (JsError "Error" m), record_notify t w)
      end
    end.

Definition as_tokens (j : Json) : M TokenRefreshResponse :=
  match j with
  | JTokens d => ret d
  | _ => throw (JsError "TypeError" "not a TokenRefreshResponse")
  end.

Definition as_feed (j : Json) : M FeedResponse :=
  match j with
  | JFeed r => ret r
  | _ => throw (JsError "TypeError" "not a FeedResponse")
  end.

Definition as_save (j : Json) : M SaveArticleResponse :=
  match j with
  | JSave r => ret r
  | _ => throw (JsError "TypeError" "not a SaveArticleResponse")
  end.

Definition refresh_url : string := API_BASE ++ "/token/refresh/".

Definition refresh_request (rt : string) : HttpRequest :=
  {| req_url := refresh_url;
     req_method := Some "POST";
     req_headers := [("Content-Type", "application/json")];
     req_body := Some [("refresh_token", rt)] |}.

(** [refreshAccessToken], lines 248-277: everything, the observer call
    included, sits inside one [try]; whatever is thrown becomes [false]. *)
Definition refreshAccessToken : M bool :=
  try_catch
    (rt <- get_refreshToken ;;
     response <- fetch (refresh_request rt) ;;
     if negb (ok response) then ret false
     else
       j <- response_json response ;;
       data <- as_tokens j ;;
       set_tokens (access_token data) (refresh_token data) ;;;
       notify_observer ;;;
       ret true)
    (fun _ => ret false).

Definition bearer_headers (token : string) : list (string * string) :=
  [("Content-Type", "application/json"); ("Authorization", "Bearer " ++ token)].

Definition request_url (endpoint : string) : string :=
  if String.prefix "http" endpoint then endpoint else API_BASE ++ endpoint.

(** [request], lines 193-246. *)
Definition request (endpoint : string) (options : RequestInit) : M Json :=
  let url := request_url endpoint in
  tok <- get_accessToken ;;
  response <- fetch (mk_request url options (bearer_headers tok)) ;;
  if status response =? 401 then
    refreshed <- refreshAccessToken ;;
    if (refreshed : bool) then
      tok1 <- get_accessToken ;;
      retryResponse <- fetch (mk_request url options (bearer_headers tok1)) ;;
      if negb (ok retryResponse) then
        throw (MatterAPIError
                 ("Request failed after token refresh: " ++ statusText retryResponse)
                 (status retryResponse) None)
      else response_json retryResponse
    else throw (MatterAPIError "Authentication failed" 401 None)
  else if negb (ok response) then
    errorBody <- try_catch (j <- response_json response ;; ret (ErrJson j))
                           (fun _ => t <- response_text true response ;; ret (ErrText t)) ;;
    throw (MatterAPIError ("Request failed: " ++ statusText response)
                          (status response) (Some errorBody))
  else response_json response.

(** The error kinds of the specification, read off the throw sites of
    [request]: the two errors of the 401 branch ("Authentication failed"
    and "Request failed after token refresh: ...") are [AuthExpired], the
    error of the other non-2xx branch ("Request failed: ...") is
    [RequestFailed]; everything else comes from the runtime. *)
Inductive ErrorKind := AuthExpired | RequestFailed | RuntimeError.

Definition error_kind (e : Exn) : ErrorKind :=
  match e with
  | MatterAPIError m _ _ =>
    if (m =? "Authentication failed")%string
       || String.prefix "Request failed after token refresh: " m
    then AuthExpired else RequestFailed
  | JsError _ _ => RuntimeError
  end.

Definition default_timestamp : string := "1970-01-01T00:00:00.000000+00:00".

Definition feed_endpoint (afterTimestamp : string) (page : Z) : string :=
  "/library_items/updates_feed/?after_timestamp="
    ++ Js.encodeURIComponent afterTimestamp
    ++ "&page=" ++ Js.String_of_number page.

Record ArticlesOptions := {
  opt_limit : option Z;
  opt_page : option Z;
  opt_afterTimestamp : option string }.

Record ArticlesResult := {
  articles : list FeedEntry;
  nextUrl : option string;
  queueCount : option Z;
  archiveCount : option Z }.

(** The [while] loop of [getArticles], lines 299-322; the loop variables
    are the arguments. *)
Fixpoint getArticles_loop (fuel : nat) (afterTimestamp : string) (limit : Z)
         (allArticles : list FeedEntry) (page : Z) (hasMore : bool)
         (queueCount archiveCount : option Z) : M ArticlesResult :=
  if hasMore && (Z.of_nat (List.length allArticles) <? limit) then
    match fuel with
    | O => out_of_fuel
    | S fuel1 =>
      j <- request (feed_endpoint afterTimestamp page) no_init ;;
      response <- as_feed j ;;
      let allArticles1 := (allArticles ++ feed response)%list in
      let queueCount1 := if page =? 1 then queue_count response else queueCount in
      let archiveCount1 := if page =? 1 then archive_count response else archiveCount in
      let hasMore1 := match next response with Some _ => true | None => false end in
      let page1 := page + 1 in
      if Z.of_nat (List.length allArticles1) >=? limit then
        ret {| articles := Js.slice0 allArticles1 limit;
               nextUrl := next response;
               queueCount := queueCount1;
               archiveCount := archiveCount1 |}
      else
        getArticles_loop fuel1 afterTimestamp limit allArticles1 page1 hasMore1
                         queueCount1 archiveCount1
    end
  else
    ret {| articles := allArticles; nextUrl := None;
           queueCount := queueCount; archiveCount := archiveCount |}.

(** [getArticles], lines 283-330.  [limit] and [page] are integral. *)
Definition getArticles (fuel : nat) (options : option ArticlesOptions)
  : M ArticlesResult :=
  let limit := Js.number_or (match options with Some o => opt_limit o | None => None end) 100 in
  let page := Js.number_or (match options with Some o => opt_page o | None => None end) 1 in
  let afterTimestamp :=
    Js.string_or (match options with Some o => opt_afterTimestamp o | None => None end)
                 default_timestamp in
  getArticles_loop fuel afterTimestamp limit [] page true None None.

(** The predicate given to [find] in [getArticle], lines 350-353. *)
Definition entry_matches (articleId : string) (numericId : option Z)
           (entry : FeedEntry) : bool :=
  (entry_id entry =? articleId)%string
  || Js.number_eq (content_id (entry_content entry)) numericId
  || (Js.String_of_number (content_id (entry_content entry)) =? articleId)%string.

(** The [while] loop of [getArticle], lines 345-362. *)
Fixpoint getArticle_loop (fuel : nat) (articleId : string) (numericId : option Z)
         (page : Z) : M (option FeedEntry) :=
  match fuel with
  | O => out_of_fuel
  | S fuel1 =>
    j <- request (feed_endpoint default_timestamp page) no_init ;;
    feedResponse <- as_feed j ;;
    match find (entry_matches articleId numericId) (feed feedResponse) with
    | Some article => ret (Some article)
    | None =>
      match next feedResponse with
      | Some _ => getArticle_loop fuel1 articleId numericId (page + 1)
      | None => ret None
      end
    end
  end.

(** [getArticle], lines 335-365. *)
Definition getArticle (fuel : nat) (articleId : string) : M (option FeedEntry) :=
  getArticle_loop fuel articleId (Js.parseInt articleId) 1.

(** [saveArticle], lines 371-383. *)
Definition saveArticle (url : string) : M SaveArticleResponse :=
  j <- request "https://web.getmatter.com/api/save"
               {| init_method := Some "POST";
                  init_body := Some [("url", url);
                                     ("user_agent", "Matter MCP Server/1.0")] |} ;;
  as_save j.

(** [triggerQRLogin], lines 389-406: a static method, no bearer header and
    no retry. *)
Definition trigger_request : HttpRequest :=
  {| req_url := API_BASE ++ "/qr_login/trigger/";
     req_method := Some "POST";
     req_headers := [("Content-Type", "application/json")];
     req_body := Some [("client_type", "integration")] |}.

Definition triggerQRLogin : M Json :=
  response <- fetch trigger_request ;;
  if negb (ok response) then
    throw (MatterAPIError "Failed to initiate QR login" (status response) None)
  else response_json response.

(** [exchangeQRToken], lines 412-428. *)
Definition exchange_request (sessionToken : string) : HttpRequest :=
  {| req_url := API_BASE ++ "/qr_login/exchange/";
     req_method := Some "POST";
     req_headers := [("Content-Type", "application/json")];
     req_body := Some [("session_token", sessionToken)] |}.

Definition exchangeQRToken (sessionToken : string) : M Json :=
  response <- fetch (exchange_request sessionToken) ;;
  if negb (ok response) then
    throw (MatterAPIError "Failed to exchange QR token" (status response) None)
  else response_json response.

(** The pair that an answer of the refresh endpoint hands out, if it is a
    2xx answer whose body is a pair. *)
Definition granted (answer : FetchResult) : option TokenRefreshResponse :=
  match answer with
  | Resolves r =>
    if ok r then
      match body_json r with
      | Some (JTokens d) => Some d
      | _ => None
      end
    else None
  | Rejects _ => None
  end.

(** The request that [saveArticle] sends. *)
Definition save_request (token url : string) : HttpRequest :=
  mk_request "https://web.getmatter.com/api/save"
             {| init_method := Some "POST";
                init_body := Some [("url", url);
                                   ("user_agent", "Matter MCP Server/1.0")] |}
             (bearer_headers token).

(** The limit and the first page that [getArticles] works with. *)
Definition effective_limit (options : option ArticlesOptions) : Z :=
  Js.number_or (match options with Some o => opt_limit o | None => None end) 100.

Definition start_page (options : option ArticlesOptions) : Z :=
  Js.number_or (match options with Some o => opt_page o | None => None end) 1.

Definition effective_timestamp (options : option ArticlesOptions) : string :=
  Js.string_or (match options with Some o => opt_afterTimestamp o | None => None end)
               default_timestamp.

End MatterApi.

(** ** Providers used as test doubles *)

Module Mock.
Import MatterApi.

Definition ok_response (j : Json) : Response :=
  {| status := 200; statusText := "OK"; body_json := Some j; body_text := None |}.

Definition error_response (code : Z) (reason : string) : Response :=
  {| status := code; statusText := reason;
     body_json := None; body_text := Some reason |}.

Fixpoint header (name : string) (hs : list (string * string)) : option string :=
  match hs with
  | [] => None
  | (k, v) :: rest => if (k =? name)%string then Some v else header name rest
  end.

(** A provider whose access tokens expire: the refresh endpoint hands out
    the pair [fresh]; a call bearing the fresh access token is answered
    with [answer]; any other call is answered 401. *)
Definition expiring_provider (fresh : TokenRefreshResponse) (answer : Response)
  : Provider :=
  fun _ req =>
    if (req_url req =? refresh_url)%string
    then Resolves (ok_response (JTokens fresh))
    else
      match header "Authorization" (req_headers req) with
      | Some h =>
        if (h =? "Bearer " ++ access_token fresh)%string then Resolves answer
        else Resolves (error_response 401 "Unauthorized")
      | None => Resolves (error_response 401 "Unauthorized")
      end.

Definition fresh_pair : TokenRefreshResponse :=
  {| access_token := "fresh-access"; refresh_token := "fresh-refresh" |}.

Definition stale_pair : MatterTokens := mkTokens "stale-access" "stale-refresh".

(** A client that holds the stale pair in front of the expiring provider. *)
Definition stale_client (observer : option (MatterTokens -> ObserverResult))
           (answer : Response) : World :=
  new_MatterClient stale_pair observer (expiring_provider fresh_pair answer).

Definition throwing_observer : MatterTokens -> ObserverResult :=
  fun _ => ObserverThrows "cannot persist the tokens".

Definition quiet_observer : MatterTokens -> ObserverResult :=
  fun _ => ObserverReturns.

(** The request that [request] sends for page [k] of the feed. *)
Definition page_request (afterTimestamp : string) (token : string) (k : nat)
  : HttpRequest :=
  mk_request (request_url (feed_endpoint afterTimestamp (Z.of_nat k))) no_init
             (bearer_headers token).

(** A provider that serves a feed: page [k] (counted from 1) of [pages] is
    the answer to the URL of page [k]; every other call is answered 404. *)
Definition feed_provider (afterTimestamp : string) (pages : list FeedResponse)
  : Provider :=
  fun _ req =>
    match find (fun k => (req_url req
                          =? request_url (feed_endpoint afterTimestamp (Z.of_nat k)))%string)
               (seq 1 (List.length pages)) with
    | Some k =>
      match nth_error pages (k - 1) with
      | Some p => Resolves (ok_response (JFeed p))
      | None => Resolves (error_response 404 "Not Found")
      end
    | None => Resolves (error_response 404 "Not Found")
    end.

(** A provider whose feed never ends: every page is [page]. *)
Definition endless_provider (page : FeedResponse) : Provider :=
  fun _ _ => Resolves (ok_response (JFeed page)).

Definition has_next (p : FeedResponse) : bool :=
  match next p with Some _ => true | None => false end.

(** Every page but the last carries a cursor. *)
Fixpoint linked (pages : list FeedResponse) : bool :=
  match pages with
  | [] => true
  | p :: rest =>
    match rest with
    | [] => true
    | _ :: _ => has_next p && linked rest
    end
  end.

(** There is a last page and its cursor is absent. *)
Fixpoint closed (pages : list FeedResponse) : bool :=
  match pages with
  | [] => false
  | p :: rest =>
    match rest with
    | [] => negb (has_next p)
    | _ :: _ => closed rest
    end
  end.

Definition items (pages : list FeedResponse) : list FeedEntry :=
  List.concat (map feed pages).

(** The number of pages read when looking for a match: up to and including
    the first page that holds one. *)
Fixpoint pages_scanned (found : FeedEntry -> bool) (pages : list FeedResponse) : nat :=
  match pages with
  | [] => 0%nat
  | p :: rest =>
    if existsb found (feed p) then 1%nat else S (pages_scanned found rest)
  end.

(** The number of pages read to gather [limit] items when [have] are held. *)
Fixpoint pages_needed (limit : Z) (have : nat) (pages : list FeedResponse) : nat :=
  match pages with
  | [] => 0%nat
  | p :: rest =>
    let have1 := (have + List.length (feed p))%nat in
    if limit <=? Z.of_nat have1 then 1%nat else S (pages_needed limit have1 rest)
  end.

Definition entry (id : string) (cid : Z) : FeedEntry :=
  {| entry_id := id;
     entry_content := {| content_id := cid; content_url := "https://example.com/" ++ id;
                         content_title := id; content_library := None;
                         content_my_annotations := []; content_my_note := None;
                         content_tags := [] |};
     entry_annotations := [] |}.

Definition page (entries : list FeedEntry) (cursor : option string) : FeedResponse :=
  {| feed_id := "feed"; feed := entries; next := cursor; previous := None;
     queue_count := None; archive_count := None |}.

(** A client in front of a served feed. *)
Definition feed_client (pages : list FeedResponse) : World :=
  new_MatterClient stale_pair None (feed_provider default_timestamp pages).

(** Three pages: the second is empty but carries a cursor, and the content
    identifier 2 occurs on the first and on the third. *)
Definition three_pages : list FeedResponse :=
  [page [entry "a" 1; entry "b" 2] (Some "c1");
   page [] (Some "c2");
   page [entry "c" 2; entry "d" 4] None].

Definition two_pages : list FeedResponse :=
  [page [entry "a" 7] (Some "c1");
   page [entry "b" 123; entry "c" 123] None].

(** All the items are on the first page, which is followed by an empty last
    page. *)
Definition trailing_empty_page : list FeedResponse :=
  [page [entry "a" 1; entry "b" 2] (Some "c1");
   page [] None].

(** The page that a provider stuck on one cursor keeps sending. *)
Definition stuck_page : FeedResponse := page [] (Some "same-cursor").

Definition stuck_client : World :=
  new_MatterClient stale_pair None (endless_provider stuck_page).

Definition limit_only (n : Z) : option ArticlesOptions :=
  Some {| opt_limit := Some n; opt_page := None; opt_afterTimestamp := None |}.

(** A provider that serves a feed behind expiring tokens: the refresh
    endpoint hands out [fresh], a call bearing the fresh access token is
    answered as by [feed_provider], any other call is answered 401. *)
Definition expiring_feed_provider (fresh : TokenRefreshResponse)
           (pages : list FeedResponse) : Provider :=
  fun history req =>
    if (req_url req =? refresh_url)%string
    then Resolves (ok_response (JTokens fresh))
    else
      match header "Authorization" (req_headers req) with
      | Some h =>
        if (h =? "Bearer " ++ access_token fresh)%string
        then feed_provider default_timestamp pages history req
        else Resolves (error_response 401 "Unauthorized")
      | None => Resolves (error_response 401 "Unauthorized")
      end.

(** A provider that answers every call with the same response. *)
Definition constant_provider (r : Response) : Provider := fun _ _ => Resolves r.

Definition from_page (k : Z) (limit : Z) : option ArticlesOptions :=
  Some {| opt_limit := Some limit; opt_page := Some k; opt_afterTimestamp := None |}.

(** Two pages that carry the counts of the library. *)
Definition counted_page (entries : list FeedEntry) (cursor : option string)
           (queue archive : Z) : FeedResponse :=
  {| feed_id := "feed"; feed := entries; next := cursor; previous := None;
     queue_count := Some queue; archive_count := Some archive |}.

Definition counted_pages : list FeedResponse :=
  [counted_page [entry "a" 1] (Some "c1") 5 9;
   counted_page [entry "b" 2] None 6 10].

Definition with_options (limit page : Z) (afterTimestamp : string)
  : option ArticlesOptions :=
  Some {| opt_limit := Some limit; opt_page := Some page;
          opt_afterTimestamp := Some afterTimestamp |}.

(** A client that holds the stale pair in front of a feed that needs the
    fresh one. *)
Definition stale_feed_client (pages : list FeedResponse) : World :=
  new_MatterClient stale_pair None (expiring_feed_provider fresh_pair pages).

(** An answer outside 2xx whose body is JSON. *)
Definition json_error_response (code : Z) (reason : string) (j : Json) : Response :=
  {| status := code; statusText := reason; body_json := Some j; body_text := None |}.

(** A provider behind expiring tokens that drops the connection of the
    call bearing the fresh token: the refresh endpoint hands out [fresh],
    the next call with the fresh access token is rejected, any other call
    is answered 401. *)
Definition dropping_provider (fresh : TokenRefreshResponse) : Provider :=
  fun _ req =>
    if (req_url req =? refresh_url)%string
    then Resolves (ok_response (JTokens fresh))
    else
      match header "Authorization" (req_headers req) with
      | Some h =>
        if (h =? "Bearer " ++ access_token fresh)%string then Rejects "fetch failed"
        else Resolves (error_response 401 "Unauthorized")
      | None => Resolves (error_response 401 "Unauthorized")
      end.

(** Every content identifier of the feed is a safe integer. *)
Definition safe_feed (pages : list FeedResponse) : bool :=
  forallb (fun e => Js.is_safe_integer (content_id (entry_content e))) (items pages).

(** The number, from 1, of the page that holds the item at [position],
    from 0, of the feed. *)
Fixpoint page_of (position : nat) (pages : list FeedResponse) : nat :=
  match pages with
  | [] => 0%nat
  | p :: rest =>
    if (position <? List.length (feed p))%nat then 1%nat
    else S (page_of (position - List.length (feed p)) rest)
  end.

(** A feed in which the string identifier of an entry looks like a number
    followed by letters. *)
Definition prefix_named_pages : list FeedResponse :=
  [page [entry "123abc" 7; entry "x" 123] None].

End Mock.

(** ** The tool dispatcher, [src/server.ts] *)

Module Server.
Import MatterApi.
Local Open Scope client_scope.

Record TextContent := {
  content_type : string;
  text : string }.

(** The result of a tool call; [isError] is optional. *)
Record CallToolResult := {
  content : list TextContent;
  isError : option bool }.

(** The values that the arguments of a call may hold. *)
Inductive ArgValue :=
| AString (s : string)
| ANumber (n : Z)
| AOther.

Definition Args := list (string * ArgValue).

Fixpoint lookup (key : string) (args : Args) : option ArgValue :=
  match args with
  | [] => None
  | (k, v) :: rest => if (k =? key)%string then Some v else lookup key rest
  end.

Definition dquote : string := String (ascii_of_nat 34) EmptyString.
Definition newline : string := String (ascii_of_nat 10) EmptyString.

(** The error that a schema throws.  Its message stands for the text of
    the issue; the message that the library builds is the JSON text of the
    whole list of issues, which holds that text. *)
Definition zod_error (issue : string) : Exn := JsError "ZodError" issue.

(** [z.object({ limit: z.number().min(1).max(100).optional().default(20) })] *)
Definition ListArticlesInputSchema_parse (args : option Args) : M Z :=
  match args with
  | None => throw (zod_error "Required")
  | Some a =>
    match lookup "limit" a with
    | None => ret 20
    | Some (ANumber n) =>
      if n <? 1 then throw (zod_error "Number must be greater than or equal to 1")
      else if 100 <? n then throw (zod_error "Number must be less than or equal to 100")
      else ret n
    | Some _ => throw (zod_error "Expected number")
    end
  end.

(** [z.object({ article_id: z.string().min(1) })] *)
Definition GetArticleInputSchema_parse (args : option Args) : M string :=
  match args with
  | None => throw (zod_error "Required")
  | Some a =>
    match lookup "article_id" a with
    | Some (AString EmptyString) =>
      throw (zod_error "String must contain at least 1 character(s)")
    | Some (AString id) => ret id
    | Some _ => throw (zod_error "Expected string")
    | None => throw (zod_error "Required")
    end
  end.

Section Dispatcher.

(** The formatting of results and the URL check of the validation library
    are outside this development. *)
Variable formatArticle : FeedEntry -> string.
Variable formatArticleList : list FeedEntry -> string.
Variable is_url : string -> bool.

(** [z.object({ url: z.string().url() })] *)
Definition SaveArticleInputSchema_parse (args : option Args) : M string :=
  match args with
  | None => throw (zod_error "Required")
  | Some a =>
    match lookup "url" a with
    | Some (AString u) => if is_url u then ret u else throw (zod_error "Invalid url")
    | Some _ => throw (zod_error "Expected string")
    | None => throw (zod_error "Required")
    end
  end.

Definition text_result (t : string) : CallToolResult :=
  {| content := [{| content_type := "text"; text := t |}]; isError := None |}.

Definition error_result (t : string) : CallToolResult :=
  {| content := [{| content_type := "text"; text := t |}]; isError := Some true |}.

Definition not_found_text (article_id : string) : string :=
  "Article with ID " ++ dquote ++ article_id ++ dquote ++ " not found.".

(** The handler that [createMatterServer] registers for
    [CallToolRequestSchema], lines 468-549. *)
Definition call_tool_handler (fuel : nat) (name : string) (args : option Args)
  : M CallToolResult :=
  try_catch
    (if (name =? "matter_list_articles")%string then
       limit <- ListArticlesInputSchema_parse args ;;
       r <- getArticles fuel (Some {| opt_limit := Some limit; opt_page := None;
                                      opt_afterTimestamp := None |}) ;;
       ret (text_result (formatArticleList (articles r)))
     else if (name =? "matter_get_article")%string then
       article_id <- GetArticleInputSchema_parse args ;;
       article <- getArticle fuel article_id ;;
       match article with
       | None => ret (error_result (not_found_text article_id))
       | Some a => ret (text_result (formatArticle a))
       end
     else if (name =? "matter_save_article")%string then
       url <- SaveArticleInputSchema_parse args ;;
       result <- saveArticle url ;;
       ret (text_result ("Article saved successfully!" ++ newline
                           ++ "URL: " ++ url ++ newline
                           ++ "Content ID: " ++ Js.String_of_number (save_content_id result)
                           ++ newline
                           ++ "Entry ID: " ++ Js.String_of_number (save_id result)))
     else ret (error_result ("Unknown tool: " ++ name)))
    (fun error => ret (error_result ("Error: " ++ exn_message error))).

End Dispatcher.

(** [createMatterServer(tokens)]: a client without observer. *)
Definition createMatterServer (tokens : MatterTokens) (p : Provider) : World :=
  new_MatterClient tokens None p.

End Server.

(** ** The OAuth bridge: [api/oauth/authorize.ts], [api/oauth/token.ts],
       [api/mcp.ts]

    Encodings matter here, so a JavaScript string is the list of its UTF-16
    code units and a [Buffer] is a list of bytes. *)

Module OAuth.
Local Open Scope N_scope.
Local Open Scope list_scope.

Definition jsstring := list N.
Definition bytes := list N.

(** A string literal of the source. *)
Definition lit (s : string) : jsstring := map N_of_ascii (list_ascii_of_string s).

Fixpoint jseqb (a b : jsstring) : bool :=
  match a, b with
  | [], [] => true
  | x :: a1, y :: b1 => (x =? y) && jseqb a1 b1
  | _, _ => false
  end.

Fixpoint startsWith (prefix s : jsstring) : bool :=
  match prefix, s with
  | [], _ => true
  | x :: p1, y :: s1 => (x =? y) && startsWith p1 s1
  | _ :: _, [] => false
  end.

(** All the code units are ASCII. *)
Definition is_ascii (s : jsstring) : bool := forallb (fun c => c <? 128) s.

(** Truthiness of a possibly undefined string. *)
Definition truthy (v : option jsstring) : bool :=
  match v with
  | Some (_ :: _) => true
  | _ => false
  end.

(** [a || b] *)
Definition js_or (a b : option jsstring) : option jsstring :=
  if truthy a then a else b.

(** *** Base64 *)

Definition b64_alphabet : jsstring :=
  lit "ABCDEFGHIJKLMNOPQRSTUVWXYZabcdefghijklmnopqrstuvwxyz0123456789+/".

Definition b64_char (i : N) : N := nth (N.to_nat i) b64_alphabet 61.

Fixpoint b64_encode (bs : bytes) : jsstring :=
  match bs with
  | [] => []
  | [a] => [b64_char (a / 4); b64_char ((a mod 4) * 16); 61; 61]
  | [a; b] => [b64_char (a / 4); b64_char ((a mod 4) * 16 + b / 16);
               b64_char ((b mod 16) * 4); 61]
  | a :: b :: c :: rest =>
    b64_char (a / 4) :: b64_char ((a mod 4) * 16 + b / 16)
      :: b64_char ((b mod 16) * 4 + c / 64) :: b64_char (c mod 64)
      :: b64_encode rest
  end.

(** [btoa]: defined on strings of code units up to 255, an
    [InvalidCharacterError] ([None]) otherwise. *)
Definition btoa (s : jsstring) : option jsstring :=
  if forallb (fun c => c <=? 255) s then Some (b64_encode s) else None.

(** The value of a character of the standard or of the URL-safe alphabet. *)
Definition b64_value (c : N) : option N :=
  if (65 <=? c) && (c <=? 90) then Some (c - 65)
  else if (97 <=? c) && (c <=? 122) then Some (c - 71)
  else if (48 <=? c) && (c <=? 57) then Some (c + 4)
  else if (c =? 43) || (c =? 45) then Some 62
  else if (c =? 47) || (c =? 95) then Some 63
  else None.

(** The decoder of [Buffer.from(s, "base64")] is forgiving: it reads every
    code unit by its low byte, stops at the first [=] and skips every other
    character outside the alphabet. *)
Fixpoint b64_sextets (s : jsstring) : list N :=
  match s with
  | [] => []
  | c :: rest =>
    let b := c mod 256 in
    match b64_value b with
    | Some v => v :: b64_sextets rest
    | None => if b =? 61 then [] else b64_sextets rest
    end
  end.

Fixpoint b64_bytes (vs : list N) : bytes :=
  match vs with
  | a :: b :: c :: d :: rest =>
    (a * 4 + b / 16) :: ((b mod 16) * 16 + c / 4) :: ((c mod 4) * 64 + d)
      :: b64_bytes rest
  | [a; b; c] => [a * 4 + b / 16; (b mod 16) * 16 + c / 4]
  | [a; b] => [a * 4 + b / 16]
  | _ => []
  end.

Definition Buffer_from_base64 (s : jsstring) : bytes := b64_bytes (b64_sextets s).

(** [buffer.toString("base64")] *)
Definition Buffer_toString_base64 (bs : bytes) : jsstring := b64_encode bs.

(** *** UTF-8 *)

Definition is_continuation (b : N) : bool := (128 <=? b) && (b <=? 191).

(** A code point as UTF-16 code units. *)
Definition utf16_of_code_point (cp : N) : jsstring :=
  if cp <? 65536 then [cp]
  else [55296 + (cp - 65536) / 1024; 56320 + (cp - 65536) mod 1024].

(** [buffer.toString("utf-8")]: every ill-formed sequence (its maximal
    well-formed prefix) becomes U+FFFD. *)
Fixpoint utf8_decode (bs : bytes) : jsstring :=
  match bs with
  | [] => []
  | b0 :: rest =>
    if b0 <? 128 then b0 :: utf8_decode rest
    else if (194 <=? b0) && (b0 <=? 223) then
      match rest with
      | b1 :: rest1 =>
        if is_continuation b1
        then ((b0 - 192) * 64 + (b1 - 128)) :: utf8_decode rest1
        else 65533 :: utf8_decode rest
      | [] => [65533]
      end
    else if (224 <=? b0) && (b0 <=? 239) then
      match rest with
      | b1 :: rest1 =>
        if ((if b0 =? 224 then 160 else 128) <=? b1)
           && (b1 <=? (if b0 =? 237 then 159 else 191))
        then
          match rest1 with
          | b2 :: rest2 =>
            if is_continuation b2
            then ((b0 - 224) * 4096 + (b1 - 128) * 64 + (b2 - 128)) :: utf8_decode rest2
            else 65533 :: utf8_decode rest1
          | [] => [65533]
          end
        else 65533 :: utf8_decode rest
      | [] => [65533]
      end
    else if (240 <=? b0) && (b0 <=? 244) then
      match rest with
      | b1 :: rest1 =>
        if ((if b0 =? 240 then 144 else 128) <=? b1)
           && (b1 <=? (if b0 =? 244 then 143 else 191))
        then
          match rest1 with
          | b2 :: rest2 =>
            if is_continuation b2 then
              match rest2 with
              | b3 :: rest3 =>
                if is_continuation b3
                then utf16_of_code_point
                       ((b0 - 240) * 262144 + (b1 - 128) * 4096
                        + (b2 - 128) * 64 + (b3 - 128))
                       ++ utf8_decode rest3
                else 65533 :: utf8_decode rest2
              | [] => [65533]
              end
            else 65533 :: utf8_decode rest1
          | [] => [65533]
          end
        else 65533 :: utf8_decode rest
      | [] => [65533]
      end
    else 65533 :: utf8_decode rest
  end.

Definition is_high_surrogate (c : N) : bool := (55296 <=? c) && (c <=? 56319).
Definition is_low_surrogate (c : N) : bool := (56320 <=? c) && (c <=? 57343).

Definition utf8_of_code_point (cp : N) : bytes :=
  if cp <? 128 then [cp]
  else if cp <? 2048 then [192 + cp / 64; 128 + cp mod 64]
  else if cp <? 65536 then [224 + cp / 4096; 128 + (cp / 64) mod 64; 128 + cp mod 64]
  else [240 + cp / 262144; 128 + (cp / 4096) mod 64; 128 + (cp / 64) mod 64;
        128 + cp mod 64].

(** [Buffer.from(s)], that is [Buffer.from(s, "utf8")]: a lone surrogate is
    encoded as U+FFFD. *)
Fixpoint utf8_encode (s : jsstring) : bytes :=
  match s with
  | [] => []
  | c :: rest =>
    if is_high_surrogate c then
      match rest with
      | d :: rest1 =>
        if is_low_surrogate d
        then utf8_of_code_point (65536 + (c - 55296) * 1024 + (d - 56320))
               ++ utf8_encode rest1
        else utf8_of_code_point 65533 ++ utf8_encode rest
      | [] => utf8_of_code_point 65533
      end
    else if is_low_surrogate c then utf8_of_code_point 65533 ++ utf8_encode rest
    else utf8_of_code_point c ++ utf8_encode rest
  end.

(** *** JSON

    The documents that the bridge exchanges are objects whose members are
    strings.  [JSON_parse] recognises exactly those; [None] stands for the
    [SyntaxError] of a malformed text, and a well-formed text of another
    shape (a member that is not a string, a value that is not an object) is
    outside this model and answered [None] too, although [JSON.parse]
    accepts it and the endpoints then test its members by truthiness.  The
    statements that depend on what is parsed are made for objects of
    strings only. *)

Definition JsonObject := list (jsstring * jsstring).

(** [object.key]: the last member of that name, [undefined] when absent. *)
Fixpoint json_get (key : jsstring) (o : JsonObject) : option jsstring :=
  match o with
  | [] => None
  | (k, v) :: rest =>
    match json_get key rest with
    | Some v1 => Some v1
    | None => if jseqb k key then Some v else None
    end
  end.

Definition hex_char (n : N) : N := if n <? 10 then 48 + n else 87 + n.

Definition hex_value (c : N) : option N :=
  if (48 <=? c) && (c <=? 57) then Some (c - 48)
  else if (97 <=? c) && (c <=? 102) then Some (c - 87)
  else if (65 <=? c) && (c <=? 70) then Some (c - 55)
  else None.

Definition unicode_escape (c : N) : jsstring :=
  [92; 117; hex_char (c / 4096); hex_char ((c / 256) mod 16);
   hex_char ((c / 16) mod 16); hex_char (c mod 16)].

(** The quoting of one code unit that is not a surrogate. *)
Definition quote_unit (c : N) : jsstring :=
  if c =? 34 then [92; 34]
  else if c =? 92 then [92; 92]
  else if c =? 8 then [92; 98]
  else if c =? 9 then [92; 116]
  else if c =? 10 then [92; 110]
  else if c =? 12 then [92; 102]
  else if c =? 13 then [92; 114]
  else if c <? 32 then unicode_escape c
  else [c].

Fixpoint quote_units (s : jsstring) : jsstring :=
  match s with
  | [] => []
  | c :: rest =>
    if is_high_surrogate c then
      match rest with
      | d :: rest1 =>
        if is_low_surrogate d then c :: d :: quote_units rest1
        else unicode_escape c ++ quote_units rest
      | [] => unicode_escape c
      end
    else if is_low_surrogate c then unicode_escape c ++ quote_units rest
    else quote_unit c ++ quote_units rest
  end.

(** [JSON.stringify] of a string. *)
Definition quote (s : jsstring) : jsstring := 34 :: quote_units s ++ [34].

Fixpoint stringify_members (o : JsonObject) : jsstring :=
  match o with
  | [] => []
  | [(k, v)] => quote k ++ 58 :: quote v
  | (k, v) :: rest => quote k ++ 58 :: quote v ++ 44 :: stringify_members rest
  end.

(** [JSON.stringify] of an object whose members are strings. *)
Definition JSON_stringify (o : JsonObject) : jsstring :=
  123 :: stringify_members o ++ [125].

Definition is_json_space (c : N) : bool :=
  (c =? 32) || (c =? 9) || (c =? 10) || (c =? 13).

Fixpoint skip_ws (s : jsstring) : jsstring :=
  match s with
  | c :: rest => if is_json_space c then skip_ws rest else s
  | [] => []
  end.

Definition unescape (e : N) : option N :=
  if e =? 34 then Some 34
  else if e =? 92 then Some 92
  else if e =? 47 then Some 47
  else if e =? 98 then Some 8
  else if e =? 102 then Some 12
  else if e =? 110 then Some 10
  else if e =? 114 then Some 13
  else if e =? 116 then Some 9
  else None.

Definition hex4 (h1 h2 h3 h4 : N) : option N :=
  match hex_value h1, hex_value h2, hex_value h3, hex_value h4 with
  | Some a, Some b, Some c, Some d => Some (a * 4096 + b * 256 + c * 16 + d)
  | _, _, _, _ => None
  end.

Definition prepend (c : N) (r : option (jsstring * jsstring))
  : option (jsstring * jsstring) :=
  match r with
  | Some (s, rest) => Some (c :: s, rest)
  | None => None
  end.

(** The characters of a string up to its closing quote, and what follows. *)
Fixpoint parse_string_chars (s : jsstring) : option (jsstring * jsstring) :=
  match s with
  | [] => None
  | c :: rest =>
    if c =? 34 then Some ([], rest)
    else if c =? 92 then
      match rest with
      | [] => None
      | e :: rest1 =>
        if e =? 117 then
          match rest1 with
          | h1 :: h2 :: h3 :: h4 :: rest2 =>
            match hex4 h1 h2 h3 h4 with
            | Some u => prepend u (parse_string_chars rest2)
            | None => None
            end
          | _ => None
          end
        else
          match unescape e with
          | Some u => prepend u (parse_string_chars rest1)
          | None => None
          end
      end
    else if c <? 32 then None
    else prepend c (parse_string_chars rest)
  end.

Definition parse_string (s : jsstring) : option (jsstring * jsstring) :=
  match s with
  | c :: rest => if c =? 34 then parse_string_chars rest else None
  | [] => None
  end.

(** The members after the opening brace, up to the closing one. *)
Fixpoint parse_members (fuel : nat) (s : jsstring) : option (JsonObject * jsstring) :=
  match fuel with
  | O => None
  | S fuel1 =>
    match parse_string (skip_ws s) with
    | None => None
    | Some (k, s1) =>
      match skip_ws s1 with
      | c :: s2 =>
        if c =? 58 then
          match parse_string (skip_ws s2) with
          | None => None
          | Some (v, s3) =>
            match skip_ws s3 with
            | d :: s4 =>
              if d =? 44 then
                match parse_members fuel1 s4 with
                | Some (ms, s5) => Some ((k, v) :: ms, s5)
                | None => None
                end
              else if d =? 125 then Some ([(k, v)], s4)
              else None
            | [] => None
            end
          end
        else None
      | [] => None
      end
    end
  end.

Definition JSON_parse (s : jsstring) : option JsonObject :=
  match skip_ws s with
  | c :: s1 =>
    if c =? 123 then
      match skip_ws s1 with
      | d :: s2 =>
        if d =? 125 then
          match skip_ws s2 with [] => Some [] | _ :: _ => None end
        else
          match parse_members (List.length s1) s1 with
          | Some (ms, s3) =>
            match skip_ws s3 with [] => Some ms | _ :: _ => None end
          | None => None
          end
      | [] => None
      end
    else None
  | [] => None
  end.

Definition ascii_object (o : JsonObject) : bool :=
  forallb (fun m => is_ascii (fst m) && is_ascii (snd m)) o.

(** *** The credential pair and its two envelopes *)

Record MatterTokens := {
  accessToken : jsstring;
  refreshToken : jsstring }.

(** [authorize.ts], lines 158-161: the authorization code. *)
Definition authorization_code (accessToken refreshToken : jsstring) : option jsstring :=
  btoa (JSON_stringify [(lit "access_token", accessToken);
                        (lit "refresh_token", refreshToken)]).

(** *** The token endpoint, [api/oauth/token.ts] *)

Inductive Body :=
| BodyAbsent
| BodyString (s : jsstring)
| BodyObject (o : JsonObject).

Record TokenRequest := {
  req_method : jsstring;
  req_body : Body }.

Inductive ResponseBody :=
| Ended
| Json (o : JsonObject).

Record HttpResponse := {
  res_status : N;
  res_headers : list (jsstring * jsstring);
  res_body : ResponseBody }.

Definition cors_headers : list (jsstring * jsstring) :=
  [(lit "Access-Control-Allow-Origin", lit "*");
   (lit "Access-Control-Allow-Methods", lit "POST, OPTIONS");
   (lit "Access-Control-Allow-Headers", lit "Content-Type")].

Definition respond (code : N) (o : JsonObject) : HttpResponse :=
  {| res_status := code; res_headers := cors_headers; res_body := Json o |}.

Definition invalid_grant : HttpResponse :=
  respond 400 [(lit "error", lit "invalid_grant");
               (lit "error_description", lit "Invalid or expired authorization code")].

Section TokenEndpoint.

(** [new URLSearchParams(body).get(name)] belongs to the platform. *)
Variable URLSearchParams_get : jsstring -> jsstring -> option jsstring.

(** [handler] of [token.ts]. *)
Definition token_handler (req : TokenRequest) : HttpResponse :=
  if jseqb (req_method req) (lit "OPTIONS") then
    {| res_status := 204; res_headers := cors_headers; res_body := Ended |}
  else if negb (jseqb (req_method req) (lit "POST")) then
    respond 405 [(lit "error", lit "Method not allowed")]
  else
    let code :=
      match req_body req with
      | BodyString s =>
        let c := URLSearchParams_get s (lit "code") in
        if truthy c then c else None
      | BodyObject o => json_get (lit "code") o
      | BodyAbsent => None
      end in
    match code with
    | Some (c :: code1) =>
      match JSON_parse (utf8_decode (Buffer_from_base64 (c :: code1))) with
      | None => invalid_grant
      | Some decoded =>
        let access_token := json_get (lit "access_token") decoded in
        let refresh_token := json_get (lit "refresh_token") decoded in
        match access_token, refresh_token with
        | Some (a :: a1), Some (r :: r1) =>
          let combinedToken :=
            Buffer_toString_base64
              (utf8_encode (JSON_stringify [(lit "accessToken", a :: a1);
                                            (lit "refreshToken", r :: r1)])) in
          respond 200 [(lit "access_token", combinedToken);
                       (lit "token_type", lit "Bearer");
                       (lit "refresh_token", r :: r1)]
        | _, _ => invalid_grant
        end
      end
    | _ =>
      respond 400 [(lit "error", lit "invalid_request");
                   (lit "error_description", lit "Missing code parameter")]
    end.

End TokenEndpoint.

(** *** The resource endpoint, [api/mcp.ts] *)

Record RequestHeaders := {
  authorization : option jsstring;
  x_matter_access_token : option jsstring;
  x_matter_refresh_token : option jsstring }.

(** [getTokensFromRequest], lines 85-114. *)
Definition getTokensFromRequest (headers : RequestHeaders) : option MatterTokens :=
  let from_bearer :=
    match authorization headers with
    | Some authHeader =>
      if startsWith (lit "Bearer ") authHeader then
        let token := skipn 7 authHeader in
        match JSON_parse (utf8_decode (Buffer_from_base64 token)) with
        | Some decoded =>
          match json_get (lit "accessToken") decoded,
                json_get (lit "refreshToken") decoded with
          | Some (a :: a1), Some (r :: r1) =>
            Some {| accessToken := a :: a1; refreshToken := r :: r1 |}
          | _, _ => None
          end
        | None => None
        end
      else None
    | None => None
    end in
  match from_bearer with
  | Some t => Some t
  | None =>
    match x_matter_access_token headers, x_matter_refresh_token headers with
    | Some (a :: a1), Some (r :: r1) =>
      Some {| accessToken := a :: a1; refreshToken := r :: r1 |}
    | _, _ => None
    end
  end.

(** The request that a client makes with the answer of the token endpoint:
    [Authorization: Bearer <access_token>]. *)
Definition bearer_request (token_response : HttpResponse) : option RequestHeaders :=
  match res_body token_response with
  | Json o =>
    match json_get (lit "access_token") o with
    | Some t =>
      Some {| authorization := Some (lit "Bearer " ++ t);
              x_matter_access_token := None;
              x_matter_refresh_token := None |}
    | None => None
    end
  | Ended => None
  end.

(** The whole journey of a pair: the code made by the page of
    [authorize.ts], exchanged at the token endpoint, and the bearer token
    opened by the resource endpoint. *)
Definition round_trip (URLSearchParams_get : jsstring -> jsstring -> option jsstring)
           (accessToken refreshToken : jsstring) : option MatterTokens :=
  match authorization_code accessToken refreshToken with
  | None => None
  | Some code =>
    let answer := token_handler URLSearchParams_get
                    {| req_method := lit "POST";
                       req_body := BodyObject [(lit "code", code);
                                               (lit "grant_type",
                                                lit "authorization_code")] |} in
    match bearer_request answer with
    | Some headers => getTokensFromRequest headers
    | None => None
    end
  end.

(** *** The polling loop of the page, [authorize.ts] lines 137-181 *)

Record ExchangeData := {
  data_access_token : option jsstring;
  data_accessToken : option jsstring;
  data_refresh_token : option jsstring;
  data_refreshToken : option jsstring }.

(** What one [fetch('/api/oauth/exchange')] does: the promise rejects, or a
    response arrives whose [json()] yields data or throws ([None]). *)
Inductive ExchangeReply :=
| ExchangeRejects
| ExchangeResponds (ok : bool) (json : option ExchangeData).

(** What the page does, in order. *)
Inductive Event :=
| EvPoll (session_token : jsstring)
| EvStatus (innerHTML className : jsstring)
| EvConsoleError
| EvNavigate (href : jsstring)
| EvSleep (ms : N).

Inductive FlowState :=
| Resolved (href : jsstring)
| Expired.

Definition connected_html : jsstring := 10003 :: lit " Connected! Redirecting...".
Definition timed_out_html : jsstring :=
  10007 :: lit " Timed out. Please refresh and try again.".

Section Page.

(** The [URL] class of the browser. *)
Variable URL : Type.
Variable new_URL : jsstring -> option URL.
Variable searchParams_set : URL -> jsstring -> jsstring -> URL.
Variable URL_toString : URL -> jsstring.

(** The exchange endpoint: its reply to the call number [n], from 0. *)
Variable exchange : nat -> ExchangeReply.

(** The constants that the handler writes into the page. *)
Variables sessionToken redirectUri state : jsstring.

(** The body of the [try] of iteration [i]: the place to go when the flow
    is resolved, and what happened. *)
Definition poll_once (i : nat) : option jsstring * list Event :=
  match exchange i with
  | ExchangeRejects => (None, [EvPoll sessionToken; EvConsoleError])
  | ExchangeResponds ok json =>
    if ok then
      match json with
      | None => (None, [EvPoll sessionToken; EvConsoleError])
      | Some data =>
        let accessToken := js_or (data_access_token data) (data_accessToken data) in
        let refreshToken := js_or (data_refresh_token data) (data_refreshToken data) in
        match accessToken, refreshToken with
        | Some (a :: a1), Some (r :: r1) =>
          let shown := EvStatus connected_html (lit "status success") in
          match authorization_code (a :: a1) (r :: r1) with
          | None => (None, [EvPoll sessionToken; shown; EvConsoleError])
          | Some code =>
            match new_URL redirectUri with
            | None => (None, [EvPoll sessionToken; shown; EvConsoleError])
            | Some url =>
              let url1 := searchParams_set url (lit "code") code in
              let url2 := match state with
                          | [] => url1
                          | _ :: _ => searchParams_set url1 (lit "state") state
                          end in
              (Some (URL_toString url2),
               [EvPoll sessionToken; shown; EvNavigate (URL_toString url2)])
            end
          end
        | _, _ => (None, [EvPoll sessionToken])
        end
      end
    else (None, [EvPoll sessionToken])
  end.

(** Where the page goes with a code: [url.toString()] once [code], and
    [state] when it is not empty, are set. *)
Definition destination (url : URL) (code : jsstring) : jsstring :=
  URL_toString
    match state with
    | [] => searchParams_set url (lit "code") code
    | _ :: _ => searchParams_set (searchParams_set url (lit "code") code)
                                 (lit "state") state
    end.

(** [for (let i = ...; i < ...; i++)] with [remaining] iterations to go. *)
Fixpoint poll_loop (remaining : nat) (i : nat) : FlowState * list Event :=
  match remaining with
  | O => (Expired, [EvStatus timed_out_html (lit "status error")])
  | S remaining1 =>
    match poll_once i with
    | (Some href, events) => (Resolved href, events)
    | (None, events) =>
      let '(final, later) := poll_loop remaining1 (S i) in
      (final, events ++ EvSleep 1000 :: later)
    end
  end.

Definition pollForTokens : FlowState * list Event := poll_loop 120 0.

End Page.

(** The durations of the pauses, in order. *)
Fixpoint sleeps (events : list Event) : list N :=
  match events with
  | [] => []
  | EvSleep ms :: rest => ms :: sleeps rest
  | _ :: rest => sleeps rest
  end.

Definition polls (events : list Event) : nat :=
  List.length (filter (fun e => match e with EvPoll _ => true | _ => false end) events).

Definition navigations (events : list Event) : nat :=
  List.length (filter (fun e => match e with EvNavigate _ => true | _ => false end) events).

Fixpoint waited (events : list Event) : N :=
  match events with
  | [] => 0
  | EvSleep ms :: rest => ms + waited rest
  | _ :: rest => waited rest
  end.

(** A reply that carries a complete pair. *)
Definition complete_pair (reply : ExchangeReply) : option (jsstring * jsstring) :=
  match reply with
  | ExchangeResponds true (Some data) =>
    match js_or (data_access_token data) (data_accessToken data),
          js_or (data_refresh_token data) (data_refreshToken data) with
    | Some (a :: a1), Some (r :: r1) => Some (a :: a1, r :: r1)
    | _, _ => None
    end
  | _ => None
  end.

(** Test doubles: a [URL] that is its own text and appends the parameters,
    an endpoint that answers "not yet" (a 2xx reply without tokens) until
    call number [k] and then hands out a pair, and one that never does. *)
Definition text_URL (s : jsstring) : option jsstring :=
  if startsWith (lit "https://") s then Some s else None.

Definition text_set (url key value : jsstring) : jsstring :=
  url ++ 38 :: key ++ 61 :: value.

Definition no_data : ExchangeData :=
  {| data_access_token := None; data_accessToken := None;
     data_refresh_token := None; data_refreshToken := None |}.

Definition scanned_after (k : nat) (a r : jsstring) : nat -> ExchangeReply :=
  fun n =>
    if (n <? k)%nat then ExchangeResponds true (Some no_data)
    else ExchangeResponds true
           (Some {| data_access_token := Some a; data_accessToken := None;
                    data_refresh_token := Some r; data_refreshToken := None |}).

Definition never_scanned : nat -> ExchangeReply :=
  fun n => if Nat.even n then ExchangeRejects else ExchangeResponds false None.

Definition no_form : jsstring -> jsstring -> option jsstring := fun _ _ => None.

(** The page of a login started by a client whose redirect URI is a URL. *)
Definition login_page (exchange : nat -> ExchangeReply) : FlowState * list Event :=
  pollForTokens jsstring text_URL text_set (fun u => u) exchange
                (lit "session-1") (lit "https://claude.ai/callback") (lit "xyz").

Definition login_code : jsstring :=
  b64_encode (JSON_stringify [(lit "access_token", lit "access");
                              (lit "refresh_token", lit "refresh")]).

Definition login_destination : jsstring :=
  destination jsstring text_set (fun u => u) (lit "xyz")
              (lit "https://claude.ai/callback") login_code.

(** A token full of characters that JSON, Base64 and URLs treat specially:
    a quote, a backslash, a line feed, then [a+/=&%]. *)
Definition awkward_token : jsstring := 34 :: 92 :: 10 :: lit "a+/=&% ".

(** *** The authorization endpoint, [authorize.ts] lines 12-56 and 183-189 *)

(** The fields that the handler reads from the answer of the trigger
    endpoint; a field that is absent is [None]. *)
Record TriggerData := {
  trigger_session_token : option jsstring;
  trigger_sessionToken : option jsstring;
  trigger_qr_code_url : option jsstring;
  trigger_qrCodeUrl : option jsstring;
  trigger_qr_url : option jsstring;
  trigger_qrUrl : option jsstring }.

(** What the [fetch] of the trigger endpoint does: the promise rejects, or
    a response arrives whose [text()] and [json()] yield a value or throw
    ([None]). *)
Inductive TriggerReply :=
| TriggerRejects
| TriggerResponds (ok : bool) (status : N) (text : option jsstring)
                  (json : option TriggerData).

(** The values that the handler writes into the page: the QR code URL as
    it is into the [src] attribute of the image, the three others through
    [JSON.stringify] into the [script] element.  Neither is escaped for
    HTML, so the record stands for the page only when the page is intact
    ([page_intact] below). *)
Record LoginPage := {
  page_sessionToken : jsstring;
  page_redirectUri : jsstring;
  page_state : jsstring;
  page_qrCodeUrl : jsstring }.

(** A text that holds no [<]: inside a [script] element nothing else can
    end the element or open a comment, and [JSON.stringify] leaves [<] as
    it is. *)
Definition script_safe (s : jsstring) : bool := forallb (fun c => negb (c =? 60)) s.

(** A text that holds no double quote, which would end the attribute. *)
Definition attribute_safe (s : jsstring) : bool := forallb (fun c => negb (c =? 34)) s.

(** The page is the one that the handler means: the browser reads the
    image and the script with the constants as they were written. *)
Definition page_intact (p : LoginPage) : bool :=
  script_safe (page_sessionToken p) && script_safe (page_redirectUri p)
  && script_safe (page_state p) && attribute_safe (page_qrCodeUrl p).

(** [state || ""] *)
Definition state_text (state : option jsstring) : jsstring :=
  match state with
  | Some s => s
  | None => []
  end.

Inductive AuthorizeAnswer :=
| AuthorizeError (status : N) (error : jsstring)
| AuthorizePage (page : LoginPage).

(** [handler] of [authorize.ts]: the answer, and the number of calls of the
    trigger endpoint. *)
Definition authorize_handler (redirect_uri state : option jsstring)
           (trigger : TriggerReply) : AuthorizeAnswer * nat :=
  match redirect_uri with
  | Some (u :: u1) =>
    let redirectUri := u :: u1 in
    match trigger with
    | TriggerRejects =>
      (AuthorizeError 500 (lit "Failed to connect to Matter API"), 1%nat)
    | TriggerResponds ok status text json =>
      if negb ok then
        match text with
        | Some _ => (AuthorizeError 500 (lit "Failed to initiate Matter login"), 1%nat)
        | None => (AuthorizeError 500 (lit "Failed to connect to Matter API"), 1%nat)
        end
      else
        match json with
        | None => (AuthorizeError 500 (lit "Failed to connect to Matter API"), 1%nat)
        | Some triggerData =>
          let sessionToken :=
            js_or (trigger_session_token triggerData)
                  (trigger_sessionToken triggerData) in
          let qrCodeUrl :=
            js_or (js_or (js_or (trigger_qr_code_url triggerData)
                                (trigger_qrCodeUrl triggerData))
                         (trigger_qr_url triggerData))
                  (trigger_qrUrl triggerData) in
          match sessionToken, qrCodeUrl with
          | Some (s :: s1), Some (q :: q1) =>
            (AuthorizePage
               {| page_sessionToken := s :: s1;
                  page_redirectUri := redirectUri;
                  page_state := match js_or state (Some []) with
                                | Some st => st
                                | None => []
                                end;
                  page_qrCodeUrl := q :: q1 |}, 1%nat)
          | _, _ =>
            (AuthorizeError 500 (lit "Unexpected response from Matter API"), 1%nat)
          end
        end
    end
  | _ => (AuthorizeError 400 (lit "Missing redirect_uri"), 0%nat)
  end.

(** *** The exchange proxy that the page polls *)

(** What the [fetch] of Matter's exchange endpoint does. *)
Inductive UpstreamReply :=
| UpstreamRejects
| UpstreamResponds (status : N) (json : option ExchangeData).

Inductive ProxyBody :=
| ProxyEnded
| ProxyError (error : jsstring)
| ProxyData (data : ExchangeData).

Record ProxyAnswer := {
  proxy_status : N;
  proxy_body : ProxyBody }.

(** [handler] of the proxy: the answer, and the session tokens sent to
    Matter. *)
Definition exchange_proxy (method : jsstring) (session_token : option jsstring)
           (upstream : jsstring -> UpstreamReply) : ProxyAnswer * list jsstring :=
  if jseqb method (lit "OPTIONS") then
    ({| proxy_status := 204; proxy_body := ProxyEnded |}, [])
  else if negb (jseqb method (lit "POST")) then
    ({| proxy_status := 405; proxy_body := ProxyError (lit "Method not allowed") |}, [])
  else
    match session_token with
    | Some (t :: t1) =>
      match upstream (t :: t1) with
      | UpstreamResponds status (Some data) =>
        ({| proxy_status := status; proxy_body := ProxyData data |}, [t :: t1])
      | _ =>
        ({| proxy_status := 500;
            proxy_body := ProxyError (lit "Failed to exchange token") |}, [t :: t1])
      end
    | _ =>
      ({| proxy_status := 400; proxy_body := ProxyError (lit "Missing session_token") |},
       [])
    end.

(** What the page sees of an answer of the proxy: [response.ok] and
    [response.json()]; an error object carries no token. *)
Definition seen_by_page (answer : ProxyAnswer) : ExchangeReply :=
  ExchangeResponds
    ((200 <=? proxy_status answer) && (proxy_status answer <=? 299))
    match proxy_body answer with
    | ProxyData data => Some data
    | ProxyError _ => Some no_data
    | ProxyEnded => None
    end.

(** The exchange endpoint of a page whose polls go through the proxy to
    Matter, which gives its answer number [n] to the call number [n]. *)
Definition through_proxy (sessionToken : jsstring) (matter : nat -> UpstreamReply)
  : nat -> ExchangeReply :=
  fun n => seen_by_page (fst (exchange_proxy (lit "POST") (Some sessionToken)
                                             (fun _ => matter n))).

(** Test doubles for the authorization endpoint. *)
Definition trigger_data (session qr : jsstring) : TriggerData :=
  {| trigger_session_token := Some session; trigger_sessionToken := None;
     trigger_qr_code_url := Some qr; trigger_qrCodeUrl := None;
     trigger_qr_url := None; trigger_qrUrl := None |}.

Definition good_trigger : TriggerReply :=
  TriggerResponds true 200 None
                  (Some (trigger_data (lit "session-1") (lit "https://qr.example/1"))).

Definition granting (a r : jsstring) : nat -> UpstreamReply :=
  fun _ => UpstreamResponds 200
             (Some {| data_access_token := Some a; data_accessToken := None;
                      data_refresh_token := Some r; data_refreshToken := None |}).

(** The pair that an answer of Matter hands out: a 2xx answer whose data
    hold a non-empty access token and a non-empty refresh token. *)
Definition grants (reply : UpstreamReply) : option (jsstring * jsstring) :=
  match reply with
  | UpstreamResponds status (Some data) =>
    if (200 <=? status) && (status <=? 299)
    then complete_pair (ExchangeResponds true (Some data))
    else None
  | _ => None
  end.

(** Matter answers "not yet" with a 400 until call number [k], then hands
    out the pair. *)
Definition granting_after (k : nat) (a r : jsstring) : nat -> UpstreamReply :=
  fun n => if (n <? k)%nat then UpstreamResponds 400 (Some no_data) else granting a r n.

End OAuth.

(* ================================================================= *)
(** * Part II: properties *)
(* ================================================================= *)

Import MatterApi.
Local Open Scope client_scope.

(** ** The token refresher *)

(** What [refreshAccessToken] does, by cases on the provider's answer and
    on the observer: it never throws, it makes exactly one call, and it
    reports [true] only when the answer is a 2xx pair of tokens and the
    observer, if any, returns. *)
Lemma refreshAccessToken_cases (w : World) :
  let req := refresh_request (refreshToken w) in
  let w1 := record_fetch req w in
  refreshAccessToken w =
  match provider w (fetched w) req with
  | Rejects _ => (Returned false, w1)
  | Resolves r =>
    if ok r then
      match body_json r with
      | Some (JTokens d) =>
        let w2 := install_tokens (access_token d) (refresh_token d) w1 in
        let t := mkTokens (access_token d) (refresh_token d) in
        match onTokenRefresh w with
        | None => (Returned true, w2)
        | Some f =>
          match f t with
          | ObserverReturns => (Returned true, record_notify t w2)
          | ObserverThrows _ => (Returned false, record_notify t w2)
          end
        end
      | _ => (Returned false, w1)
      end
    else (Returned false, w1)
  end.
Proof.
  unfold refreshAccessToken, try_catch, bind, get_refreshToken, fetch.
  cbn zeta.
  destruct (provider w (fetched w) (refresh_request (refreshToken w))) as [r|reason];
    [|reflexivity].
  destruct (ok r); cbn; [|reflexivity].
  unfold response_json.
  destruct (body_json r) as [[fr|d|sv|raw]|]; cbn; try reflexivity.
  unfold notify_observer; cbn.
  destruct (onTokenRefresh w) as [f|]; cbn; [|reflexivity].
  destruct (f _); reflexivity.
Qed.

Lemma refreshAccessToken_returns (w : World) :
  exists b w2,
    refreshAccessToken w = (Returned b, w2)
    /\ fetched w2 = (fetched w ++ [refresh_request (refreshToken w)])%list
    /\ provider w2 = provider w.
Proof.
  rewrite refreshAccessToken_cases; cbn zeta.
  destruct (provider w (fetched w) _) as [r|reason]; [|eauto].
  destruct (ok r); [|eauto].
  destruct (body_json r) as [[fr|d|sv|raw]|]; eauto.
  destruct (onTokenRefresh w) as [f|]; eauto.
  destruct (f _); eauto.
Qed.

(** ** The authenticated request executor *)

Lemma error_kind_after_refresh (reason : string) (code : Z) :
  error_kind (MatterAPIError ("Request failed after token refresh: " ++ reason)
                             code None) = AuthExpired.
Proof.
  unfold error_kind.
  replace (String.prefix "Request failed after token refresh: "
             ("Request failed after token refresh: " ++ reason)) with true.
  - now rewrite orb_true_r.
  - cbn. now destruct reason.
Qed.

(** [request] when the first answer is a 401, in terms of the refresher. *)
Lemma request_401_unfold (w : World) (endpoint : string) (options : RequestInit)
      (r1 : Response) :
  let url := request_url endpoint in
  let first := mk_request url options (bearer_headers (accessToken w)) in
  provider w (fetched w) first = Resolves r1 ->
  status r1 = 401 ->
  request endpoint options w =
  match refreshAccessToken (record_fetch first w) with
  | (Returned true, w2) =>
    let retry := mk_request url options (bearer_headers (accessToken w2)) in
    match provider w2 (fetched w2) retry with
    | Resolves r2 =>
      if ok r2 then
        match body_json r2 with
        | Some j => (Returned j, record_fetch retry w2)
        | None => (Threw (JsError "SyntaxError" "Unexpected token in JSON"),
                   record_fetch retry w2)
        end
      else (Threw (MatterAPIError
                     ("Request failed after token refresh: " ++ statusText r2)
                     (status r2) None), record_fetch retry w2)
    | Rejects reason => (Threw (JsError "TypeError" reason), record_fetch retry w2)
    end
  | (Returned false, w2) =>
    (Threw (MatterAPIError "Authentication failed" 401 None), w2)
  | (Threw e, w2) => (Threw e, w2)
  | (OutOfFuel, w2) => (OutOfFuel, w2)
  end.
Proof.
  intros url first Hfirst H401.
  unfold request, bind at 1, get_accessToken.
  fold url. fold first.
  unfold bind at 1, fetch at 1. rewrite Hfirst.
  rewrite H401. change (401 =? 401) with true. cbv iota.
  unfold bind at 1.
  destruct (refreshAccessToken (record_fetch first w)) as [[[|]|e|] w2]; try reflexivity.
  unfold bind at 1. cbn zeta.
  unfold bind at 1, fetch at 1.
  destruct (provider w2 (fetched w2) _) as [r2|reason]; [|reflexivity].
  destruct (ok r2); cbn; [|reflexivity].
  unfold response_json. destruct (body_json r2); reflexivity.
Qed.

(** What [refreshAccessToken] does after the first call of a request, by
    cases on the answer of the refresh endpoint as the claims put them. *)
Lemma refresh_after_first_call (w : World) (first : HttpRequest) :
  let refresh := refresh_request (refreshToken w) in
  let answer := provider w (fetched w ++ [first])%list refresh in
  let w1 := record_fetch refresh (record_fetch first w) in
  ((forall r, answer = Resolves r -> ok r = false \/ body_json r = None) ->
   refreshAccessToken (record_fetch first w) = (Returned false, w1))
  /\ (forall d, granted answer = Some d ->
        let t := mkTokens (access_token d) (refresh_token d) in
        let w2 := install_tokens (access_token d) (refresh_token d) w1 in
        (onTokenRefresh w = None ->
         refreshAccessToken (record_fetch first w) = (Returned true, w2))
        /\ (forall f, onTokenRefresh w = Some f -> f t = ObserverReturns ->
                      refreshAccessToken (record_fetch first w)
                      = (Returned true, record_notify t w2))
        /\ (forall f m, onTokenRefresh w = Some f -> f t = ObserverThrows m ->
                        refreshAccessToken (record_fetch first w)
                        = (Returned false, record_notify t w2))).
Proof.
  intros refresh answer w1.
  pose proof (refreshAccessToken_cases (record_fetch first w)) as Hcases.
  cbn zeta in Hcases.
  change (refreshToken (record_fetch first w)) with (refreshToken w) in Hcases.
  change (provider (record_fetch first w)) with (provider w) in Hcases.
  change (fetched (record_fetch first w)) with (fetched w ++ [first])%list in Hcases.
  change (onTokenRefresh (record_fetch first w)) with (onTokenRefresh w) in Hcases.
  change (provider w (fetched w ++ [first])%list (refresh_request (refreshToken w)))
    with answer in Hcases.
  change (record_fetch (refresh_request (refreshToken w)) (record_fetch first w))
    with w1 in Hcases.
  rewrite Hcases. unfold granted. clear Hcases.
  destruct answer as [r|reason].
  2:{ split; [reflexivity | discriminate]. }
  destruct (ok r) eqn:Hok.
  2:{ split; [reflexivity | discriminate]. }
  destruct (body_json r) as [[fr|d|sv|raw]|] eqn:Hbody.
  2:{ split; [intros H; destruct (H r eq_refl); congruence|].
      intros d' [= <-]. cbn zeta. split; [|split].
      - now intros ->.
      - intros f Hf Hret. now rewrite Hf, Hret.
      - intros f m Hf Hthrow. now rewrite Hf, Hthrow. }
  all: split; [reflexivity | discriminate].
Qed.

(** C1, as stated, fails for a retry that fails otherwise than by a
    non-2xx answer.  Here the first call is answered 401 and the refresh is
    granted, and the connection of the retry is dropped: the [TypeError] of
    [fetch] leaves [request] as it is, it is no [MatterAPIError] and so no
    [AuthExpired] error.  Nor is the [SyntaxError] of a 2xx retry whose
    body is not JSON. *)
Lemma retry_failure_is_not_always_AuthExpired :
  let w := new_MatterClient Mock.stale_pair None
                            (Mock.dropping_provider Mock.fresh_pair) in
  let first := mk_request (request_url "/library_items/queue_feed/") no_init
                          (bearer_headers "stale-access") in
  let refresh := refresh_request "stale-refresh" in
  let retry := mk_request (request_url "/library_items/queue_feed/") no_init
                          (bearer_headers "fresh-access") in
  let page := {| status := 200; statusText := "OK"; body_json := None;
                 body_text := Some "<html>" |} in
  provider w [] first = Resolves (Mock.error_response 401 "Unauthorized")
  /\ provider w [first] refresh = Resolves (Mock.ok_response (JTokens Mock.fresh_pair))
  /\ provider w [first; refresh] retry = Rejects "fetch failed"
  /\ request "/library_items/queue_feed/" no_init w
     = (Threw (JsError "TypeError" "fetch failed"),
        record_fetch retry
          (install_tokens "fresh-access" "fresh-refresh"
             (record_fetch refresh (record_fetch first w))))
  /\ error_kind (JsError "TypeError" "fetch failed") = RuntimeError
  /\ error_kind (JsError "TypeError" "fetch failed") <> AuthExpired
  /\ fst (request "/library_items/queue_feed/" no_init (Mock.stale_client None page))
     = Threw (JsError "SyntaxError" "Unexpected token in JSON")
  /\ error_kind (JsError "SyntaxError" "Unexpected token in JSON") <> AuthExpired.
Proof.
  cbv zeta.
  split; [reflexivity|]. split; [reflexivity|]. split; [reflexivity|].
  split; [reflexivity|]. split; [reflexivity|]. split; [discriminate|].
  split; [reflexivity | discriminate].
Qed.

(** C1, amended.  A request whose first attempt is answered 401 calls the
    refresh endpoint exactly once, with the refresh token held.  If the
    refresh fails (the call is rejected, is answered outside 2xx or its
    body is not JSON, or the observer throws) the request ends at once with
    the [AuthExpired] error "Authentication failed" and the original call
    is not repeated.  If the endpoint grants a pair, and the observer, if
    any, returns, the pair is installed and the original call is repeated
    exactly once with the access token granted; the outcome of that single
    retry is final: its parsed body when it is a 2xx answer with a JSON
    body, the [AuthExpired] error "Request failed after token refresh" when
    it is answered outside 2xx, and the runtime's own error, which is not
    [AuthExpired], when the call is rejected or the 2xx body is not JSON.
    So the original call is attempted at most twice and the refresh
    endpoint is called once. *)
Theorem request_refreshes_and_retries_once
        (w : World) (endpoint : string) (options : RequestInit) (r1 : Response) :
  let url := request_url endpoint in
  let first := mk_request url options (bearer_headers (accessToken w)) in
  let refresh := refresh_request (refreshToken w) in
  let answer := provider w (fetched w ++ [first])%list refresh in
  let failed := MatterAPIError "Authentication failed" 401 None in
  provider w (fetched w) first = Resolves r1 ->
  status r1 = 401 ->
  ((forall r, answer = Resolves r -> ok r = false \/ body_json r = None) ->
   exists w2,
     request endpoint options w = (Threw failed, w2)
     /\ error_kind failed = AuthExpired
     /\ fetched w2 = (fetched w ++ [first; refresh])%list
     /\ accessToken w2 = accessToken w
     /\ refreshToken w2 = refreshToken w)
  /\ (forall d, granted answer = Some d ->
        let t := mkTokens (access_token d) (refresh_token d) in
        let retry := mk_request url options (bearer_headers (access_token d)) in
        (forall f m, onTokenRefresh w = Some f -> f t = ObserverThrows m ->
                     exists w2,
                       request endpoint options w = (Threw failed, w2)
                       /\ fetched w2 = (fetched w ++ [first; refresh])%list)
        /\ ((forall f, onTokenRefresh w = Some f -> f t = ObserverReturns) ->
            exists c w3,
              request endpoint options w = (c, w3)
              /\ fetched w3 = (fetched w ++ [first; refresh; retry])%list
              /\ accessToken w3 = access_token d
              /\ refreshToken w3 = refresh_token d
              /\ match provider w (fetched w ++ [first; refresh])%list retry with
                 | Resolves r2 =>
                   if ok r2 then
                     match body_json r2 with
                     | Some j => c = Returned j
                     | None => exists m, c = Threw (JsError "SyntaxError" m)
                     end
                   else
                     c = Threw (MatterAPIError
                                  ("Request failed after token refresh: "
                                     ++ statusText r2) (status r2) None)
                     /\ error_kind (MatterAPIError
                                      ("Request failed after token refresh: "
                                         ++ statusText r2) (status r2) None)
                        = AuthExpired
                 | Rejects reason =>
                   c = Threw (JsError "TypeError" reason)
                   /\ error_kind (JsError "TypeError" reason) = RuntimeError
                 end)).
Proof.
  intros url first refresh answer failed Hfirst H401.
  pose proof (request_401_unfold w endpoint options r1 Hfirst H401) as Hreq.
  cbn zeta in Hreq. fold url in Hreq. fold first in Hreq.
  destruct (refresh_after_first_call w first) as [Hbad Hgood].
  fold refresh in Hbad, Hgood. fold answer in Hbad, Hgood.
  assert (Hlog2 : ((fetched w ++ [first]) ++ [refresh]
                   = fetched w ++ [first; refresh])%list)
    by now rewrite <- app_assoc.
  split.
  - intros H. rewrite Hreq, (Hbad H). eexists. split; [reflexivity|].
    split; [reflexivity|]. split; [exact Hlog2|]. split; reflexivity.
  - intros d Hd t retry. destruct (Hgood d Hd) as (Hnone & Hreturns & Hthrows).
    fold t in Hreturns, Hthrows.
    split.
    + intros f m Hf Hthrow. rewrite Hreq, (Hthrows f m Hf Hthrow).
      eexists. split; [reflexivity | exact Hlog2].
    + intros Hobs.
      assert (Hrefreshed :
                exists w2,
                  refreshAccessToken (record_fetch first w) = (Returned true, w2)
                  /\ provider w2 = provider w
                  /\ fetched w2 = (fetched w ++ [first; refresh])%list
                  /\ accessToken w2 = access_token d
                  /\ refreshToken w2 = refresh_token d).
      { destruct (onTokenRefresh w) as [f|] eqn:Hf.
        - eexists. split; [exact (Hreturns f eq_refl (Hobs f eq_refl))|].
          split; [reflexivity|]. split; [exact Hlog2|]. split; reflexivity.
        - eexists. split; [exact (Hnone eq_refl)|].
          split; [reflexivity|]. split; [exact Hlog2|]. split; reflexivity. }
      destruct Hrefreshed as (w2 & Hrefresh & Hp & Hlog & Ha & Hr).
      rewrite Hreq, Hrefresh. cbn zeta. rewrite Hp, Hlog, Ha. fold retry.
      assert (Hlog3 : fetched (record_fetch retry w2)
                      = (fetched w ++ [first; refresh; retry])%list)
        by (cbn; rewrite Hlog, <- app_assoc; reflexivity).
      destruct (provider w (fetched w ++ [first; refresh])%list retry) as [r2|reason].
      * destruct (ok r2).
        -- destruct (body_json r2) as [j|];
             (eexists _, _; split; [reflexivity|]; split; [exact Hlog3|];
              split; [exact Ha|]; split; [exact Hr|]); [reflexivity | eauto].
        -- eexists _, _. split; [reflexivity|]. split; [exact Hlog3|].
           split; [exact Ha|]. split; [exact Hr|].
           split; [reflexivity | apply error_kind_after_refresh].
      * eexists _, _. split; [reflexivity|]. split; [exact Hlog3|].
        split; [exact Ha|]. split; [exact Hr|]. split; reflexivity.
Qed.

Lemma request_refreshes_and_retries_once_witness :
  let w := Mock.stale_client None (Mock.ok_response (JOther "done")) in
  let first := mk_request (request_url "/library_items/queue_feed/") no_init
                          (bearer_headers "stale-access") in
  let refresh := refresh_request "stale-refresh" in
  let retry := mk_request (request_url "/library_items/queue_feed/") no_init
                          (bearer_headers "fresh-access") in
  provider w (fetched w) first = Resolves (Mock.error_response 401 "Unauthorized")
  /\ status (Mock.error_response 401 "Unauthorized") = 401
  /\ granted (provider w (fetched w ++ [first])%list refresh) = Some Mock.fresh_pair
  /\ (forall f, onTokenRefresh w = Some f ->
                f (mkTokens "fresh-access" "fresh-refresh") = ObserverReturns)
  /\ exists w3,
      request "/library_items/queue_feed/" no_init w = (Returned (JOther "done"), w3)
      /\ fetched w3 = [first; refresh; retry]
      /\ accessToken w3 = "fresh-access"
      /\ refreshToken w3 = "fresh-refresh".
Proof.
  cbv zeta.
  assert (Hobs : forall f,
             onTokenRefresh (Mock.stale_client None (Mock.ok_response (JOther "done")))
             = Some f ->
             f (mkTokens "fresh-access" "fresh-refresh") = ObserverReturns)
    by discriminate.
  split; [reflexivity|]. split; [reflexivity|]. split; [reflexivity|].
  split; [exact Hobs|].
  destruct (proj2 (proj2 (request_refreshes_and_retries_once
                            (Mock.stale_client None (Mock.ok_response (JOther "done")))
                            "/library_items/queue_feed/" no_init
                            (Mock.error_response 401 "Unauthorized") eq_refl eq_refl)
                         Mock.fresh_pair eq_refl) Hobs)
    as (c & w3 & Hrun & Hlog & Ha & Hr & Hout).
  exists w3. cbn in Hout. rewrite Hrun, Hout.
  split; [reflexivity|]. split; [exact Hlog|]. split; [exact Ha | exact Hr].
Defined.

(** The three runs of the specification's test, evaluated: a retry that
    succeeds, a retry that is answered 401 again, and a refresh that is
    refused. *)
Example request_retry_succeeds :
  let w := Mock.stale_client None (Mock.ok_response (JOther "done")) in
  fst (request "/library_items/queue_feed/" no_init w) = Returned (JOther "done")
  /\ List.length (fetched (snd (request "/library_items/queue_feed/" no_init w))) = 3%nat.
Proof. split; reflexivity. Qed.

Example request_retry_fails :
  let w := Mock.stale_client None (Mock.error_response 401 "Unauthorized") in
  fst (request "/library_items/queue_feed/" no_init w)
  = Threw (MatterAPIError "Request failed after token refresh: Unauthorized" 401 None)
  /\ List.length (fetched (snd (request "/library_items/queue_feed/" no_init w))) = 3%nat.
Proof. split; reflexivity. Qed.

Example request_refresh_refused :
  let w := new_MatterClient Mock.stale_pair None
                            (fun _ _ => Resolves (Mock.error_response 401 "Unauthorized")) in
  fst (request "/library_items/queue_feed/" no_init w)
  = Threw (MatterAPIError "Authentication failed" 401 None)
  /\ List.length (fetched (snd (request "/library_items/queue_feed/" no_init w))) = 2%nat.
Proof. split; reflexivity. Qed.

(** ** The observer of refreshed tokens *)

(** C8, as stated, fails: the provider grants the refresh and would answer
    the retry, yet with an observer that throws the refresher reports
    failure and the request ends with "Authentication failed"; the retry is
    never sent, although the new pair has been installed. *)
Lemma observer_failure_fails_the_request :
  let w := Mock.stale_client (Some Mock.throwing_observer)
                             (Mock.ok_response (JOther "done")) in
  let first := mk_request (request_url "/library_items/queue_feed/") no_init
                          (bearer_headers "stale-access") in
  let refresh := refresh_request "stale-refresh" in
  provider w [first] refresh = Resolves (Mock.ok_response (JTokens Mock.fresh_pair))
  /\ fst (refreshAccessToken (record_fetch first w)) = Returned false
  /\ fst (request "/library_items/queue_feed/" no_init w)
     = Threw (MatterAPIError "Authentication failed" 401 None)
  /\ fetched (snd (request "/library_items/queue_feed/" no_init w)) = [first; refresh]
  /\ accessToken (snd (request "/library_items/queue_feed/" no_init w)) = "fresh-access"
  /\ fst (request "/library_items/queue_feed/" no_init
                  (Mock.stale_client (Some Mock.quiet_observer)
                                     (Mock.ok_response (JOther "done"))))
     = Returned (JOther "done").
Proof. cbv zeta. repeat split; reflexivity. Qed.

(** C8, amended.  When the first attempt is answered 401 and the provider
    grants the refresh, the new pair is installed and the observer, if one
    is registered, is called once with it.  If the observer returns (or
    there is none) the request goes on to its retry with the new access
    token.  If the observer throws, the refresher's catch-all turns the
    exception into a failed refresh: the request ends with "Authentication
    failed" and no retry is sent. *)
Theorem observer_outcome_decides_refresh
        (w : World) (endpoint : string) (options : RequestInit)
        (r1 r : Response) (d : TokenRefreshResponse) :
  let url := request_url endpoint in
  let first := mk_request url options (bearer_headers (accessToken w)) in
  let refresh := refresh_request (refreshToken w) in
  let retry := mk_request url options (bearer_headers (access_token d)) in
  let t := mkTokens (access_token d) (refresh_token d) in
  provider w (fetched w) first = Resolves r1 ->
  status r1 = 401 ->
  provider w (fetched w ++ [first])%list refresh = Resolves r ->
  ok r = true ->
  body_json r = Some (JTokens d) ->
  exists c w3,
    request endpoint options w = (c, w3)
    /\ accessToken w3 = access_token d
    /\ refreshToken w3 = refresh_token d
    /\ match onTokenRefresh w with
       | None =>
         notified w3 = notified w
         /\ fetched w3 = (fetched w ++ [first; refresh; retry])%list
       | Some f =>
         notified w3 = (notified w ++ [t])%list
         /\ match f t with
            | ObserverReturns =>
              fetched w3 = (fetched w ++ [first; refresh; retry])%list
            | ObserverThrows _ =>
              c = Threw (MatterAPIError "Authentication failed" 401 None)
              /\ fetched w3 = (fetched w ++ [first; refresh])%list
            end
       end.
Proof.
  intros url first refresh retry t Hfirst H401 Hprov Hok Hbody.
  pose proof (request_401_unfold w endpoint options r1 Hfirst H401) as Hreq.
  cbn zeta in Hreq. fold url in Hreq. fold first in Hreq.
  pose proof (refreshAccessToken_cases (record_fetch first w)) as Hcases.
  cbn zeta in Hcases.
  change (refreshToken (record_fetch first w)) with (refreshToken w) in Hcases.
  change (provider (record_fetch first w)) with (provider w) in Hcases.
  change (fetched (record_fetch first w)) with (fetched w ++ [first])%list in Hcases.
  change (onTokenRefresh (record_fetch first w)) with (onTokenRefresh w) in Hcases.
  fold refresh in Hcases. rewrite Hprov, Hok, Hbody in Hcases. fold t in Hcases.
  assert (Hretry : forall w2, accessToken w2 = access_token d ->
            exists c,
              match provider w2 (fetched w2)
                      (mk_request url options (bearer_headers (accessToken w2))) with
              | Resolves r2 =>
                if ok r2 then
                  match body_json r2 with
                  | Some j => (Returned j, record_fetch retry w2)
                  | None => (Threw (JsError "SyntaxError" "Unexpected token in JSON"),
                             record_fetch retry w2)
                  end
                else (Threw (MatterAPIError
                               ("Request failed after token refresh: " ++ statusText r2)
                               (status r2) None), record_fetch retry w2)
              | Rejects reason =>
                (Threw (JsError "TypeError" reason), record_fetch retry w2)
              end = (c, record_fetch retry w2)).
  { intros w2 Ha. destruct (provider w2 _ _) as [r2|reason]; [|eauto].
    destruct (ok r2); [|eauto]. destruct (body_json r2); eauto. }
  destruct (onTokenRefresh w) as [f|].
  - destruct (f t) eqn:Hf.
    + rewrite Hreq, Hcases. cbn zeta.
      match goal with |- context [record_notify t ?x] => set (w2 := record_notify t x) end.
      change (accessToken w2) with (access_token d). fold retry.
      destruct (Hretry w2 eq_refl) as [c Hc].
      change (accessToken w2) with (access_token d) in Hc. fold retry in Hc.
      exists c, (record_fetch retry w2). rewrite Hc.
      repeat split. cbn. now rewrite <- !app_assoc.
    + rewrite Hreq, Hcases. eexists _, _. split; [reflexivity|].
      repeat split. cbn. now rewrite <- !app_assoc.
  - rewrite Hreq, Hcases. cbn zeta.
    match goal with |- context [install_tokens ?a ?b ?x] => set (w2 := install_tokens a b x) end.
    change (accessToken w2) with (access_token d). fold retry.
    destruct (Hretry w2 eq_refl) as [c Hc].
    change (accessToken w2) with (access_token d) in Hc. fold retry in Hc.
    exists c, (record_fetch retry w2). rewrite Hc.
    repeat split. cbn. now rewrite <- !app_assoc.
Qed.

Lemma observer_outcome_decides_refresh_witness :
  let w := Mock.stale_client (Some Mock.throwing_observer)
                             (Mock.ok_response (JOther "done")) in
  let endpoint := "/library_items/queue_feed/" in
  let d := Mock.fresh_pair in
  let first := mk_request (request_url endpoint) no_init (bearer_headers (accessToken w)) in
  let refresh := refresh_request (refreshToken w) in
  let retry := mk_request (request_url endpoint) no_init (bearer_headers (access_token d)) in
  let t := mkTokens (access_token d) (refresh_token d) in
  provider w (fetched w) first = Resolves (Mock.error_response 401 "Unauthorized")
  /\ status (Mock.error_response 401 "Unauthorized") = 401
  /\ provider w (fetched w ++ [first])%list refresh
     = Resolves (Mock.ok_response (JTokens d))
  /\ ok (Mock.ok_response (JTokens d)) = true
  /\ body_json (Mock.ok_response (JTokens d)) = Some (JTokens d)
  /\ exists c w3,
      request endpoint no_init w = (c, w3)
      /\ accessToken w3 = access_token d
      /\ refreshToken w3 = refresh_token d
      /\ match onTokenRefresh w with
         | None =>
           notified w3 = notified w
           /\ fetched w3 = (fetched w ++ [first; refresh; retry])%list
         | Some f =>
           notified w3 = (notified w ++ [t])%list
           /\ match f t with
              | ObserverReturns =>
                fetched w3 = (fetched w ++ [first; refresh; retry])%list
              | ObserverThrows _ =>
                c = Threw (MatterAPIError "Authentication failed" 401 None)
                /\ fetched w3 = (fetched w ++ [first; refresh])%list
              end
         end.
Proof.
  cbv zeta.
  split; [reflexivity|]. split; [reflexivity|]. split; [reflexivity|].
  split; [reflexivity|]. split; [reflexivity|].
  exact (observer_outcome_decides_refresh
           (Mock.stale_client (Some Mock.throwing_observer)
                              (Mock.ok_response (JOther "done")))
           "/library_items/queue_feed/" no_init
           (Mock.error_response 401 "Unauthorized")
           (Mock.ok_response (JTokens Mock.fresh_pair)) Mock.fresh_pair
           eq_refl eq_refl eq_refl eq_refl eq_refl).
Defined.

(** ** The feed served page by page *)

Lemma append_cancel_l (s a b : string) : (s ++ a = s ++ b -> a = b)%string.
Proof. induction s as [|c s IH]; cbn; [auto|]. intros H. injection H. auto. Qed.

Lemma String_of_number_inj (a b : Z) :
  Js.String_of_number a = Js.String_of_number b -> a = b.
Proof.
  unfold Js.String_of_number. intros H.
  apply DecimalZ.to_int_inj.
  assert (Hnn : forall z, Z.to_int z <> Pos Nil /\ Z.to_int z <> Neg Nil).
  { intros [|q|q]; cbn; split; try discriminate;
      intros E; injection E; apply DecimalPos.Unsigned.to_uint_nonnil. }
  destruct (Hnn a) as [Ha1 Ha2]. destruct (Hnn b) as [Hb1 Hb2].
  pose proof (NilZero.isi _ Ha1 Ha2) as Ea.
  pose proof (NilZero.isi _ Hb1 Hb2) as Eb.
  rewrite H in Ea. congruence.
Qed.

Lemma feed_endpoint_inj (ts : string) (a b : Z) :
  request_url (feed_endpoint ts a) = request_url (feed_endpoint ts b) -> a = b.
Proof.
  unfold request_url, feed_endpoint. cbn [String.prefix append].
  cbn. intros H.
  apply String_of_number_inj.
  injection H as H.
  apply append_cancel_l in H.
  apply (append_cancel_l "&page=") in H. exact H.
Qed.

Lemma find_seq_unique (f : nat -> bool) (x : nat) :
  f x = true ->
  (forall y, f y = true -> y = x) ->
  forall len start, (start <= x < start + len)%nat ->
  find f (seq start len) = Some x.
Proof.
  intros Hx Huniq. induction len as [|len IH]; intros start Hr; [lia|].
  cbn. destruct (f start) eqn:Hs.
  - f_equal. now apply Huniq.
  - apply IH. assert (start <> x) by (intro E; subst; congruence). lia.
Qed.

Lemma feed_provider_serves (ts tok : string) (pages : list FeedResponse)
      (history : list HttpRequest) (k : nat) (p : FeedResponse) :
  nth_error pages k = Some p ->
  Mock.feed_provider ts pages history (Mock.page_request ts tok (S k))
  = Resolves (Mock.ok_response (JFeed p)).
Proof.
  intros Hk. unfold Mock.feed_provider.
  rewrite (find_seq_unique _ (S k)).
  - cbn [Nat.sub]. rewrite Nat.sub_0_r, Hk. reflexivity.
  - cbn [Mock.page_request mk_request req_url]. apply String.eqb_refl.
  - intros y Hy. cbn [Mock.page_request mk_request req_url] in Hy.
    apply String.eqb_eq in Hy. apply feed_endpoint_inj in Hy. lia.
  - assert (k < List.length pages)%nat by (apply nth_error_Some; congruence). lia.
Qed.

(** A request for a page that the provider serves returns that page and
    leaves the client as it was, one call recorded. *)
Lemma request_served (ts : string) (pages : list FeedResponse) (w : World)
      (k : nat) (p : FeedResponse) :
  provider w = Mock.feed_provider ts pages ->
  nth_error pages k = Some p ->
  request (feed_endpoint ts (Z.of_nat (S k))) no_init w
  = (Returned (JFeed p), record_fetch (Mock.page_request ts (accessToken w) (S k)) w).
Proof.
  intros Hp Hk.
  unfold request, bind at 1, get_accessToken.
  unfold bind at 1, fetch at 1.
  fold (Mock.page_request ts (accessToken w) (S k)).
  rewrite Hp, (feed_provider_serves ts _ pages _ k p Hk).
  reflexivity.
Qed.

Lemma nth_error_skipn_head {A} (l : list A) (k : nat) (x : A) (rest : list A) :
  skipn k l = x :: rest -> nth_error l k = Some x /\ skipn (S k) l = rest.
Proof.
  revert l. induction k as [|k IH]; intros [|y l] H; cbn in *; try discriminate.
  - injection H as -> ->. auto.
  - now apply IH.
Qed.

(** ** The article locator *)

Lemma find_app {A} (f : A -> bool) (l1 l2 : list A) :
  find f (l1 ++ l2)%list
  = match find f l1 with Some a => Some a | None => find f l2 end.
Proof.
  induction l1 as [|x l1 IH]; cbn; [reflexivity|]. now destruct (f x).
Qed.

Lemma existsb_find {A} (f : A -> bool) (l : list A) :
  existsb f l = match find f l with Some _ => true | None => false end.
Proof.
  induction l as [|x l IH]; cbn; [reflexivity|]. now destruct (f x).
Qed.

Lemma linked_tail (p q : FeedResponse) (rest : list FeedResponse) :
  Mock.linked (p :: q :: rest) = true ->
  Mock.has_next p = true /\ Mock.linked (q :: rest) = true.
Proof. cbn [Mock.linked]. intros H. now apply andb_true_iff in H. Qed.

(** The loop of [getArticle] in front of a served feed, started at any page:
    it returns the first match of the remaining pages, or [null] when there
    is none, and it reads exactly the pages up to the first match. *)
Lemma getArticle_loop_served (pages : list FeedResponse)
      (articleId : string) (numericId : option Z) :
  forall (rest : list FeedResponse) (k : nat) (w : World) (fuel : nat),
    provider w = Mock.feed_provider default_timestamp pages ->
    skipn k pages = rest ->
    Mock.linked rest = true ->
    Mock.closed rest = true ->
    (List.length rest <= fuel)%nat ->
    exists w',
      getArticle_loop fuel articleId numericId (Z.of_nat (S k)) w
      = (Returned (find (entry_matches articleId numericId) (Mock.items rest)), w')
      /\ fetched w'
         = (fetched w
              ++ map (Mock.page_request default_timestamp (accessToken w))
                     (seq (S k) (Mock.pages_scanned (entry_matches articleId numericId)
                                                    rest)))%list
      /\ provider w' = provider w
      /\ accessToken w' = accessToken w.
Proof.
  induction rest as [|p rest IH]; intros k w fuel Hp Hskip Hlinked Hclosed Hfuel.
  - discriminate.
  - destruct fuel as [|fuel]; [cbn in Hfuel; lia|].
    destruct (nth_error_skipn_head _ _ _ _ Hskip) as [Hk Hskip'].
    cbn [getArticle_loop]. unfold bind at 1.
    rewrite (request_served _ pages w k p Hp Hk).
    unfold bind at 1. cbn [as_feed ret].
    unfold Mock.items. cbn [map List.concat]. rewrite find_app.
    cbn [Mock.pages_scanned]. rewrite existsb_find.
    destruct (find (entry_matches articleId numericId) (feed p)) as [a|] eqn:Hfind.
    + eexists. split; [reflexivity|]. cbn. auto.
    + destruct rest as [|q rest].
      * cbn [Mock.closed] in Hclosed. unfold Mock.has_next in Hclosed.
        destruct (next p); [discriminate|].
        eexists. split; [reflexivity|]. cbn. auto.
      * destruct (linked_tail _ _ _ Hlinked) as [Hnext Hlinked'].
        unfold Mock.has_next in Hnext. destruct (next p); [|discriminate].
        replace (Z.of_nat (S k) + 1) with (Z.of_nat (S (S k))) by lia.
        destruct (IH (S k) (record_fetch (Mock.page_request default_timestamp
                                                            (accessToken w) (S k)) w)
                     fuel Hp Hskip' Hlinked' Hclosed) as (w' & Hrun & Hlog & Hprov & Htok).
        { cbn in Hfuel |- *. lia. }
        exists w'. split; [exact Hrun|]. split; [|split; [exact Hprov | exact Htok]].
        rewrite Hlog. cbn [record_fetch fetched accessToken].
        rewrite <- app_assoc. reflexivity.
Qed.

Lemma entry_matches_spec (articleId : string) (e : FeedEntry) :
  entry_matches articleId (Js.parseInt articleId) e = true
  <-> (entry_id e = articleId
       \/ Js.parseInt articleId = Some (content_id (entry_content e))
       \/ Js.String_of_number (content_id (entry_content e)) = articleId).
Proof.
  unfold entry_matches, Js.number_eq. rewrite !orb_true_iff, !String.eqb_eq.
  destruct (Js.parseInt articleId) as [n|].
  - rewrite Z.eqb_eq. split.
    + intros [[H|H]|H]; auto. right. left. now subst.
    + intros [H|[[= <-]|H]]; auto.
  - split.
    + intros [[H|H]|H]; auto. discriminate.
    + intros [H|[H|H]]; auto. discriminate.
Qed.

(** The first match is found on the page that holds it. *)
Lemma pages_scanned_first_match (found : FeedEntry -> bool) :
  forall (pages : list FeedResponse) (before : list FeedEntry) (e : FeedEntry)
         (after : list FeedEntry),
    Mock.items pages = (before ++ e :: after)%list ->
    found e = true ->
    (forall e', In e' before -> found e' = false) ->
    find found (Mock.items pages) = Some e
    /\ Mock.pages_scanned found pages = Mock.page_of (List.length before) pages
    /\ (1 <= Mock.page_of (List.length before) pages <= List.length pages)%nat.
Proof.
  induction pages as [|p rest IH]; intros before e after Hitems He Hbefore.
  - destruct before; discriminate.
  - change (Mock.items (p :: rest)) with (feed p ++ Mock.items rest)%list in *.
    cbn [Mock.pages_scanned Mock.page_of List.length].
    rewrite find_app, existsb_find.
    apply app_eq_app in Hitems as [l [[Hp Hrest]|[Hb Hrest]]].
    + destruct l as [|x l].
      * rewrite app_nil_r in Hp. cbn [Datatypes.app] in Hrest.
        assert (Hnone : find found (feed p) = None).
        { destruct (find found (feed p)) as [y|] eqn:Hy; [|reflexivity].
          apply find_some in Hy as [Hin Hy]. rewrite Hp in Hin.
          rewrite (Hbefore y Hin) in Hy. discriminate. }
        rewrite Hnone, Hp, Nat.ltb_irrefl, Nat.sub_diag.
        destruct (IH [] e after (eq_sym Hrest) He ltac:(intros ? [])) as (Hf & Hs & Hr).
        cbn [List.length] in Hs, Hr. rewrite Hf, Hs. split; [reflexivity|].
        split; [reflexivity | lia].
      * cbn [Datatypes.app] in Hrest. injection Hrest as <- _.
        assert (Hfound : find found (feed p) = Some e).
        { rewrite Hp. clear - He Hbefore.
          induction before as [|b before IHb]; cbn [Datatypes.app find].
          - now rewrite He.
          - rewrite (Hbefore b (or_introl eq_refl)). apply IHb.
            intros e' H. apply Hbefore. now right. }
        rewrite Hfound.
        replace (List.length before <? List.length (feed p))%nat with true.
        { split; [reflexivity|]. split; [reflexivity | lia]. }
        symmetry. apply Nat.ltb_lt. rewrite Hp, length_app. cbn. lia.
    + assert (Hnone : find found (feed p) = None).
      { destruct (find found (feed p)) as [y|] eqn:Hy; [|reflexivity].
        apply find_some in Hy as [Hin Hy].
        rewrite (Hbefore y) in Hy; [discriminate|].
        rewrite Hb. apply in_or_app. now left. }
      rewrite Hnone, Hb, length_app.
      replace (List.length (feed p) + List.length l <? List.length (feed p))%nat
        with false by (symmetry; apply Nat.ltb_ge; lia).
      replace (List.length (feed p) + List.length l - List.length (feed p))%nat
        with (List.length l) by lia.
      destruct (IH l e after Hrest He) as (Hf & Hs & Hr).
      { intros e' H. apply Hbefore. rewrite Hb. apply in_or_app. now right. }
      rewrite Hf, Hs. split; [reflexivity|]. split; [reflexivity | lia].
Qed.

Lemma pages_scanned_no_match (found : FeedEntry -> bool) :
  forall pages : list FeedResponse,
    (forall e, In e (Mock.items pages) -> found e = false) ->
    find found (Mock.items pages) = None
    /\ Mock.pages_scanned found pages = List.length pages.
Proof.
  induction pages as [|p rest IH]; intros Hnone; [split; reflexivity|].
  change (Mock.items (p :: rest)) with (feed p ++ Mock.items rest)%list in *.
  cbn [Mock.pages_scanned List.length].
  rewrite find_app, existsb_find.
  assert (Hp : find found (feed p) = None).
  { destruct (find found (feed p)) as [y|] eqn:Hy; [|reflexivity].
    apply find_some in Hy as [Hin Hy].
    rewrite (Hnone y) in Hy; [discriminate|]. apply in_or_app. now left. }
  rewrite Hp. destruct IH as [Hf Hs].
  { intros e H. apply Hnone. apply in_or_app. now right. }
  now rewrite Hf, Hs.
Qed.

(** C5.  Take a feed served page by page (every page but the last carrying
    a cursor, the last one none) whose content identifiers are safe
    integers, and an identifier from which [parseInt] reads a safe integer
    or nothing.  An entry is the one asked for when its string identifier
    is the identifier, or its content identifier is the number that
    [parseInt] reads from the identifier, or the decimal form of its
    content identifier is the identifier.  Given enough fuel, [getArticle]
    returns the first such entry of the feed in page order, whatever comes
    after it (duplicates included), having read the pages up to the one
    that holds it and no page after it; when no entry of the feed is such,
    it returns [null] as a value, having read every page.  It never
    throws. *)
Theorem getArticle_returns_first_match
        (pages : list FeedResponse) (articleId : string) (w : World) (fuel : nat) :
  provider w = Mock.feed_provider default_timestamp pages ->
  Mock.linked pages = true ->
  Mock.closed pages = true ->
  (List.length pages <= fuel)%nat ->
  Mock.safe_feed pages = true ->
  Js.safe_identifier articleId = true ->
  let same := fun e : FeedEntry =>
                entry_id e = articleId
                \/ Js.parseInt articleId = Some (content_id (entry_content e))
                \/ Js.String_of_number (content_id (entry_content e)) = articleId in
  let sent := Mock.page_request default_timestamp (accessToken w) in
  (forall (before : list FeedEntry) (e : FeedEntry) (after : list FeedEntry),
      Mock.items pages = (before ++ e :: after)%list ->
      same e ->
      (forall e', In e' before -> ~ same e') ->
      exists w',
        getArticle fuel articleId w = (Returned (Some e), w')
        /\ fetched w'
           = (fetched w
                ++ map sent (seq 1 (Mock.page_of (List.length before) pages)))%list
        /\ (1 <= Mock.page_of (List.length before) pages <= List.length pages)%nat)
  /\ ((forall e, In e (Mock.items pages) -> ~ same e) ->
      exists w',
        getArticle fuel articleId w = (Returned None, w')
        /\ fetched w' = (fetched w ++ map sent (seq 1 (List.length pages)))%list).
Proof.
  intros Hp Hlinked Hclosed Hfuel _ _ same sent.
  destruct (getArticle_loop_served pages articleId (Js.parseInt articleId)
                                   pages 0 w fuel Hp eq_refl Hlinked Hclosed Hfuel)
    as (w' & Hrun & Hlog & _ & _).
  change (getArticle_loop fuel articleId (Js.parseInt articleId) (Z.of_nat 1) w)
    with (getArticle fuel articleId w) in Hrun.
  assert (Hfalse : forall e, ~ same e ->
                             entry_matches articleId (Js.parseInt articleId) e = false).
  { intros e Hne.
    destruct (entry_matches articleId (Js.parseInt articleId) e) eqn:E; [|reflexivity].
    apply entry_matches_spec in E. contradiction. }
  split.
  - intros before e after Hitems He Hbefore.
    destruct (pages_scanned_first_match
                (entry_matches articleId (Js.parseInt articleId))
                pages before e after Hitems)
      as (Hfind & Hscanned & Hrange).
    { now apply entry_matches_spec. }
    { intros e' He'. apply Hfalse. now apply Hbefore. }
    exists w'. rewrite Hrun, Hlog, Hfind, Hscanned. auto.
  - intros Hnone.
    destruct (pages_scanned_no_match
                (entry_matches articleId (Js.parseInt articleId)) pages)
      as (Hfind & Hscanned).
    { intros e He. apply Hfalse. now apply Hnone. }
    exists w'. rewrite Hrun, Hlog, Hfind, Hscanned. auto.
Qed.

Lemma getArticle_returns_first_match_witness :
  let pages := Mock.three_pages in
  let w := Mock.feed_client pages in
  provider w = Mock.feed_provider default_timestamp pages
  /\ Mock.linked pages = true
  /\ Mock.closed pages = true
  /\ (List.length pages <= 3)%nat
  /\ Mock.safe_feed pages = true
  /\ Js.safe_identifier "2" = true
  /\ Mock.items pages
     = ([Mock.entry "a" 1] ++ Mock.entry "b" 2
                           :: [Mock.entry "c" 2; Mock.entry "d" 4])%list
  /\ exists w',
      getArticle 3 "2" w = (Returned (Some (Mock.entry "b" 2)), w')
      /\ fetched w'
         = (fetched w ++ [Mock.page_request default_timestamp (accessToken w) 1])%list.
Proof.
  cbv zeta.
  split; [reflexivity|]. split; [reflexivity|]. split; [reflexivity|].
  split; [cbn; lia|]. split; [reflexivity|]. split; [reflexivity|].
  split; [reflexivity|].
  destruct (proj1 (getArticle_returns_first_match
                     Mock.three_pages "2" (Mock.feed_client Mock.three_pages) 3%nat
                     eq_refl eq_refl eq_refl (le_n 3) eq_refl eq_refl)
                  [Mock.entry "a" 1] (Mock.entry "b" 2)
                  [Mock.entry "c" 2; Mock.entry "d" 4] eq_refl
                  (or_intror (or_intror eq_refl)))
    as (w' & Hrun & Hlog & _).
  { intros e' [<-|[]] [H|[H|H]]; discriminate. }
  exists w'. split; [exact Hrun | exact Hlog].
Defined.

(** Two runs: of two entries with the content identifier 2 the one met first
    is returned and the third page is never read; an identifier that no
    entry carries gives [null] after all three pages, the empty one
    included. *)
Example getArticle_first_of_duplicates :
  let pages := Mock.three_pages in
  let w := Mock.feed_client pages in
  fst (getArticle 3 "2" w) = Returned (Some (Mock.entry "b" 2))
  /\ List.length (fetched (snd (getArticle 3 "2" w))) = 1%nat
  /\ fst (getArticle 3 "4" w) = Returned (Some (Mock.entry "d" 4))
  /\ fst (getArticle 3 "5" w) = Returned None
  /\ List.length (fetched (snd (getArticle 3 "5" w))) = 3%nat.
Proof. cbv zeta. repeat split; vm_compute; reflexivity. Qed.

(** ** Identifiers with a numeric prefix *)

Lemma is_digit_cases (c : ascii) :
  Js.is_digit c = true ->
  c = "0"%char \/ c = "1"%char \/ c = "2"%char \/ c = "3"%char \/ c = "4"%char
  \/ c = "5"%char \/ c = "6"%char \/ c = "7"%char \/ c = "8"%char \/ c = "9"%char.
Proof.
  destruct c as [[] [] [] [] [] [] [] []]; cbn; intros H; try discriminate; tauto.
Qed.

Lemma skip_white_space_digit (c : ascii) (s : string) :
  Js.is_digit c = true -> Js.skip_white_space (String c s) = String c s.
Proof.
  intros H.
  destruct (is_digit_cases c H) as [E|[E|[E|[E|[E|[E|[E|[E|[E|E]]]]]]]]];
    subst c; reflexivity.
Qed.

Lemma parse_digits_prefix (ds : string) (c : ascii) (r : string) :
  Js.all_digits ds = true ->
  Js.is_digit c = false ->
  forall acc, Js.parse_digits acc (ds ++ String c r) = Js.parse_digits acc ds.
Proof.
  intros Hds Hc. induction ds as [|d ds IH]; intros acc; cbn.
  - now rewrite Hc.
  - cbn in Hds. apply andb_true_iff in Hds as [Hd Hds]. rewrite Hd. now apply IH.
Qed.

(** [parseInt] reads a leading run of digits and ignores what follows. *)
Lemma parseInt_digit_prefix (ds : string) (c : ascii) (r : string) :
  ds <> EmptyString ->
  Js.all_digits ds = true ->
  Js.is_digit c = false ->
  Js.parseInt (ds ++ String c r) = Some (Js.parse_digits 0 ds).
Proof.
  intros Hne Hds Hc. destruct ds as [|d ds]; [congruence|].
  pose proof Hds as Hds'.
  cbn in Hds. apply andb_true_iff in Hds as [Hd _].
  unfold Js.parseInt. cbn [append].
  rewrite (skip_white_space_digit d _ Hd).
  assert (Hrun : Js.parse_digits 0 (String d (ds ++ String c r))
                 = Js.parse_digits 0 (String d ds))
    by exact (parse_digits_prefix (String d ds) c r Hds' Hc 0).
  destruct (is_digit_cases d Hd) as [E|[E|[E|[E|[E|[E|[E|[E|[E|E]]]]]]]]];
    subst d; cbv beta iota zeta;
    match goal with
    | |- context [Js.is_digit ?x] => change (Js.is_digit x) with true
    end;
    cbv iota; rewrite Hrun; f_equal; apply Z.mul_1_l.
Qed.

Lemma uint_of_string_all_digits (s : string) (u : uint) :
  NilEmpty.uint_of_string s = Some u -> Js.all_digits s = true.
Proof.
  revert u. induction s as [|c s IH]; intros u H; [reflexivity|].
  cbn in H. destruct (NilEmpty.uint_of_string s) as [v|] eqn:Hs; [|discriminate].
  cbn. rewrite (IH v eq_refl), andb_true_r.
  apply uint_of_char_spec in H.
  destruct H as [[-> _]|[[-> _]|[[-> _]|[[-> _]|[[-> _]|[[-> _]|[[-> _]|[[-> _]|[[-> _]|[-> _]]]]]]]]]];
    reflexivity.
Qed.

Lemma all_digits_app (a b : string) :
  Js.all_digits (a ++ b) = Js.all_digits a && Js.all_digits b.
Proof.
  induction a as [|c a IH]; cbn; [reflexivity|]. now rewrite IH, andb_assoc.
Qed.

(** The decimal form of a number is never a run of digits followed by
    something that is not a digit. *)
Lemma String_of_number_not_prefixed (n : Z) (ds : string) (c : ascii) (r : string) :
  ds <> EmptyString ->
  Js.all_digits ds = true ->
  Js.is_digit c = false ->
  Js.String_of_number n <> (ds ++ String c r)%string.
Proof.
  intros Hne Hds Hc E.
  assert (Hnn : Z.to_int n <> Pos Nil /\ Z.to_int n <> Neg Nil).
  { destruct n as [|q|q]; cbn; split; try discriminate;
      intros E'; injection E'; apply DecimalPos.Unsigned.to_uint_nonnil. }
  destruct Hnn as [H1 H2].
  pose proof (NilZero.isi _ H1 H2) as Hisi.
  unfold Js.String_of_number in E. rewrite E in Hisi.
  destruct ds as [|d ds]; [congruence|].
  cbn in Hds. apply andb_true_iff in Hds as [Hd Hds].
  assert (Hall : Js.all_digits (String d ds ++ String c r) = true).
  { cbn [append] in Hisi. unfold NilZero.int_of_string in Hisi.
    assert (Hminus : (d =? "-")%char = false).
    { destruct (is_digit_cases d Hd) as [X|[X|[X|[X|[X|[X|[X|[X|[X|X]]]]]]]]];
        subst d; reflexivity. }
    rewrite Hminus in Hisi. unfold NilZero.uint_of_string in Hisi.
    destruct (NilEmpty.uint_of_string (String d (ds ++ String c r))) as [u|] eqn:Hu;
      [|discriminate].
    exact (uint_of_string_all_digits _ _ Hu). }
  rewrite all_digits_app in Hall. cbn in Hall. rewrite Hc in Hall.
  cbn in Hall. rewrite !andb_false_r in Hall. discriminate.
Qed.

Lemma find_ext_in {A} (f g : A -> bool) (l : list A) :
  (forall x, In x l -> f x = g x) -> find f l = find g l.
Proof.
  induction l as [|x l IH]; intros H; cbn; [reflexivity|].
  rewrite (H x (or_introl eq_refl)). destruct (g x); [reflexivity|].
  apply IH. intros y Hy. apply H. now right.
Qed.

(** C10, as stated, fails for an identifier that is also the string
    identifier of an entry: the comparison of string identifiers comes
    first, so the entry named ["123abc"] is returned although its content
    identifier is 7, while the entry whose content identifier is 123, the
    number that [parseInt] reads, stands later in the feed. *)
Lemma getArticle_prefers_string_identifier :
  let pages := Mock.prefix_named_pages in
  let w := Mock.feed_client pages in
  Js.parseInt "123abc" = Some 123
  /\ In (Mock.entry "x" 123) (Mock.items pages)
  /\ fst (getArticle 1 "123abc" w) = Returned (Some (Mock.entry "123abc" 7))
  /\ entry_id (Mock.entry "123abc" 7) = "123abc"
  /\ content_id (entry_content (Mock.entry "123abc" 7)) <> 123
  /\ fst (getArticle 1 "123abc" w) <> Returned (Some (Mock.entry "x" 123)).
Proof.
  cbv zeta. split; [reflexivity|]. split; [cbn; tauto|].
  split; [vm_compute; reflexivity|]. split; [reflexivity|].
  split; [discriminate|]. vm_compute. discriminate.
Qed.

(** C10, amended.  Take an identifier made of digits, which denote a safe
    integer, followed by a character that is not a digit: [parseInt] yields
    the value of the digits.  In front of a served feed whose content
    identifiers are safe integers and none of whose entries has the
    requested string as its string identifier, [getArticle] returns the
    first entry whose numeric content identifier equals that value,
    although neither the string identifier nor the decimal form of the
    content identifier of any entry equals the requested string. *)
Theorem getArticle_matches_numeric_prefix
        (pages : list FeedResponse) (ds : string) (c : ascii) (r : string)
        (w : World) (fuel : nat) (e : FeedEntry) :
  let articleId := (ds ++ String c r)%string in
  let value := Js.parse_digits 0 ds in
  ds <> EmptyString ->
  Js.all_digits ds = true ->
  Js.is_digit c = false ->
  Js.is_safe_integer value = true ->
  provider w = Mock.feed_provider default_timestamp pages ->
  Mock.linked pages = true ->
  Mock.closed pages = true ->
  (List.length pages <= fuel)%nat ->
  Mock.safe_feed pages = true ->
  (forall e', In e' (Mock.items pages) -> entry_id e' <> articleId) ->
  find (fun e' => content_id (entry_content e') =? value) (Mock.items pages) = Some e ->
  Js.parseInt articleId = Some value
  /\ fst (getArticle fuel articleId w) = Returned (Some e)
  /\ content_id (entry_content e) = value
  /\ forall e', In e' (Mock.items pages) ->
               entry_id e' <> articleId
               /\ Js.String_of_number (content_id (entry_content e')) <> articleId.
Proof.
  intros articleId value Hne Hds Hc _ Hp Hlinked Hclosed Hfuel _ Hids Hfind.
  pose proof (parseInt_digit_prefix ds c r Hne Hds Hc) as Hparse.
  fold articleId in Hparse. fold value in Hparse.
  split; [exact Hparse|].
  assert (Hstr : forall e', Js.String_of_number (content_id (entry_content e')) <> articleId).
  { intros e'. apply String_of_number_not_prefixed; assumption. }
  destruct (getArticle_loop_served pages articleId (Js.parseInt articleId)
                                   pages 0 w fuel Hp eq_refl Hlinked Hclosed Hfuel)
    as (w' & Hrun & _).
  split.
  - change (getArticle fuel articleId w)
      with (getArticle_loop fuel articleId (Js.parseInt articleId) (Z.of_nat 1) w).
    rewrite Hrun. cbn [fst]. f_equal.
    rewrite Hparse, <- Hfind. apply find_ext_in.
    intros x Hx. unfold entry_matches.
    destruct (String.eqb_spec (entry_id x) articleId) as [E|_];
      [exfalso; exact (Hids x Hx E)|].
    destruct (String.eqb_spec (Js.String_of_number (content_id (entry_content x)))
                              articleId) as [E|_];
      [exfalso; exact (Hstr x E)|].
    cbn. now rewrite orb_false_r.
  - split.
    + apply find_some in Hfind. destruct Hfind as [_ H]. now apply Z.eqb_eq in H.
    + intros e' He'. split; [now apply Hids | apply Hstr].
Qed.

Lemma getArticle_matches_numeric_prefix_witness :
  let pages := Mock.two_pages in
  let w := Mock.feed_client pages in
  "123" <> EmptyString
  /\ Js.all_digits "123" = true
  /\ Js.is_digit "a" = false
  /\ Js.is_safe_integer (Js.parse_digits 0 "123") = true
  /\ provider w = Mock.feed_provider default_timestamp pages
  /\ Mock.linked pages = true
  /\ Mock.closed pages = true
  /\ (List.length pages <= 2)%nat
  /\ Mock.safe_feed pages = true
  /\ (forall e', In e' (Mock.items pages) -> entry_id e' <> "123abc")
  /\ find (fun e' => content_id (entry_content e') =? Js.parse_digits 0 "123")
          (Mock.items pages) = Some (Mock.entry "b" 123)
  /\ (Js.parseInt "123abc" = Some (Js.parse_digits 0 "123")
      /\ fst (getArticle 2 "123abc" w) = Returned (Some (Mock.entry "b" 123))
      /\ content_id (entry_content (Mock.entry "b" 123)) = Js.parse_digits 0 "123"
      /\ forall e', In e' (Mock.items pages) ->
                   entry_id e' <> "123abc"
                   /\ Js.String_of_number (content_id (entry_content e')) <> "123abc").
Proof.
  cbv zeta.
  assert (Hids : forall e' : FeedEntry,
             In e' (Mock.items Mock.two_pages) ->
             entry_id e' <> "123abc").
  { intros e' [<-|[<-|[<-|[]]]]; discriminate. }
  split; [discriminate|]. split; [reflexivity|]. split; [reflexivity|].
  split; [reflexivity|].
  split; [reflexivity|]. split; [reflexivity|]. split; [reflexivity|].
  split; [cbn; lia|]. split; [reflexivity|]. split; [exact Hids|].
  split; [reflexivity|].
  exact (getArticle_matches_numeric_prefix
           Mock.two_pages "123" "a"%char "bc" (Mock.feed_client Mock.two_pages)
           2%nat (Mock.entry "b" 123)
           ltac:(discriminate) eq_refl eq_refl eq_refl eq_refl eq_refl eq_refl (le_n 2)
           eq_refl Hids eq_refl).
Defined.

(** ** One iteration of each loop *)

Lemma getArticle_loop_step (fuel : nat) (articleId : string) (numericId : option Z)
      (page : Z) (w w1 : World) (p : FeedResponse) :
  request (feed_endpoint default_timestamp page) no_init w = (Returned (JFeed p), w1) ->
  getArticle_loop (S fuel) articleId numericId page w
  = match find (entry_matches articleId numericId) (feed p) with
    | Some article => (Returned (Some article), w1)
    | None =>
      match next p with
      | Some _ => getArticle_loop fuel articleId numericId (page + 1) w1
      | None => (Returned None, w1)
      end
    end.
Proof.
  intros Hreq. cbn [getArticle_loop]. unfold bind at 1. rewrite Hreq.
  unfold bind at 1. cbn [as_feed ret].
  destruct (find _ (feed p)); [reflexivity|]. now destruct (next p).
Qed.

Lemma getArticles_loop_step (fuel : nat) (ts : string) (limit : Z)
      (acc : list FeedEntry) (page : Z) (qc ac : option Z)
      (w w1 : World) (p : FeedResponse) :
  request (feed_endpoint ts page) no_init w = (Returned (JFeed p), w1) ->
  Z.of_nat (List.length acc) < limit ->
  let acc1 := (acc ++ feed p)%list in
  let qc1 := if page =? 1 then queue_count p else qc in
  let ac1 := if page =? 1 then archive_count p else ac in
  getArticles_loop (S fuel) ts limit acc page true qc ac w
  = if Z.of_nat (List.length acc1) >=? limit then
      (Returned {| articles := Js.slice0 acc1 limit; nextUrl := next p;
                   queueCount := qc1; archiveCount := ac1 |}, w1)
    else
      getArticles_loop fuel ts limit acc1 (page + 1) (Mock.has_next p) qc1 ac1 w1.
Proof.
  intros Hreq Hlt acc1 qc1 ac1. cbn [getArticles_loop].
  apply Z.ltb_lt in Hlt. rewrite Hlt. cbn [andb].
  unfold bind at 1. rewrite Hreq. unfold bind at 1. cbn [as_feed ret].
  fold acc1. fold qc1. fold ac1.
  destruct (Z.of_nat (List.length acc1) >=? limit); reflexivity.
Qed.

Lemma getArticles_loop_exhausted (fuel : nat) (ts : string) (limit : Z)
      (acc : list FeedEntry) (page : Z) (qc ac : option Z) (w : World) :
  getArticles_loop fuel ts limit acc page false qc ac w
  = (Returned {| articles := acc; nextUrl := None;
                 queueCount := qc; archiveCount := ac |}, w).
Proof. destruct fuel; reflexivity. Qed.

(** C6.  Whatever the state of either loop, a page with no items and a
    present cursor makes it go on to the next page with its state
    unchanged; more generally a page with a present cursor ends the
    traversal only through the loop's own goal (a match in [getArticle],
    [limit] items in [getArticles]), and a page with an absent cursor ends
    it. *)
Theorem empty_page_does_not_end_traversal
        (fuel : nat) (articleId : string) (numericId : option Z)
        (limit : Z) (acc : list FeedEntry) (qc ac : option Z)
        (page : Z) (w w1 : World) (p : FeedResponse) :
  request (feed_endpoint default_timestamp page) no_init w = (Returned (JFeed p), w1) ->
  Z.of_nat (List.length acc) < limit ->
  let qc1 := if page =? 1 then queue_count p else qc in
  let ac1 := if page =? 1 then archive_count p else ac in
  (* an empty page with a cursor *)
  (feed p = [] -> next p <> None ->
   getArticle_loop (S fuel) articleId numericId page w
   = getArticle_loop fuel articleId numericId (page + 1) w1
   /\ getArticles_loop (S fuel) default_timestamp limit acc page true qc ac w
      = getArticles_loop fuel default_timestamp limit acc (page + 1) true qc1 ac1 w1)
  (* the cursor alone decides when the goal of the loop is not reached *)
  /\ (find (entry_matches articleId numericId) (feed p) = None ->
      getArticle_loop (S fuel) articleId numericId page w
      = match next p with
        | Some _ => getArticle_loop fuel articleId numericId (page + 1) w1
        | None => (Returned None, w1)
        end)
  /\ (Z.of_nat (List.length (acc ++ feed p)) < limit ->
      getArticles_loop (S fuel) default_timestamp limit acc page true qc ac w
      = match next p with
        | Some _ =>
          getArticles_loop fuel default_timestamp limit (acc ++ feed p) (page + 1)
                           true qc1 ac1 w1
        | None =>
          (Returned {| articles := (acc ++ feed p)%list; nextUrl := None;
                       queueCount := qc1; archiveCount := ac1 |}, w1)
        end).
Proof.
  intros Hreq Hlt qc1 ac1.
  pose proof (getArticle_loop_step fuel articleId numericId page w w1 p Hreq) as Hone.
  pose proof (getArticles_loop_step fuel default_timestamp limit acc page qc ac
                                    w w1 p Hreq Hlt) as Hall.
  cbv zeta in Hall. fold qc1 in Hall. fold ac1 in Hall.
  assert (Hsecond : find (entry_matches articleId numericId) (feed p) = None ->
                    getArticle_loop (S fuel) articleId numericId page w
                    = match next p with
                      | Some _ => getArticle_loop fuel articleId numericId (page + 1) w1
                      | None => (Returned None, w1)
                      end).
  { intros Hfind. now rewrite Hone, Hfind. }
  assert (Hthird : Z.of_nat (List.length (acc ++ feed p)) < limit ->
      getArticles_loop (S fuel) default_timestamp limit acc page true qc ac w
      = match next p with
        | Some _ =>
          getArticles_loop fuel default_timestamp limit (acc ++ feed p) (page + 1)
                           true qc1 ac1 w1
        | None =>
          (Returned {| articles := (acc ++ feed p)%list; nextUrl := None;
                       queueCount := qc1; archiveCount := ac1 |}, w1)
        end).
  { intros Hlt1. rewrite Hall.
    assert (Hge : (Z.of_nat (List.length (acc ++ feed p)) >=? limit) = false)
      by (rewrite Z.geb_leb; apply Z.leb_gt; exact Hlt1).
    rewrite Hge. unfold Mock.has_next.
    destruct (next p); [reflexivity|]. apply getArticles_loop_exhausted. }
  split; [|split; assumption].
  intros Hempty Hnext. split.
  - rewrite Hsecond by (now rewrite Hempty).
    destruct (next p); [reflexivity|congruence].
  - rewrite Hthird by (now rewrite Hempty, app_nil_r).
    rewrite Hempty, app_nil_r. destruct (next p); [reflexivity|congruence].
Qed.

Lemma empty_page_does_not_end_traversal_witness :
  let w := Mock.feed_client Mock.three_pages in
  let p := Mock.page [] (Some "c2") in
  let w1 := record_fetch (Mock.page_request default_timestamp (accessToken w) 2) w in
  request (feed_endpoint default_timestamp 2) no_init w = (Returned (JFeed p), w1)
  /\ Z.of_nat (List.length (@nil FeedEntry)) < 5
  /\ ((feed p = [] -> next p <> None ->
       getArticle_loop 2 "4" (Some 4) 2 w = getArticle_loop 1 "4" (Some 4) (2 + 1) w1
       /\ getArticles_loop 2 default_timestamp 5 [] 2 true None None w
          = getArticles_loop 1 default_timestamp 5 [] (2 + 1) true
                             (if 2 =? 1 then queue_count p else None)
                             (if 2 =? 1 then archive_count p else None) w1)
      /\ (find (entry_matches "4" (Some 4)) (feed p) = None ->
          getArticle_loop 2 "4" (Some 4) 2 w
          = match next p with
            | Some _ => getArticle_loop 1 "4" (Some 4) (2 + 1) w1
            | None => (Returned None, w1)
            end)
      /\ (Z.of_nat (List.length ([] ++ feed p)) < 5 ->
          getArticles_loop 2 default_timestamp 5 [] 2 true None None w
          = match next p with
            | Some _ =>
              getArticles_loop 1 default_timestamp 5 ([] ++ feed p) (2 + 1) true
                               (if 2 =? 1 then queue_count p else None)
                               (if 2 =? 1 then archive_count p else None) w1
            | None =>
              (Returned {| articles := ([] ++ feed p)%list; nextUrl := None;
                           queueCount := if 2 =? 1 then queue_count p else None;
                           archiveCount := if 2 =? 1 then archive_count p else None |},
               w1)
            end)).
Proof.
  cbv zeta.
  split; [reflexivity|]. split; [reflexivity|].
  exact (empty_page_does_not_end_traversal
           1 "4" (Some 4) 5 [] None None 2
           (Mock.feed_client Mock.three_pages)
           (record_fetch (Mock.page_request default_timestamp
                                            (accessToken (Mock.feed_client Mock.three_pages))
                                            2)
                         (Mock.feed_client Mock.three_pages))
           (Mock.page [] (Some "c2")) eq_refl eq_refl).
Defined.

(** ** The feed paginator *)

Lemma items_cons (p : FeedResponse) (rest : list FeedResponse) :
  Mock.items (p :: rest) = (feed p ++ Mock.items rest)%list.
Proof. reflexivity. Qed.

Lemma slice0_positive {A} (l : list A) (n : Z) :
  0 < n -> Js.slice0 l n = firstn (Z.to_nat n) l.
Proof.
  intros H. unfold Js.slice0.
  destruct (n <? 0) eqn:E; [apply Z.ltb_lt in E; lia | reflexivity].
Qed.

Lemma firstn_app_short {A} (n : nat) (l1 l2 : list A) :
  (n <= List.length l1)%nat -> firstn n (l1 ++ l2) = firstn n l1.
Proof.
  intros H. rewrite firstn_app.
  replace (n - List.length l1)%nat with 0%nat by lia.
  cbn. apply app_nil_r.
Qed.

(** The loop of [getArticles] when the remaining pages do not reach the
    limit: every page is read and every item returned. *)
Lemma getArticles_loop_all (pages : list FeedResponse) (limit : Z) :
  forall (rest : list FeedResponse) (k : nat) (w : World) (fuel : nat)
         (acc : list FeedEntry) (qc ac : option Z),
    provider w = Mock.feed_provider default_timestamp pages ->
    skipn k pages = rest ->
    Mock.linked rest = true ->
    Mock.closed rest = true ->
    (List.length rest <= fuel)%nat ->
    Z.of_nat (List.length (acc ++ Mock.items rest)) < limit ->
    exists res w',
      getArticles_loop fuel default_timestamp limit acc (Z.of_nat (S k)) true qc ac w
      = (Returned res, w')
      /\ articles res = (acc ++ Mock.items rest)%list
      /\ nextUrl res = None
      /\ fetched w'
         = (fetched w ++ map (Mock.page_request default_timestamp (accessToken w))
                             (seq (S k) (List.length rest)))%list.
Proof.
  induction rest as [|p rest IH];
    intros k w fuel acc qc ac Hp Hskip Hlinked Hclosed Hfuel Htotal.
  - discriminate.
  - destruct fuel as [|fuel]; [cbn in Hfuel; lia|].
    destruct (nth_error_skipn_head _ _ _ _ Hskip) as [Hk Hskip'].
    rewrite items_cons, app_assoc in Htotal.
    assert (Hacc1 : Z.of_nat (List.length (acc ++ feed p)) < limit).
    { rewrite length_app in Htotal. lia. }
    assert (Hacc : Z.of_nat (List.length acc) < limit).
    { rewrite length_app in Hacc1. lia. }
    rewrite (getArticles_loop_step fuel _ limit acc _ qc ac w _ p
                                   (request_served _ pages w k p Hp Hk) Hacc).
    assert (Hge : (Z.of_nat (List.length (acc ++ feed p)) >=? limit) = false)
      by (rewrite Z.geb_leb; apply Z.leb_gt; exact Hacc1).
    rewrite Hge.
    destruct rest as [|q rest].
    + cbn [Mock.closed] in Hclosed. apply negb_true_iff in Hclosed.
      rewrite Hclosed, getArticles_loop_exhausted.
      eexists _, _. split; [reflexivity|]. cbn [articles nextUrl].
      split; [now rewrite items_cons, app_nil_r|]. split; reflexivity.
    + destruct (linked_tail _ _ _ Hlinked) as [Hnext Hlinked'].
      rewrite Hnext.
      replace (Z.of_nat (S k) + 1) with (Z.of_nat (S (S k))) by lia.
      edestruct (IH (S k) (record_fetch (Mock.page_request default_timestamp
                                                           (accessToken w) (S k)) w)
                    fuel (acc ++ feed p)%list) as (res & w' & Hrun & Hart & Hnone & Hlog);
        [exact Hp | exact Hskip' | exact Hlinked' | exact Hclosed
         | cbn in Hfuel |- *; lia | exact Htotal | ].
      exists res, w'. split; [exact Hrun|].
      split; [now rewrite Hart, (items_cons p), app_assoc|]. split; [exact Hnone|].
      rewrite Hlog. cbn [record_fetch fetched accessToken].
      rewrite <- app_assoc. reflexivity.
Qed.

Lemma pages_needed_positive (limit : Z) (have : nat) (p : FeedResponse)
      (rest : list FeedResponse) :
  (1 <= Mock.pages_needed limit have (p :: rest))%nat.
Proof. cbn. destruct (limit <=? _); lia. Qed.

(** [pages_needed] is the least number of pages that holds [limit] items. *)
Lemma pages_needed_minimal (limit : Z) :
  forall (rest : list FeedResponse) (have : nat),
    Z.of_nat have < limit ->
    limit <= Z.of_nat (have + List.length (Mock.items rest)) ->
    let n := Mock.pages_needed limit have rest in
    (1 <= n <= List.length rest)%nat
    /\ Z.of_nat (have + List.length (Mock.items (firstn (n - 1) rest))) < limit
    /\ limit <= Z.of_nat (have + List.length (Mock.items (firstn n rest))).
Proof.
  induction rest as [|p rest IH]; intros have Hlt Hle.
  - cbn in Hle. lia.
  - cbn [Mock.pages_needed]. rewrite items_cons, length_app in Hle.
    destruct (limit <=? Z.of_nat (have + List.length (feed p))) eqn:E.
    + apply Z.leb_le in E. cbn [Nat.sub firstn].
      rewrite items_cons, length_app. cbn. split; [lia|]. split; lia.
    + apply Z.leb_gt in E.
      destruct (IH (have + List.length (feed p))%nat E) as (Hn & Hbelow & Habove);
        [lia|].
      set (n := Mock.pages_needed limit (have + List.length (feed p)) rest) in *.
      destruct n as [|m]; [lia|].
      cbn [Nat.sub] in Hbelow |- *. rewrite Nat.sub_0_r in Hbelow.
      change (firstn (S m) (p :: rest)) with (p :: firstn m rest).
      change (firstn (S (S m)) (p :: rest)) with (p :: firstn (S m) rest).
      rewrite !items_cons, !length_app. cbn [List.length]. split; [lia|]. split; lia.
Qed.

(** The loop of [getArticles] when the remaining pages reach the limit: it
    stops at the first page that completes [limit] items. *)
Lemma getArticles_loop_limit (pages : list FeedResponse) (limit : Z) :
  forall (rest : list FeedResponse) (k : nat) (w : World) (fuel : nat)
         (acc : list FeedEntry) (qc ac : option Z),
    provider w = Mock.feed_provider default_timestamp pages ->
    skipn k pages = rest ->
    Mock.linked rest = true ->
    (List.length rest <= fuel)%nat ->
    Z.of_nat (List.length acc) < limit ->
    limit <= Z.of_nat (List.length (acc ++ Mock.items rest)) ->
    let n := Mock.pages_needed limit (List.length acc) rest in
    exists res w' p,
      getArticles_loop fuel default_timestamp limit acc (Z.of_nat (S k)) true qc ac w
      = (Returned res, w')
      /\ articles res = firstn (Z.to_nat limit) (acc ++ Mock.items rest)
      /\ nth_error rest (n - 1) = Some p
      /\ nextUrl res = next p
      /\ fetched w'
         = (fetched w ++ map (Mock.page_request default_timestamp (accessToken w))
                             (seq (S k) n))%list.
Proof.
  induction rest as [|p rest IH];
    intros k w fuel acc qc ac Hp Hskip Hlinked Hfuel Hacc Htotal n.
  - cbn in Htotal. rewrite app_nil_r in Htotal. lia.
  - destruct fuel as [|fuel]; [cbn in Hfuel; lia|].
    destruct (nth_error_skipn_head _ _ _ _ Hskip) as [Hk Hskip'].
    rewrite (getArticles_loop_step fuel _ limit acc _ qc ac w _ p
                                   (request_served _ pages w k p Hp Hk) Hacc).
    subst n. cbn [Mock.pages_needed]. rewrite <- length_app.
    rewrite Z.geb_leb.
    destruct (limit <=? Z.of_nat (List.length (acc ++ feed p))) eqn:E.
    + apply Z.leb_le in E.
      eexists _, _, p. split; [reflexivity|]. cbn [articles nextUrl].
      split.
      { rewrite slice0_positive by lia.
        rewrite items_cons, app_assoc. symmetry. apply firstn_app_short. lia. }
      split; [reflexivity|]. split; reflexivity.
    + apply Z.leb_gt in E.
      rewrite items_cons, app_assoc in Htotal.
      destruct rest as [|q rest].
      { cbn in Htotal. rewrite app_nil_r in Htotal. lia. }
      destruct (linked_tail _ _ _ Hlinked) as [Hnext Hlinked'].
      rewrite Hnext.
      replace (Z.of_nat (S k) + 1) with (Z.of_nat (S (S k))) by lia.
      edestruct (IH (S k) (record_fetch (Mock.page_request default_timestamp
                                                           (accessToken w) (S k)) w)
                    fuel (acc ++ feed p)%list)
        as (res & w' & p' & Hrun & Hart & Hnth & Hurl & Hlog);
        [exact Hp | exact Hskip' | exact Hlinked' | cbn in Hfuel |- *; lia
         | exact E | exact Htotal | ].
      exists res, w', p'. split; [exact Hrun|].
      split; [now rewrite Hart, (items_cons p), app_assoc|].
      pose proof (pages_needed_positive limit (List.length (acc ++ feed p)) q rest) as Hpos.
      set (m := Mock.pages_needed limit (List.length (acc ++ feed p)) (q :: rest)) in *.
      split.
      { destruct m as [|m']; [lia|]. cbn [Nat.sub] in Hnth |- *.
        rewrite Nat.sub_0_r in Hnth. exact Hnth. }
      split; [exact Hurl|].
      rewrite Hlog. cbn [record_fetch fetched accessToken].
      rewrite <- app_assoc. reflexivity.
Qed.

(** C2, as stated, fails when the limit equals the number of items and the
    items end before the pages do: the loop returns as soon as it holds
    [limit] items, so the cursor it exposes is the present cursor of the
    page it stopped at, not the absent cursor of the last page. *)
Lemma getArticles_limit_equal_to_total_keeps_cursor :
  let pages := Mock.trailing_empty_page in
  let w := Mock.feed_client pages in
  Mock.linked pages = true
  /\ Mock.closed pages = true
  /\ Z.of_nat (List.length (Mock.items pages)) = 2
  /\ fst (getArticles 2 (Mock.limit_only 2) w)
     = Returned {| articles := Mock.items pages; nextUrl := Some "c1";
                   queueCount := None; archiveCount := None |}
  /\ List.length (fetched (snd (getArticles 2 (Mock.limit_only 2) w))) = 1%nat.
Proof. cbv zeta. repeat split; vm_compute; reflexivity. Qed.

(** C2, amended.  In front of a served feed in which every page but the
    last carries a cursor, and for a positive limit: when the limit exceeds
    the number of items and the last page has no cursor, [getArticles]
    reads every page and returns all the items in page order with an absent
    cursor; when the limit does not exceed the number of items, it returns
    exactly the first [limit] items in page order together with the cursor
    of the last page it read, and it reads the least number of pages that
    holds [limit] items. *)
Theorem getArticles_collects_up_to_limit
        (pages : list FeedResponse) (limit : Z) (w : World) (fuel : nat) :
  provider w = Mock.feed_provider default_timestamp pages ->
  Mock.linked pages = true ->
  0 < limit ->
  (List.length pages <= fuel)%nat ->
  let all := Mock.items pages in
  let sent := Mock.page_request default_timestamp (accessToken w) in
  (Z.of_nat (List.length all) < limit ->
   Mock.closed pages = true ->
   exists res w',
     getArticles fuel (Mock.limit_only limit) w = (Returned res, w')
     /\ articles res = all
     /\ nextUrl res = None
     /\ fetched w' = (fetched w ++ map sent (seq 1 (List.length pages)))%list)
  /\ (limit <= Z.of_nat (List.length all) ->
      exists res w' n p,
        getArticles fuel (Mock.limit_only limit) w = (Returned res, w')
        /\ articles res = firstn (Z.to_nat limit) all
        /\ Z.of_nat (List.length (articles res)) = limit
        /\ nth_error pages n = Some p
        /\ nextUrl res = next p
        /\ fetched w' = (fetched w ++ map sent (seq 1 (S n)))%list
        /\ Z.of_nat (List.length (Mock.items (firstn n pages))) < limit
        /\ limit <= Z.of_nat (List.length (Mock.items (firstn (S n) pages)))).
Proof.
  intros Hp Hlinked Hpos Hfuel all sent.
  assert (Hstart : getArticles fuel (Mock.limit_only limit) w
                   = getArticles_loop fuel default_timestamp limit [] (Z.of_nat 1)
                                      true None None w).
  { unfold getArticles, Mock.limit_only. cbn [opt_limit opt_page opt_afterTimestamp].
    unfold Js.number_or, Js.string_or.
    destruct (limit =? 0) eqn:E; [apply Z.eqb_eq in E; lia | reflexivity]. }
  split.
  - intros Hbelow Hclosed.
    destruct (getArticles_loop_all pages limit pages 0 w fuel [] None None
                                   Hp eq_refl Hlinked Hclosed Hfuel Hbelow)
      as (res & w' & Hrun & Hart & Hnone & Hlog).
    exists res, w'. rewrite Hstart. auto.
  - intros Habove.
    destruct (getArticles_loop_limit pages limit pages 0 w fuel [] None None
                                     Hp eq_refl Hlinked Hfuel Hpos Habove)
      as (res & w' & p & Hrun & Hart & Hnth & Hurl & Hlog).
    destruct (pages_needed_minimal limit pages 0 Hpos Habove) as (Hn & Hlow & Hhigh).
    cbn [List.length] in Hnth, Hlog.
    set (m := Mock.pages_needed limit 0 pages) in *.
    destruct m as [|n]; [lia|].
    cbn [Nat.sub] in Hnth, Hlow. rewrite Nat.sub_0_r in Hnth, Hlow.
    exists res, w', n, p. rewrite Hstart.
    split; [exact Hrun|]. split; [exact Hart|].
    split.
    { rewrite Hart, length_firstn. unfold all in *.
      change ([] ++ Mock.items pages)%list with (Mock.items pages) in *. lia. }
    split; [exact Hnth|]. split; [exact Hurl|]. split; [exact Hlog|].
    split; [exact Hlow | exact Hhigh].
Qed.

Lemma getArticles_collects_up_to_limit_witness :
  let pages := Mock.three_pages in
  let w := Mock.feed_client pages in
  let limit := 3 in
  let all := Mock.items pages in
  let sent := Mock.page_request default_timestamp (accessToken w) in
  provider w = Mock.feed_provider default_timestamp pages
  /\ Mock.linked pages = true
  /\ 0 < limit
  /\ (List.length pages <= 3)%nat
  /\ ((Z.of_nat (List.length all) < limit ->
       Mock.closed pages = true ->
       exists res w',
         getArticles 3 (Mock.limit_only limit) w = (Returned res, w')
         /\ articles res = all
         /\ nextUrl res = None
         /\ fetched w' = (fetched w ++ map sent (seq 1 (List.length pages)))%list)
      /\ (limit <= Z.of_nat (List.length all) ->
          exists res w' n p,
            getArticles 3 (Mock.limit_only limit) w = (Returned res, w')
            /\ articles res = firstn (Z.to_nat limit) all
            /\ Z.of_nat (List.length (articles res)) = limit
            /\ nth_error pages n = Some p
            /\ nextUrl res = next p
            /\ fetched w' = (fetched w ++ map sent (seq 1 (S n)))%list
            /\ Z.of_nat (List.length (Mock.items (firstn n pages))) < limit
            /\ limit <= Z.of_nat (List.length (Mock.items (firstn (S n) pages))))).
Proof.
  cbv zeta.
  split; [reflexivity|]. split; [reflexivity|]. split; [reflexivity|].
  split; [cbn; lia|].
  exact (getArticles_collects_up_to_limit
           Mock.three_pages 3 (Mock.feed_client Mock.three_pages) 3%nat
           eq_refl eq_refl eq_refl (le_n 3)).
Defined.

(** The paginator on the three pages: a limit above the four items returns
    them all, through the empty page, with no cursor; a limit of three is
    completed on the third page; a limit of two is completed on the first
    page, whose cursor is exposed, and nothing else is read. *)
Example getArticles_runs :
  let w := Mock.feed_client Mock.three_pages in
  fst (getArticles 3 (Mock.limit_only 10) w)
  = Returned {| articles := Mock.items Mock.three_pages; nextUrl := None;
                queueCount := None; archiveCount := None |}
  /\ List.length (fetched (snd (getArticles 3 (Mock.limit_only 10) w))) = 3%nat
  /\ fst (getArticles 3 (Mock.limit_only 3) w)
     = Returned {| articles := [Mock.entry "a" 1; Mock.entry "b" 2; Mock.entry "c" 2];
                   nextUrl := None; queueCount := None; archiveCount := None |}
  /\ fst (getArticles 3 (Mock.limit_only 2) w)
     = Returned {| articles := [Mock.entry "a" 1; Mock.entry "b" 2];
                   nextUrl := Some "c1"; queueCount := None; archiveCount := None |}
  /\ List.length (fetched (snd (getArticles 3 (Mock.limit_only 2) w))) = 1%nat.
Proof. cbv zeta. repeat split; vm_compute; reflexivity. Qed.

(** ** A provider that repeats its cursor *)

Lemma request_endless (p : FeedResponse) (w : World) (page : Z) :
  provider w = Mock.endless_provider p ->
  request (feed_endpoint default_timestamp page) no_init w
  = (Returned (JFeed p),
     record_fetch (mk_request (request_url (feed_endpoint default_timestamp page))
                              no_init (bearer_headers (accessToken w))) w).
Proof.
  intros Hp. unfold request, bind at 1, get_accessToken.
  unfold bind at 1, fetch at 1. rewrite Hp. reflexivity.
Qed.

Lemma getArticle_loop_endless (p : FeedResponse) (articleId : string)
      (numericId : option Z) :
  next p <> None ->
  find (entry_matches articleId numericId) (feed p) = None ->
  forall (fuel k : nat) (w : World),
    provider w = Mock.endless_provider p ->
    exists w',
      getArticle_loop fuel articleId numericId (Z.of_nat (S k)) w = (OutOfFuel, w')
      /\ fetched w'
         = (fetched w ++ map (Mock.page_request default_timestamp (accessToken w))
                             (seq (S k) fuel))%list.
Proof.
  intros Hnext Hfind. induction fuel as [|fuel IH]; intros k w Hp.
  - exists w. split; [reflexivity|]. cbn. now rewrite app_nil_r.
  - rewrite (getArticle_loop_step fuel articleId numericId _ w _ p
                                  (request_endless p w _ Hp)), Hfind.
    destruct (next p) as [c|]; [|congruence].
    replace (Z.of_nat (S k) + 1) with (Z.of_nat (S (S k))) by lia.
    destruct (IH (S k) (record_fetch
                          (mk_request (request_url (feed_endpoint default_timestamp
                                                                  (Z.of_nat (S k))))
                                      no_init (bearer_headers (accessToken w))) w) Hp)
      as (w' & Hrun & Hlog).
    exists w'. split; [exact Hrun|]. rewrite Hlog.
    cbn [record_fetch fetched accessToken seq map]. rewrite <- app_assoc. reflexivity.
Qed.

Lemma getArticles_loop_endless (p : FeedResponse) (limit : Z) :
  next p <> None ->
  feed p = [] ->
  0 < limit ->
  forall (fuel k : nat) (w : World) (qc ac : option Z),
    provider w = Mock.endless_provider p ->
    exists w',
      getArticles_loop fuel default_timestamp limit [] (Z.of_nat (S k)) true qc ac w
      = (OutOfFuel, w')
      /\ fetched w'
         = (fetched w ++ map (Mock.page_request default_timestamp (accessToken w))
                             (seq (S k) fuel))%list.
Proof.
  intros Hnext Hempty Hpos. induction fuel as [|fuel IH]; intros k w qc ac Hp.
  - exists w. split.
    + cbn. destruct (0 <? limit) eqn:E; [reflexivity | apply Z.ltb_ge in E; lia].
    + cbn. now rewrite app_nil_r.
  - rewrite (getArticles_loop_step fuel _ limit [] _ qc ac w _ p
                                   (request_endless p w _ Hp) Hpos).
    rewrite Hempty.
    change ([] ++ [])%list with (@nil FeedEntry).
    change (List.length (@nil FeedEntry)) with 0%nat.
    assert (Hge : (Z.of_nat 0 >=? limit) = false)
      by (rewrite Z.geb_leb; apply Z.leb_gt; exact Hpos).
    rewrite Hge. unfold Mock.has_next.
    destruct (next p) as [c|]; [|congruence].
    replace (Z.of_nat (S k) + 1) with (Z.of_nat (S (S k))) by lia.
    edestruct (IH (S k) (record_fetch
                          (mk_request (request_url (feed_endpoint default_timestamp
                                                                  (Z.of_nat (S k))))
                                      no_init (bearer_headers (accessToken w))) w))
      as (w' & Hrun & Hlog); [exact Hp|].
    exists w'. split; [exact Hrun|]. rewrite Hlog.
    cbn [record_fetch fetched accessToken seq map]. rewrite <- app_assoc. reflexivity.
Qed.

Lemma NoDup_map_injective {A B} (f : A -> B) (l : list A) :
  (forall a b, f a = f b -> a = b) -> NoDup l -> NoDup (map f l).
Proof.
  intros Hinj Hl. induction Hl as [|x l Hx Hl IH]; cbn; constructor; [|exact IH].
  intros Hin. apply in_map_iff in Hin as (y & Hy & Hyl).
  apply Hinj in Hy. now subst y.
Qed.

Lemma page_urls_distinct (token : string) (start len : nat) :
  NoDup (map req_url (map (Mock.page_request default_timestamp token) (seq start len))).
Proof.
  rewrite map_map. apply NoDup_map_injective; [|apply seq_NoDup].
  intros a b H. cbn [Mock.page_request mk_request req_url] in H.
  apply feed_endpoint_inj in H. lia.
Qed.

(** C9, as stated, fails: in front of a provider that answers every page
    with the same cursor and no items, neither traversal ever ends, with an
    error or otherwise; no amount of fuel is enough. *)
Lemma repeated_cursor_is_not_detected :
  ~ (exists fuel e, fst (getArticle fuel "42" Mock.stuck_client) = Threw e)
  /\ ~ (exists fuel a, fst (getArticle fuel "42" Mock.stuck_client) = Returned a)
  /\ ~ (exists fuel e,
          fst (getArticles fuel (Mock.limit_only 1) Mock.stuck_client) = Threw e)
  /\ ~ (exists fuel a,
          fst (getArticles fuel (Mock.limit_only 1) Mock.stuck_client) = Returned a)
  /\ fst (getArticle 500 "42" Mock.stuck_client) = OutOfFuel
  /\ List.length (fetched (snd (getArticle 500 "42" Mock.stuck_client))) = 500%nat.
Proof.
  assert (Hone : forall fuel, fst (getArticle fuel "42" Mock.stuck_client) = OutOfFuel).
  { intros fuel.
    destruct (getArticle_loop_endless Mock.stuck_page "42" (Js.parseInt "42")
                                      ltac:(discriminate) eq_refl fuel 0
                                      Mock.stuck_client eq_refl) as (w' & Hrun & _).
    change (getArticle fuel "42" Mock.stuck_client)
      with (getArticle_loop fuel "42" (Js.parseInt "42") (Z.of_nat 1) Mock.stuck_client).
    now rewrite Hrun. }
  assert (Hall : forall fuel,
             fst (getArticles fuel (Mock.limit_only 1) Mock.stuck_client) = OutOfFuel).
  { intros fuel.
    destruct (getArticles_loop_endless Mock.stuck_page 1
                                       ltac:(discriminate) eq_refl eq_refl fuel 0
                                       Mock.stuck_client None None eq_refl)
      as (w' & Hrun & _).
    change (getArticles fuel (Mock.limit_only 1) Mock.stuck_client)
      with (getArticles_loop fuel default_timestamp 1 [] (Z.of_nat 1) true None None
                             Mock.stuck_client).
    now rewrite Hrun. }
  split; [intros (fuel & e & H); rewrite Hone in H; discriminate|].
  split; [intros (fuel & a & H); rewrite Hone in H; discriminate|].
  split; [intros (fuel & e & H); rewrite Hall in H; discriminate|].
  split; [intros (fuel & a & H); rewrite Hall in H; discriminate|].
  split; [apply Hone | vm_compute; reflexivity].
Qed.

(** C9, amended.  Every iteration of either loop that does not end the
    traversal asks for the next page number, so the URLs requested in one
    call are pairwise distinct; the cursor is only compared with [null] and
    there is no detection of a repeated cursor.  In front of a provider
    that sends the same page with a present cursor for ever, [getArticle]
    (when the page holds no match) and [getArticles] (when the page holds
    no item) are still running after any number of iterations, having
    requested one page per iteration, and no error is raised. *)
Theorem repeated_cursor_never_ends
        (p : FeedResponse) (articleId : string) (limit : Z) (w : World) (fuel : nat) :
  provider w = Mock.endless_provider p ->
  next p <> None ->
  let sent := map (Mock.page_request default_timestamp (accessToken w)) (seq 1 fuel) in
  NoDup (map req_url sent)
  /\ (find (entry_matches articleId (Js.parseInt articleId)) (feed p) = None ->
      exists w',
        getArticle fuel articleId w = (OutOfFuel, w')
        /\ fetched w' = (fetched w ++ sent)%list)
  /\ (feed p = [] -> 0 < limit ->
      exists w',
        getArticles fuel (Mock.limit_only limit) w = (OutOfFuel, w')
        /\ fetched w' = (fetched w ++ sent)%list).
Proof.
  intros Hp Hnext sent. split; [apply page_urls_distinct|]. split.
  - intros Hfind.
    exact (getArticle_loop_endless p articleId (Js.parseInt articleId)
                                   Hnext Hfind fuel 0 w Hp).
  - intros Hempty Hpos.
    destruct (getArticles_loop_endless p limit Hnext Hempty Hpos fuel 0 w None None Hp)
      as (w' & Hrun & Hlog).
    exists w'. split; [|exact Hlog].
    unfold getArticles, Mock.limit_only. cbn [opt_limit opt_page opt_afterTimestamp].
    unfold Js.number_or, Js.string_or.
    destruct (limit =? 0) eqn:E; [apply Z.eqb_eq in E; lia | exact Hrun].
Qed.

Lemma repeated_cursor_never_ends_witness :
  let w := Mock.stuck_client in
  let p := Mock.stuck_page in
  let sent := map (Mock.page_request default_timestamp (accessToken w)) (seq 1 7) in
  provider w = Mock.endless_provider p
  /\ next p <> None
  /\ (NoDup (map req_url sent)
      /\ (find (entry_matches "42" (Js.parseInt "42")) (feed p) = None ->
          exists w',
            getArticle 7 "42" w = (OutOfFuel, w')
            /\ fetched w' = (fetched w ++ sent)%list)
      /\ (feed p = [] -> 0 < 20 ->
          exists w',
            getArticles 7 (Mock.limit_only 20) w = (OutOfFuel, w')
            /\ fetched w' = (fetched w ++ sent)%list)).
Proof.
  cbv zeta.
  split; [reflexivity|]. split; [discriminate|].
  exact (repeated_cursor_never_ends Mock.stuck_page "42" 20 Mock.stuck_client 7%nat
                                    eq_refl ltac:(discriminate)).
Defined.

(** ** The tool dispatcher *)

(** C4, as stated, fails: a lookup that exhausts the feed without a match
    is answered with a result whose [isError] flag is set, like the result
    that reports a failed request. *)
Lemma not_found_is_flagged_as_error :
  let w := Server.createMatterServer Mock.stale_pair
             (Mock.feed_provider default_timestamp Mock.three_pages) in
  let call := Server.call_tool_handler (fun _ => "article") (fun _ => "list")
                                       (fun _ => true) 3 "matter_get_article"
                                       (Some [("article_id", Server.AString "5")]) in
  fst (getArticle 3 "5" w) = Returned None
  /\ fst (call w)
     = Returned {| Server.content :=
                     [{| Server.content_type := "text";
                         Server.text := Server.not_found_text "5" |}];
                   Server.isError := Some true |}
  /\ Server.isError (Server.error_result (Server.not_found_text "5")) = Some true.
Proof. cbv zeta. repeat split; vm_compute; reflexivity. Qed.

(** C4, amended.  When the lookup of [getArticle] ends without a match, the
    get-article tool returns, without throwing, the result whose text is
    [Article with ID "<id>" not found.] and whose [isError] flag is [true];
    when the lookup throws (a failed request among others) it returns the
    result whose text is ["Error: "] followed by the message, with the same
    flag.  The two are told apart by their text only. *)
Theorem not_found_result_differs_by_text_only
        (formatArticle : FeedEntry -> string)
        (formatArticleList : list FeedEntry -> string) (is_url : string -> bool)
        (fuel : nat) (article_id : string) (w w' : World) :
  article_id <> EmptyString ->
  let call := Server.call_tool_handler formatArticle formatArticleList is_url
                                       fuel "matter_get_article"
                                       (Some [("article_id", Server.AString article_id)]) in
  (getArticle fuel article_id w = (Returned None, w') ->
   call w = (Returned (Server.error_result (Server.not_found_text article_id)), w'))
  /\ (forall e, getArticle fuel article_id w = (Threw e, w') ->
                call w = (Returned (Server.error_result ("Error: " ++ exn_message e)), w'))
  /\ Server.isError (Server.error_result (Server.not_found_text article_id)) = Some true
  /\ (forall m, Server.isError (Server.error_result ("Error: " ++ m))
                = Server.isError (Server.error_result (Server.not_found_text article_id)))
  /\ (forall m, Server.error_result (Server.not_found_text article_id)
                <> Server.error_result ("Error: " ++ m)).
Proof.
  intros Hne call.
  assert (Hparse : forall w0,
             Server.GetArticleInputSchema_parse
               (Some [("article_id", Server.AString article_id)]) w0
             = (Returned article_id, w0)).
  { intros w0. unfold Server.GetArticleInputSchema_parse. cbn.
    destruct article_id; [congruence|reflexivity]. }
  assert (Hcall : call w
                  = match getArticle fuel article_id w with
                    | (Returned None, w1) =>
                      (Returned (Server.error_result (Server.not_found_text article_id)), w1)
                    | (Returned (Some a), w1) =>
                      (Returned (Server.text_result (formatArticle a)), w1)
                    | (Threw e, w1) =>
                      (Returned (Server.error_result ("Error: " ++ exn_message e)), w1)
                    | (OutOfFuel, w1) => (OutOfFuel, w1)
                    end).
  { unfold call, Server.call_tool_handler, try_catch.
    cbn [String.eqb Ascii.eqb Bool.eqb]. cbv iota.
    unfold bind at 1. rewrite Hparse. unfold bind at 1.
    destruct (getArticle fuel article_id w) as [[[a|]|e|] w1]; reflexivity. }
  split; [intros H; now rewrite Hcall, H|].
  split; [intros e H; now rewrite Hcall, H|].
  split; [reflexivity|]. split; [reflexivity|].
  intros m H. unfold Server.error_result, Server.not_found_text in H.
  injection H as H. discriminate.
Qed.

Lemma not_found_result_differs_by_text_only_witness :
  let w := Server.createMatterServer Mock.stale_pair
             (Mock.feed_provider default_timestamp Mock.three_pages) in
  let call := Server.call_tool_handler (fun _ => "article") (fun _ => "list")
                                       (fun _ => true) 3 "matter_get_article"
                                       (Some [("article_id", Server.AString "5")]) in
  "5" <> EmptyString
  /\ ((getArticle 3 "5" w = (Returned None, snd (getArticle 3 "5" w)) ->
       call w = (Returned (Server.error_result (Server.not_found_text "5")),
                 snd (getArticle 3 "5" w)))
      /\ (forall e, getArticle 3 "5" w = (Threw e, snd (getArticle 3 "5" w)) ->
                    call w = (Returned (Server.error_result ("Error: " ++ exn_message e)),
                              snd (getArticle 3 "5" w)))
      /\ Server.isError (Server.error_result (Server.not_found_text "5")) = Some true
      /\ (forall m, Server.isError (Server.error_result ("Error: " ++ m))
                    = Server.isError (Server.error_result (Server.not_found_text "5")))
      /\ (forall m, Server.error_result (Server.not_found_text "5")
                    <> Server.error_result ("Error: " ++ m))).
Proof.
  cbv zeta. split; [discriminate|].
  exact (not_found_result_differs_by_text_only
           (fun _ => "article") (fun _ => "list") (fun _ => true) 3 "5"
           (Server.createMatterServer Mock.stale_pair
              (Mock.feed_provider default_timestamp Mock.three_pages))
           (snd (getArticle 3 "5"
                   (Server.createMatterServer Mock.stale_pair
                      (Mock.feed_provider default_timestamp Mock.three_pages))))
           ltac:(discriminate)).
Defined.

(** ** The OAuth bridge *)

Module OAuthProofs.
Import OAuth.
Local Open Scope N_scope.
Local Open Scope list_scope.

Ltac euclid := zify; Z.to_euclidean_division_equations; lia.

Lemma is_ascii_cons (c : N) (s : jsstring) :
  is_ascii (c :: s) = true <-> c < 128 /\ is_ascii s = true.
Proof.
  unfold is_ascii. cbn. rewrite andb_true_iff, N.ltb_lt. tauto.
Qed.

Lemma is_ascii_app (a b : jsstring) :
  is_ascii (a ++ b) = is_ascii a && is_ascii b.
Proof. apply forallb_app. Qed.

(** *** Base64 *)

Lemma b64_value_char (i : N) : i < 64 -> b64_value (b64_char i) = Some i.
Proof.
  intros H.
  assert (Hall : forallb (fun i => match b64_value (b64_char i) with
                                   | Some v => v =? i
                                   | None => false
                                   end)
                         (map N.of_nat (seq 0 64)) = true) by (vm_compute; reflexivity).
  rewrite forallb_forall in Hall.
  assert (Hin : In i (map N.of_nat (seq 0 64))).
  { apply in_map_iff. exists (N.to_nat i). split; [lia|]. apply in_seq. lia. }
  specialize (Hall i Hin). destruct (b64_value (b64_char i)); [|discriminate].
  apply N.eqb_eq in Hall. now subst.
Qed.

Lemma b64_char_ascii (i : N) : b64_char i < 128.
Proof.
  unfold b64_char.
  assert (Hall : forallb (fun c => c <? 128) b64_alphabet = true)
    by (vm_compute; reflexivity).
  rewrite forallb_forall in Hall.
  destruct (nth_in_or_default (N.to_nat i) b64_alphabet 61) as [Hin|Hd].
  - apply N.ltb_lt. now apply Hall.
  - rewrite Hd. lia.
Qed.

Lemma b64_char_low (i : N) : b64_char i mod 256 = b64_char i.
Proof. apply N.mod_small. pose proof (b64_char_ascii i). lia. Qed.

Lemma list_ind3 {A} (P : list A -> Prop) :
  P [] ->
  (forall a, P [a]) ->
  (forall a b, P [a; b]) ->
  (forall a b c l, P l -> P (a :: b :: c :: l)) ->
  forall l, P l.
Proof.
  intros H0 H1 H2 H3.
  assert (Hall : forall l, P l /\ (forall a, P (a :: l)) /\ (forall a b, P (a :: b :: l))).
  { induction l as [|x l (IH0 & IH1 & IH2)]; [auto|].
    split; [apply IH1|]. split; [intros a; apply IH2|].
    intros a b. apply H3. exact IH0. }
  intros l. apply Hall.
Qed.

(** Decoding undoes encoding on bytes. *)
Lemma base64_round_trip (bs : bytes) :
  Forall (fun b => b < 256) bs -> Buffer_from_base64 (b64_encode bs) = bs.
Proof.
  unfold Buffer_from_base64.
  induction bs as [|a|a b|a b c rest IH] using list_ind3; intros Hb.
  - reflexivity.
  - inversion Hb as [|? ? Ha _]; subst.
    cbn [b64_encode b64_sextets]. rewrite !b64_char_low.
    rewrite !b64_value_char by euclid.
    change (61 mod 256) with 61.
    change (b64_value 61) with (@None N). change (61 =? 61) with true.
    cbn [b64_bytes]. f_equal. euclid.
  - inversion Hb as [|? ? Ha Hb']; subst. inversion Hb' as [|? ? Hb0 _]; subst.
    cbn [b64_encode b64_sextets]. rewrite !b64_char_low.
    rewrite !b64_value_char by euclid.
    change (61 mod 256) with 61.
    change (b64_value 61) with (@None N). change (61 =? 61) with true.
    cbn [b64_bytes]. f_equal; [euclid|]. f_equal. euclid.
  - inversion Hb as [|? ? Ha Hb1]; subst. inversion Hb1 as [|? ? Hb0 Hb2]; subst.
    inversion Hb2 as [|? ? Hc Hrest]; subst.
    cbn [b64_encode b64_sextets]. rewrite !b64_char_low.
    rewrite !b64_value_char by euclid.
    cbn [b64_bytes]. rewrite (IH Hrest).
    f_equal; [euclid|]. f_equal; [euclid|]. f_equal. euclid.
Qed.

Lemma b64_encode_ascii (bs : bytes) : is_ascii (b64_encode bs) = true.
Proof.
  induction bs as [|a|a b|a b c rest IH] using list_ind3.
  - reflexivity.
  - cbn [b64_encode]. repeat (apply is_ascii_cons; split; [apply b64_char_ascii || lia|]).
    reflexivity.
  - cbn [b64_encode]. repeat (apply is_ascii_cons; split; [apply b64_char_ascii || lia|]).
    reflexivity.
  - cbn [b64_encode]. repeat (apply is_ascii_cons; split; [apply b64_char_ascii|]).
    exact IH.
Qed.

Lemma ascii_bytes (s : jsstring) :
  is_ascii s = true -> Forall (fun b => b < 256) s.
Proof.
  induction s as [|c s IH]; intros H; constructor.
  - apply is_ascii_cons in H. lia.
  - apply IH. now apply is_ascii_cons in H.
Qed.

Lemma btoa_ascii (s : jsstring) : is_ascii s = true -> btoa s = Some (b64_encode s).
Proof.
  intros H. unfold btoa.
  replace (forallb (fun c => c <=? 255) s) with true; [reflexivity|].
  symmetry. apply forallb_forall. intros c Hc.
  unfold is_ascii in H. rewrite forallb_forall in H. specialize (H c Hc).
  apply N.ltb_lt in H. apply N.leb_le. lia.
Qed.

(** *** UTF-8 *)

Lemma utf8_decode_ascii (bs : bytes) : is_ascii bs = true -> utf8_decode bs = bs.
Proof.
  induction bs as [|b bs IH]; intros H; [reflexivity|].
  apply is_ascii_cons in H as [Hb Hbs]. cbn [utf8_decode].
  apply N.ltb_lt in Hb. rewrite Hb. now rewrite IH.
Qed.

Lemma utf8_encode_ascii (s : jsstring) : is_ascii s = true -> utf8_encode s = s.
Proof.
  induction s as [|c s IH]; intros H; [reflexivity|].
  apply is_ascii_cons in H as [Hc Hs]. cbn [utf8_encode].
  unfold is_high_surrogate, is_low_surrogate.
  replace (55296 <=? c) with false by (symmetry; apply N.leb_gt; lia).
  replace (56320 <=? c) with false by (symmetry; apply N.leb_gt; lia).
  cbn [andb]. unfold utf8_of_code_point.
  apply N.ltb_lt in Hc. rewrite Hc. cbn [Datatypes.app]. now rewrite IH.
Qed.

(** *** JSON *)

Lemma hex_value_char (n : N) : n < 16 -> hex_value (hex_char n) = Some n.
Proof.
  intros H.
  assert (Hall : forallb (fun n => match hex_value (hex_char n) with
                                   | Some v => v =? n
                                   | None => false
                                   end)
                         (map N.of_nat (seq 0 16)) = true) by (vm_compute; reflexivity).
  rewrite forallb_forall in Hall.
  assert (Hin : In n (map N.of_nat (seq 0 16))).
  { apply in_map_iff. exists (N.to_nat n). split; [lia|]. apply in_seq. lia. }
  specialize (Hall n Hin). destruct (hex_value (hex_char n)); [|discriminate].
  apply N.eqb_eq in Hall. now subst.
Qed.

Lemma hex4_escape (c : N) :
  c < 65536 ->
  hex4 (hex_char (c / 4096)) (hex_char ((c / 256) mod 16))
       (hex_char ((c / 16) mod 16)) (hex_char (c mod 16)) = Some c.
Proof.
  intros H. unfold hex4. rewrite !hex_value_char by euclid. f_equal. euclid.
Qed.

Lemma hex_char_ascii (n : N) : n < 16 -> hex_char n < 128.
Proof. intros H. unfold hex_char. destruct (n <? 10); lia. Qed.

(** Reading back the quoting of one ASCII code unit. *)
Lemma parse_quote_unit (c : N) (following : jsstring) :
  c < 128 ->
  parse_string_chars (quote_unit c ++ following)
  = prepend c (parse_string_chars following).
Proof.
  intros Hc. unfold quote_unit.
  destruct (N.eqb_spec c 34) as [->|H34]; [reflexivity|].
  destruct (N.eqb_spec c 92) as [->|H92]; [reflexivity|].
  destruct (N.eqb_spec c 8) as [->|H8]; [reflexivity|].
  destruct (N.eqb_spec c 9) as [->|H9]; [reflexivity|].
  destruct (N.eqb_spec c 10) as [->|H10]; [reflexivity|].
  destruct (N.eqb_spec c 12) as [->|H12]; [reflexivity|].
  destruct (N.eqb_spec c 13) as [->|H13]; [reflexivity|].
  destruct (N.ltb_spec c 32) as [Hlow|Hhigh].
  - change (parse_string_chars (unicode_escape c ++ following))
      with (match hex4 (hex_char (c / 4096)) (hex_char ((c / 256) mod 16))
                       (hex_char ((c / 16) mod 16)) (hex_char (c mod 16)) with
            | Some u => prepend u (parse_string_chars following)
            | None => None
            end).
    rewrite hex4_escape by lia. reflexivity.
  - cbn [Datatypes.app parse_string_chars].
    apply N.eqb_neq in H34, H92. rewrite H34, H92.
    replace (c <? 32) with false by (symmetry; apply N.ltb_ge; exact Hhigh).
    reflexivity.
Qed.

Lemma quote_unit_ascii (c : N) : c < 128 -> is_ascii (quote_unit c) = true.
Proof.
  intros Hc. unfold quote_unit.
  repeat match goal with
         | |- context [if ?x =? ?y then _ else _] =>
           destruct (x =? y); [reflexivity|]
         end.
  destruct (c <? 32).
  - unfold unicode_escape.
    repeat (apply is_ascii_cons; split; [try lia; apply hex_char_ascii; euclid|]).
    reflexivity.
  - apply is_ascii_cons. split; [exact Hc | reflexivity].
Qed.

Lemma quote_units_ascii_step (c : N) (s : jsstring) :
  c < 128 -> quote_units (c :: s) = quote_unit c ++ quote_units s.
Proof.
  intros Hc. cbn [quote_units]. unfold is_high_surrogate, is_low_surrogate.
  replace (55296 <=? c) with false by (symmetry; apply N.leb_gt; lia).
  replace (56320 <=? c) with false by (symmetry; apply N.leb_gt; lia).
  reflexivity.
Qed.

Lemma quote_units_ascii (s : jsstring) :
  is_ascii s = true -> is_ascii (quote_units s) = true.
Proof.
  induction s as [|c s IH]; intros H; [reflexivity|].
  apply is_ascii_cons in H as [Hc Hs].
  rewrite quote_units_ascii_step, is_ascii_app by exact Hc.
  now rewrite quote_unit_ascii, IH.
Qed.

(** Reading back the quoting of an ASCII string. *)
Lemma parse_quote_units (s following : jsstring) :
  is_ascii s = true ->
  parse_string_chars (quote_units s ++ 34 :: following) = Some (s, following).
Proof.
  induction s as [|c s IH]; intros H; [reflexivity|].
  apply is_ascii_cons in H as [Hc Hs].
  rewrite quote_units_ascii_step, <- app_assoc, parse_quote_unit by exact Hc.
  now rewrite IH.
Qed.

Lemma quote_app (s following : jsstring) :
  quote s ++ following = 34 :: quote_units s ++ 34 :: following.
Proof. unfold quote. cbn [Datatypes.app]. now rewrite <- app_assoc. Qed.

Lemma parse_quote (s following : jsstring) :
  is_ascii s = true ->
  parse_string (skip_ws (quote s ++ following)) = Some (s, following).
Proof.
  intros H. rewrite quote_app. cbn [skip_ws].
  change (is_json_space 34) with false. cbv iota.
  cbn [parse_string]. change (34 =? 34) with true. cbv iota.
  now apply parse_quote_units.
Qed.

Lemma quote_ascii (s : jsstring) : is_ascii s = true -> is_ascii (quote s) = true.
Proof.
  intros H. unfold quote. apply is_ascii_cons. split; [lia|].
  rewrite is_ascii_app, quote_units_ascii by exact H. reflexivity.
Qed.

Lemma ascii_object_cons (k v : jsstring) (o : JsonObject) :
  ascii_object ((k, v) :: o) = true
  <-> is_ascii k = true /\ is_ascii v = true /\ ascii_object o = true.
Proof.
  unfold ascii_object. cbn. rewrite !andb_true_iff. tauto.
Qed.

Lemma stringify_members_cons (k v : jsstring) (m : jsstring * jsstring)
      (o : JsonObject) :
  stringify_members ((k, v) :: m :: o)
  = quote k ++ 58 :: quote v ++ 44 :: stringify_members (m :: o).
Proof. reflexivity. Qed.

(** Reading back the members of an object of ASCII strings. *)
Lemma parse_stringify_members (o : JsonObject) :
  forall (fuel : nat) (following : jsstring),
    o <> [] ->
    ascii_object o = true ->
    (List.length o <= fuel)%nat ->
    parse_members fuel (stringify_members o ++ 125 :: following) = Some (o, following).
Proof.
  induction o as [|[k v] o IH]; intros fuel following Hne Hascii Hfuel; [congruence|].
  apply ascii_object_cons in Hascii as (Hk & Hv & Ho).
  destruct fuel as [|fuel]; [cbn in Hfuel; lia|].
  destruct o as [|m o].
  - cbn [stringify_members parse_members].
    rewrite <- app_assoc. cbn [Datatypes.app]. rewrite parse_quote by exact Hk.
    cbn [skip_ws]. change (is_json_space 58) with false. cbv iota.
    change (58 =? 58) with true. cbv iota.
    rewrite parse_quote by exact Hv.
    reflexivity.
  - rewrite stringify_members_cons. cbn [parse_members].
    rewrite <- app_assoc. cbn [Datatypes.app]. rewrite parse_quote by exact Hk.
    cbn [skip_ws]. change (is_json_space 58) with false. cbv iota.
    change (58 =? 58) with true. cbv iota.
    rewrite <- app_assoc. cbn [Datatypes.app]. rewrite parse_quote by exact Hv.
    cbn [skip_ws]. change (is_json_space 44) with false. cbv iota.
    change (44 =? 44) with true. cbv iota.
    rewrite IH; [reflexivity | discriminate | exact Ho | cbn in Hfuel |- *; lia].
Qed.

Lemma stringify_members_length (o : JsonObject) :
  (List.length o <= List.length (stringify_members o))%nat.
Proof.
  induction o as [|[k v] o IH]; [cbn; lia|].
  destruct o as [|m o].
  - cbn. lia.
  - rewrite stringify_members_cons. unfold quote at 1.
    cbn [Datatypes.app List.length]. rewrite !length_app. cbn [List.length] in IH |- *.
    rewrite !length_app. cbn [List.length]. lia.
Qed.

Lemma stringify_members_ascii (o : JsonObject) :
  ascii_object o = true -> is_ascii (stringify_members o) = true.
Proof.
  induction o as [|[k v] o IH]; intros H; [reflexivity|].
  apply ascii_object_cons in H as (Hk & Hv & Ho).
  destruct o as [|m o].
  - cbn [stringify_members]. rewrite is_ascii_app, quote_ascii by exact Hk.
    apply is_ascii_cons. split; [lia|]. now apply quote_ascii.
  - rewrite stringify_members_cons, is_ascii_app, quote_ascii by exact Hk.
    apply is_ascii_cons. split; [lia|].
    rewrite is_ascii_app, quote_ascii by exact Hv.
    apply is_ascii_cons. split; [lia|]. now apply IH.
Qed.

Lemma JSON_stringify_ascii (o : JsonObject) :
  ascii_object o = true -> is_ascii (JSON_stringify o) = true.
Proof.
  intros H. unfold JSON_stringify. apply is_ascii_cons. split; [lia|].
  rewrite is_ascii_app, stringify_members_ascii by exact H. reflexivity.
Qed.

(** [JSON.parse] undoes [JSON.stringify] on objects of ASCII strings. *)
Lemma JSON_round_trip (o : JsonObject) :
  o <> [] -> ascii_object o = true -> JSON_parse (JSON_stringify o) = Some o.
Proof.
  intros Hne Hascii. unfold JSON_parse, JSON_stringify.
  cbn [skip_ws]. change (is_json_space 123) with false. cbv iota.
  change (123 =? 123) with true. cbv iota.
  rewrite parse_stringify_members;
    [ | exact Hne | exact Hascii
      | rewrite length_app; pose proof (stringify_members_length o); lia ].
  destruct o as [|[k v] o]; [congruence|].
  assert (Hhead : exists t, stringify_members ((k, v) :: o) ++ [125] = 34 :: t).
  { destruct o; cbn [stringify_members]; unfold quote; cbn [Datatypes.app]; eauto. }
  destruct Hhead as [t ->].
  cbn [skip_ws]. change (is_json_space 34) with false. cbv iota.
  change (34 =? 125) with false. cbv iota. reflexivity.
Qed.

(** Either envelope can be opened again: the text of an object of ASCII
    strings survives Base64 (from [btoa] or from a UTF-8 [Buffer]) and the
    UTF-8 reading of the decoded bytes. *)
Lemma open_envelope (o : JsonObject) :
  o <> [] ->
  ascii_object o = true ->
  btoa (JSON_stringify o) = Some (b64_encode (JSON_stringify o))
  /\ Buffer_toString_base64 (utf8_encode (JSON_stringify o))
     = b64_encode (JSON_stringify o)
  /\ JSON_parse (utf8_decode (Buffer_from_base64 (b64_encode (JSON_stringify o))))
     = Some o.
Proof.
  intros Hne Hascii.
  pose proof (JSON_stringify_ascii o Hascii) as Htext.
  split; [now apply btoa_ascii|]. split.
  - unfold Buffer_toString_base64. now rewrite utf8_encode_ascii.
  - rewrite base64_round_trip by (now apply ascii_bytes).
    rewrite utf8_decode_ascii by exact Htext.
    now apply JSON_round_trip.
Qed.

(** *** The two envelopes *)

Lemma b64_encode_cons (b : N) (bs : bytes) :
  exists c t, b64_encode (b :: bs) = c :: t.
Proof. destruct bs as [|b1 [|b2 rest]]; cbn [b64_encode]; eauto. Qed.

Lemma token_handler_exchanges (form : jsstring -> jsstring -> option jsstring)
      (code : jsstring) (decoded : JsonObject) (a r : jsstring) :
  code <> [] ->
  JSON_parse (utf8_decode (Buffer_from_base64 code)) = Some decoded ->
  json_get (lit "access_token") decoded = Some a ->
  json_get (lit "refresh_token") decoded = Some r ->
  a <> [] ->
  r <> [] ->
  token_handler form
    {| req_method := lit "POST";
       req_body := BodyObject [(lit "code", code);
                               (lit "grant_type", lit "authorization_code")] |}
  = respond 200
      [(lit "access_token",
        Buffer_toString_base64
          (utf8_encode (JSON_stringify [(lit "accessToken", a);
                                        (lit "refreshToken", r)])));
       (lit "token_type", lit "Bearer");
       (lit "refresh_token", r)].
Proof.
  intros Hcode Hparse Ha Hr Hane Hrne.
  unfold token_handler. cbn [req_method req_body].
  replace (jseqb (lit "POST") (lit "OPTIONS")) with false by reflexivity.
  replace (jseqb (lit "POST") (lit "POST")) with true by reflexivity.
  cbn [negb].
  replace (json_get (lit "code")
                    [(lit "code", code); (lit "grant_type", lit "authorization_code")])
    with (Some code) by reflexivity.
  destruct code as [|c code1]; [congruence|].
  rewrite Hparse, Ha, Hr.
  destruct a as [|a0 a1]; [congruence|]. destruct r as [|r0 r1]; [congruence|].
  reflexivity.
Qed.

Lemma getTokens_from_bearer (token : jsstring) (decoded : JsonObject) (a r : jsstring) :
  JSON_parse (utf8_decode (Buffer_from_base64 token)) = Some decoded ->
  json_get (lit "accessToken") decoded = Some a ->
  json_get (lit "refreshToken") decoded = Some r ->
  a <> [] ->
  r <> [] ->
  getTokensFromRequest {| authorization := Some (lit "Bearer " ++ token);
                          x_matter_access_token := None;
                          x_matter_refresh_token := None |}
  = Some {| accessToken := a; refreshToken := r |}.
Proof.
  intros Hparse Ha Hr Hane Hrne.
  unfold getTokensFromRequest. cbn [authorization].
  replace (startsWith (lit "Bearer ") (lit "Bearer " ++ token)) with true by reflexivity.
  replace (skipn 7 (lit "Bearer " ++ token)) with token by reflexivity.
  rewrite Hparse, Ha, Hr.
  destruct a as [|a0 a1]; [congruence|]. destruct r as [|r0 r1]; [congruence|].
  reflexivity.
Qed.

(** C3, as stated, fails.  The token [é] (U+00E9, printable) is encoded by
    [btoa] as the single byte E9, which is not UTF-8: the token endpoint
    reads U+FFFD instead, and that is what the resource endpoint finally
    gets.  A token with a character beyond U+00FF makes [btoa] throw, and
    an empty token is refused by the token endpoint. *)
Lemma round_trip_loses_latin1 :
  authorization_code [233] (lit "refresh") <> None
  /\ round_trip no_form [233] (lit "refresh")
     = Some {| accessToken := [65533]; refreshToken := lit "refresh" |}
  /\ round_trip no_form [233] (lit "refresh")
     <> Some {| accessToken := [233]; refreshToken := lit "refresh" |}
  /\ round_trip no_form [8364] (lit "refresh") = None
  /\ round_trip no_form [] (lit "refresh") = None.
Proof.
  split; [vm_compute; discriminate|].
  split; [vm_compute; reflexivity|].
  split; [vm_compute; discriminate|].
  split; vm_compute; reflexivity.
Qed.

(** C3, amended.  For every pair of non-empty tokens made of ASCII
    characters (the printable ones and the control characters, hence every
    character that JSON or Base64 treats specially), the authorization code
    exists, the token endpoint answers it with a bearer token, and the
    resource endpoint reads the original pair out of that bearer token. *)
Theorem round_trip_of_ascii_pair
        (form : jsstring -> jsstring -> option jsstring) (a r : jsstring) :
  a <> [] ->
  r <> [] ->
  is_ascii a = true ->
  is_ascii r = true ->
  exists code combined,
    authorization_code a r = Some code
    /\ token_handler form
         {| req_method := lit "POST";
            req_body := BodyObject [(lit "code", code);
                                    (lit "grant_type", lit "authorization_code")] |}
       = respond 200 [(lit "access_token", combined);
                      (lit "token_type", lit "Bearer");
                      (lit "refresh_token", r)]
    /\ getTokensFromRequest {| authorization := Some (lit "Bearer " ++ combined);
                               x_matter_access_token := None;
                               x_matter_refresh_token := None |}
       = Some {| accessToken := a; refreshToken := r |}
    /\ round_trip form a r = Some {| accessToken := a; refreshToken := r |}.
Proof.
  intros Hane Hrne Ha Hr.
  set (sealed := [(lit "access_token", a); (lit "refresh_token", r)]).
  set (resealed := [(lit "accessToken", a); (lit "refreshToken", r)]).
  assert (Hsealed : ascii_object sealed = true).
  { apply ascii_object_cons. split; [reflexivity|]. split; [exact Ha|].
    apply ascii_object_cons. split; [reflexivity|]. split; [exact Hr|reflexivity]. }
  assert (Hresealed : ascii_object resealed = true).
  { apply ascii_object_cons. split; [reflexivity|]. split; [exact Ha|].
    apply ascii_object_cons. split; [reflexivity|]. split; [exact Hr|reflexivity]. }
  destruct (open_envelope sealed ltac:(discriminate) Hsealed) as (Hbtoa & _ & Hopen).
  destruct (open_envelope resealed ltac:(discriminate) Hresealed) as (_ & Hbuf & Hopen2).
  set (code := b64_encode (JSON_stringify sealed)) in *.
  set (combined := b64_encode (JSON_stringify resealed)) in *.
  assert (Hcode : code <> []).
  { unfold code, JSON_stringify.
    destruct (b64_encode_cons 123 (stringify_members sealed ++ [125])) as (c & t & ->).
    discriminate. }
  assert (Hexchange :
            token_handler form
              {| req_method := lit "POST";
                 req_body := BodyObject [(lit "code", code);
                                         (lit "grant_type", lit "authorization_code")] |}
            = respond 200 [(lit "access_token", combined);
                           (lit "token_type", lit "Bearer");
                           (lit "refresh_token", r)]).
  { rewrite (token_handler_exchanges form code sealed a r Hcode Hopen
                                     eq_refl eq_refl Hane Hrne).
    fold resealed. now rewrite Hbuf. }
  assert (Hread :
            getTokensFromRequest {| authorization := Some (lit "Bearer " ++ combined);
                                    x_matter_access_token := None;
                                    x_matter_refresh_token := None |}
            = Some {| accessToken := a; refreshToken := r |}).
  { exact (getTokens_from_bearer combined resealed a r Hopen2 eq_refl eq_refl Hane Hrne). }
  exists code, combined.
  split; [exact Hbtoa|]. split; [exact Hexchange|]. split; [exact Hread|].
  unfold round_trip. fold sealed. unfold authorization_code. fold sealed.
  rewrite Hbtoa, Hexchange.
  replace (bearer_request
             (respond 200 [(lit "access_token", combined);
                           (lit "token_type", lit "Bearer");
                           (lit "refresh_token", r)]))
    with (Some {| authorization := Some (lit "Bearer " ++ combined);
                  x_matter_access_token := None;
                  x_matter_refresh_token := None |}) by reflexivity.
  exact Hread.
Qed.

Lemma round_trip_of_ascii_pair_witness :
  awkward_token <> []
  /\ lit "refresh" <> []
  /\ is_ascii awkward_token = true
  /\ is_ascii (lit "refresh") = true
  /\ exists code combined,
      authorization_code awkward_token (lit "refresh") = Some code
      /\ token_handler no_form
           {| req_method := lit "POST";
              req_body := BodyObject [(lit "code", code);
                                      (lit "grant_type", lit "authorization_code")] |}
         = respond 200 [(lit "access_token", combined);
                        (lit "token_type", lit "Bearer");
                        (lit "refresh_token", lit "refresh")]
      /\ getTokensFromRequest {| authorization := Some (lit "Bearer " ++ combined);
                                 x_matter_access_token := None;
                                 x_matter_refresh_token := None |}
         = Some {| accessToken := awkward_token; refreshToken := lit "refresh" |}
      /\ round_trip no_form awkward_token (lit "refresh")
         = Some {| accessToken := awkward_token; refreshToken := lit "refresh" |}.
Proof.
  split; [discriminate|]. split; [discriminate|].
  split; [reflexivity|]. split; [reflexivity|].
  exact (round_trip_of_ascii_pair no_form awkward_token (lit "refresh")
                                  ltac:(discriminate) ltac:(discriminate)
                                  eq_refl eq_refl).
Defined.

(** *** The polling loop *)

Section Polling.

Variable URL : Type.
Variable new_URL : jsstring -> option URL.
Variable searchParams_set : URL -> jsstring -> jsstring -> URL.
Variable URL_toString : URL -> jsstring.
Variable exchange : nat -> ExchangeReply.
Variables sessionToken redirectUri state : jsstring.

Local Abbreviation once :=
  (poll_once URL new_URL searchParams_set URL_toString exchange
             sessionToken redirectUri state).
Local Abbreviation loop :=
  (poll_loop URL new_URL searchParams_set URL_toString exchange
             sessionToken redirectUri state).
Local Abbreviation destination := (destination URL searchParams_set URL_toString state).

(** An attempt that does not bring a complete pair polls once and does
    nothing else that counts. *)
Lemma poll_once_pending (i : nat) :
  complete_pair (exchange i) = None ->
  exists events,
    once i = (None, events)
    /\ polls events = 1%nat /\ sleeps events = [] /\ navigations events = 0%nat.
Proof.
  intros H. unfold poll_once. unfold complete_pair in H.
  destruct (exchange i) as [|[|] [data|]]; try (eexists; split; [reflexivity|]; auto).
  destruct (js_or (data_access_token data) (data_accessToken data)) as [[|a a1]|];
    try (eexists; split; [reflexivity|]; auto).
  destruct (js_or (data_refresh_token data) (data_refreshToken data)) as [[|r r1]|];
    try (eexists; split; [reflexivity|]; auto).
  discriminate.
Qed.

(** An attempt that brings a complete pair resolves the flow. *)
Lemma poll_once_complete (i : nat) (a r code : jsstring) (url : URL) :
  complete_pair (exchange i) = Some (a, r) ->
  authorization_code a r = Some code ->
  new_URL redirectUri = Some url ->
  once i = (Some (destination url code),
            [EvPoll sessionToken; EvStatus connected_html (lit "status success");
             EvNavigate (destination url code)]).
Proof.
  intros H Hcode Hurl. unfold poll_once, OAuth.destination. unfold complete_pair in H.
  destruct (exchange i) as [|[|] [data|]]; try discriminate.
  destruct (js_or (data_access_token data) (data_accessToken data)) as [[|a0 a1]|];
    try discriminate.
  destruct (js_or (data_refresh_token data) (data_refreshToken data)) as [[|r0 r1]|];
    try discriminate.
  injection H as <- <-. rewrite Hcode, Hurl. now destruct state.
Qed.

Lemma polls_app (x y : list Event) : polls (x ++ y) = (polls x + polls y)%nat.
Proof. unfold polls. now rewrite filter_app, length_app. Qed.

Lemma navigations_app (x y : list Event) :
  navigations (x ++ y) = (navigations x + navigations y)%nat.
Proof. unfold navigations. now rewrite filter_app, length_app. Qed.

Lemma sleeps_app (x y : list Event) : sleeps (x ++ y) = sleeps x ++ sleeps y.
Proof.
  induction x as [|e x IH]; [reflexivity|].
  destruct e; cbn; rewrite IH; reflexivity.
Qed.

(** The loop when no attempt brings a pair: it makes every attempt, pauses
    one second after each, and ends on the time-out message. *)
Lemma poll_loop_expires :
  forall (n i : nat),
    (forall j, (i <= j < i + n)%nat -> complete_pair (exchange j) = None) ->
    exists events,
      loop n i = (Expired, events ++ [EvStatus timed_out_html (lit "status error")])
      /\ polls events = n
      /\ sleeps events = repeat 1000 n
      /\ navigations events = 0%nat.
Proof.
  induction n as [|n IH]; intros i Hpending.
  - exists []. repeat split.
  - destruct (poll_once_pending i) as (first & Hfirst & Hp & Hs & Hn);
      [apply Hpending; lia|].
    destruct (IH (S i)) as (later & Hlater & Hp' & Hs' & Hn');
      [intros j Hj; apply Hpending; lia|].
    exists (first ++ EvSleep 1000 :: later).
    cbn [poll_loop]. rewrite Hfirst, Hlater.
    split; [now rewrite <- app_assoc|].
    rewrite polls_app, sleeps_app, navigations_app. cbn [sleeps].
    change (polls (EvSleep 1000 :: later)) with (polls later).
    change (navigations (EvSleep 1000 :: later)) with (navigations later).
    rewrite Hp, Hs, Hn, Hp', Hs', Hn'. repeat split.
Qed.

(** The loop when attempt [K + 1] is the first to bring a pair. *)
Lemma poll_loop_resolves (a r code : jsstring) (url : URL) :
  authorization_code a r = Some code ->
  new_URL redirectUri = Some url ->
  forall (K n i : nat),
    (K < n)%nat ->
    (forall j, (i <= j < i + K)%nat -> complete_pair (exchange j) = None) ->
    complete_pair (exchange (i + K)) = Some (a, r) ->
    exists before,
      loop n i
      = (Resolved (destination url code),
         before ++ [EvPoll sessionToken;
                    EvStatus connected_html (lit "status success");
                    EvNavigate (destination url code)])
      /\ polls before = K
      /\ sleeps before = repeat 1000 K
      /\ navigations before = 0%nat.
Proof.
  intros Hcode Hurl. induction K as [|K IH]; intros n i Hlt Hpending Hcomplete.
  - destruct n as [|n]; [lia|].
    rewrite Nat.add_0_r in Hcomplete.
    exists []. cbn [poll_loop].
    rewrite (poll_once_complete i a r code url Hcomplete Hcode Hurl).
    repeat split.
  - destruct n as [|n]; [lia|].
    destruct (poll_once_pending i) as (first & Hfirst & Hp & Hs & Hn);
      [apply Hpending; lia|].
    destruct (IH n (S i)) as (later & Hlater & Hp' & Hs' & Hn');
      [lia | intros j Hj; apply Hpending; lia
       | now replace (S i + K)%nat with (i + S K)%nat by lia |].
    exists (first ++ EvSleep 1000 :: later).
    cbn [poll_loop]. rewrite Hfirst, Hlater.
    split; [now rewrite <- app_assoc|].
    rewrite polls_app, sleeps_app, navigations_app. cbn [sleeps].
    change (polls (EvSleep 1000 :: later)) with (polls later).
    change (navigations (EvSleep 1000 :: later)) with (navigations later).
    rewrite Hp, Hs, Hn, Hp', Hs', Hn'. repeat split.
Qed.

(** C7, amended.  The page polls the exchange endpoint at most 120 times and
    pauses 1000 ms after every attempt that does not resolve the flow.  If
    the first [K] < 120 attempts bring no complete pair and attempt [K + 1]
    brings one, and if moreover [btoa] can encode the pair and the redirect
    URI is a URL, the page has polled [K] times and paused [K] times
    before, polls once more, navigates to the redirect URI with the code,
    and does nothing after that: one navigation, [K + 1] polls.  If none of the 120 attempts
    brings a complete pair, the page polls 120 times, pauses 120 times one
    second, and ends by showing the time-out message; it neither navigates
    nor throws. *)
Theorem pollForTokens_resolves_or_expires :
  let run := pollForTokens URL new_URL searchParams_set URL_toString exchange
                           sessionToken redirectUri state in
  (forall (K : nat) (a r code : jsstring) (url : URL),
      (K < 120)%nat ->
      (forall j, (j < K)%nat -> complete_pair (exchange j) = None) ->
      complete_pair (exchange K) = Some (a, r) ->
      authorization_code a r = Some code ->
      new_URL redirectUri = Some url ->
      exists before,
        run = (Resolved (destination url code),
               before ++ [EvPoll sessionToken;
                          EvStatus connected_html (lit "status success");
                          EvNavigate (destination url code)])
        /\ polls before = K
        /\ sleeps before = repeat 1000 K
        /\ navigations before = 0%nat
        /\ polls (snd run) = S K
        /\ navigations (snd run) = 1%nat)
  /\ ((forall j, (j < 120)%nat -> complete_pair (exchange j) = None) ->
      exists events,
        run = (Expired, events ++ [EvStatus timed_out_html (lit "status error")])
        /\ polls events = 120%nat
        /\ sleeps events = repeat 1000 120
        /\ navigations events = 0%nat
        /\ polls (snd run) = 120%nat
        /\ navigations (snd run) = 0%nat).
Proof.
  intros run. split.
  - intros K a r code url HK Hpending Hcomplete Hcode Hurl.
    destruct (poll_loop_resolves a r code url Hcode Hurl K 120 0 HK)
      as (before & Hrun & Hp & Hs & Hn);
      [intros j Hj; apply Hpending; lia | exact Hcomplete |].
    exists before. unfold run, pollForTokens. rewrite Hrun.
    split; [reflexivity|]. split; [exact Hp|]. split; [exact Hs|].
    split; [exact Hn|]. cbn [snd]. rewrite polls_app, navigations_app, Hp, Hn.
    split; [cbn; lia | reflexivity].
  - intros Hpending.
    destruct (poll_loop_expires 120 0) as (events & Hrun & Hp & Hs & Hn);
      [intros j Hj; apply Hpending; lia|].
    exists events. unfold run, pollForTokens. rewrite Hrun.
    split; [reflexivity|]. split; [exact Hp|]. split; [exact Hs|].
    split; [exact Hn|]. cbn [snd]. rewrite polls_app, navigations_app, Hp, Hn.
    split; reflexivity.
Qed.

End Polling.

Lemma pollForTokens_resolves_or_expires_witness :
  let scanned := scanned_after 2 (lit "access") (lit "refresh") in
  (2 < 120)%nat
  /\ (forall j, (j < 2)%nat -> complete_pair (scanned j) = None)
  /\ complete_pair (scanned 2%nat) = Some (lit "access", lit "refresh")
  /\ authorization_code (lit "access") (lit "refresh") = Some login_code
  /\ text_URL (lit "https://claude.ai/callback") = Some (lit "https://claude.ai/callback")
  /\ (exists before,
        login_page scanned
        = (Resolved login_destination,
           before ++ [EvPoll (lit "session-1");
                      EvStatus connected_html (lit "status success");
                      EvNavigate login_destination])
        /\ polls before = 2%nat
        /\ sleeps before = repeat 1000 2
        /\ navigations before = 0%nat
        /\ polls (snd (login_page scanned)) = 3%nat
        /\ navigations (snd (login_page scanned)) = 1%nat)
  /\ (forall j, (j < 120)%nat -> complete_pair (never_scanned j) = None)
  /\ (exists events,
        login_page never_scanned
        = (Expired, events ++ [EvStatus timed_out_html (lit "status error")])
        /\ polls events = 120%nat
        /\ sleeps events = repeat 1000 120
        /\ navigations events = 0%nat
        /\ polls (snd (login_page never_scanned)) = 120%nat
        /\ navigations (snd (login_page never_scanned)) = 0%nat).
Proof.
  cbv zeta.
  assert (Hfirst : forall j, (j < 2)%nat ->
                             complete_pair (scanned_after 2 (lit "access") (lit "refresh") j)
                             = None).
  { intros [|[|j]] Hj; [reflexivity | reflexivity | lia]. }
  assert (Hnever : forall j, (j < 120)%nat -> complete_pair (never_scanned j) = None).
  { intros j _. unfold never_scanned. destruct (Nat.even j); reflexivity. }
  split; [lia|]. split; [exact Hfirst|]. split; [reflexivity|].
  split; [reflexivity|]. split; [reflexivity|].
  split.
  - exact (proj1 (pollForTokens_resolves_or_expires
                    jsstring text_URL text_set (fun u => u)
                    (scanned_after 2 (lit "access") (lit "refresh"))
                    (lit "session-1") (lit "https://claude.ai/callback") (lit "xyz"))
                 2%nat (lit "access") (lit "refresh") login_code
                 (lit "https://claude.ai/callback")
                 ltac:(lia) Hfirst eq_refl eq_refl eq_refl).
  - split; [exact Hnever|].
    exact (proj2 (pollForTokens_resolves_or_expires
                    jsstring text_URL text_set (fun u => u) never_scanned
                    (lit "session-1") (lit "https://claude.ai/callback") (lit "xyz"))
                 Hnever).
Defined.

(** The two runs of the specification's test, evaluated. *)
Example login_page_runs :
  fst (login_page (scanned_after 7 (lit "access") (lit "refresh")))
  = Resolved login_destination
  /\ polls (snd (login_page (scanned_after 7 (lit "access") (lit "refresh")))) = 8%nat
  /\ sleeps (snd (login_page (scanned_after 7 (lit "access") (lit "refresh"))))
     = repeat 1000 7
  /\ fst (login_page never_scanned) = Expired
  /\ polls (snd (login_page never_scanned)) = 120%nat
  /\ fold_right N.add 0 (sleeps (snd (login_page never_scanned))) = 120000.
Proof. repeat split; vm_compute; reflexivity. Qed.

(** C7, as stated, fails.  The code and the destination are built inside
    the [try] of the loop.  When the redirect URI is not an absolute URL
    the [URL] constructor throws there, and when a token holds a character
    beyond U+00FF [btoa] throws there: the attempt that brings the complete
    pair then shows the success message, logs the error and resolves
    nothing, and the page polls on until it times out. *)
Lemma pollForTokens_unpackaged_pair_expires :
  let relative := pollForTokens jsstring text_URL text_set (fun u => u)
                                (scanned_after 0 (lit "access") (lit "refresh"))
                                (lit "session-1") (lit "/callback") (lit "xyz") in
  let euro := login_page (scanned_after 0 [8364] (lit "refresh")) in
  complete_pair (scanned_after 0 (lit "access") (lit "refresh") 0%nat)
  = Some (lit "access", lit "refresh")
  /\ fst relative = Expired
  /\ polls (snd relative) = 120%nat
  /\ navigations (snd relative) = 0%nat
  /\ complete_pair (scanned_after 0 [8364] (lit "refresh") 0%nat)
     = Some ([8364], lit "refresh")
  /\ fst euro = Expired
  /\ polls (snd euro) = 120%nat
  /\ navigations (snd euro) = 0%nat.
Proof. cbv zeta. repeat split; vm_compute; reflexivity. Qed.

End OAuthProofs.

(* ================================================================= *)
(** * Part III: further properties of the code *)
(* ================================================================= *)

(** ** The request executor and the token refresher *)

Lemma ok_is_not_401 (r : Response) : ok r = true -> (status r =? 401) = false.
Proof.
  unfold ok. intros H. apply andb_true_iff in H as [_ H].
  apply Z.leb_le in H. apply Z.eqb_neq. lia.
Qed.

Lemma error_kind_request_failed (reason : string) (code : Z) (body : option ErrorBody) :
  error_kind (MatterAPIError ("Request failed: " ++ reason) code body) = RequestFailed.
Proof. reflexivity. Qed.

(** [request] when the first answer is not a 401. *)
Lemma request_plain_unfold (w : World) (endpoint : string) (options : RequestInit)
      (r : Response) :
  let first := mk_request (request_url endpoint) options
                          (bearer_headers (accessToken w)) in
  provider w (fetched w) first = Resolves r ->
  (status r =? 401) = false ->
  request endpoint options w
  = (if ok r then
       match body_json r with
       | Some j => Returned j
       | None => Threw (JsError "SyntaxError" "Unexpected token in JSON")
       end
     else
       match body_json r with
       | Some j =>
         Threw (MatterAPIError ("Request failed: " ++ statusText r) (status r)
                               (Some (ErrJson j)))
       | None =>
         Threw (JsError "TypeError" "Body is unusable: Body has already been read")
       end,
     record_fetch first w).
Proof.
  intros first Hfirst H401.
  unfold request, bind at 1, get_accessToken.
  fold first. unfold bind at 1, fetch at 1. rewrite Hfirst, H401.
  destruct (ok r); cbn [negb].
  - unfold response_json. destruct (body_json r); reflexivity.
  - unfold bind, try_catch, response_json, response_text, ret, throw.
    destruct (body_json r); reflexivity.
Qed.



(** The two runs, evaluated: an error answer with a JSON body, and one with
    a text body, whose status does not reach the caller. *)
Example request_failed_runs :
  fst (request "/library_items/queue_feed/" no_init
         (new_MatterClient Mock.stale_pair None
            (Mock.constant_provider
               (Mock.json_error_response 503 "Service Unavailable"
                                         (JOther "maintenance")))))
  = Threw (MatterAPIError "Request failed: Service Unavailable" 503
                          (Some (ErrJson (JOther "maintenance"))))
  /\ fst (request "/library_items/queue_feed/" no_init
            (new_MatterClient Mock.stale_pair None
               (Mock.constant_provider
                  (Mock.error_response 503 "Service Unavailable"))))
     = Threw (JsError "TypeError" "Body is unusable: Body has already been read").
Proof. split; reflexivity. Qed.

Ltac refresh_refused Hfailed Hcases Hlog2 :=
  let c := fresh "c" in
  let w' := fresh "w'" in
  let Hrun := fresh "Hrun" in
  let Hp := fresh "Hp" in
  let Hshape := fresh "Hshape" in
  let H := fresh "H" in
  destruct (Hfailed _ Hcases) as (c & w' & Hrun & Hp & Hshape);
  [cbn; exact Hlog2 | reflexivity |];
  exists c, w'; split; [exact Hrun|]; split; [exact Hp|];
  destruct Hshape as [H|[H|[]]]; [left; exact H | right; left; exact H].

(** The calls of one [request], for any provider. *)
Lemma request_call_shapes
        (w : World) (endpoint : string) (options : RequestInit) :
  let url := request_url endpoint in
  let first := mk_request url options (bearer_headers (accessToken w)) in
  let refresh := refresh_request (refreshToken w) in
  exists c w',
    request endpoint options w = (c, w')
    /\ provider w' = provider w
    /\ (fetched w' = (fetched w ++ [first])%list
        \/ (fetched w' = (fetched w ++ [first; refresh])%list
            /\ (exists r, provider w (fetched w) first = Resolves r /\ status r = 401)
            /\ c = Threw (MatterAPIError "Authentication failed" 401 None))
        \/ (fetched w'
            = (fetched w ++ [first; refresh;
                             mk_request url options (bearer_headers (accessToken w'))])%list
            /\ (exists r, provider w (fetched w) first = Resolves r /\ status r = 401)
            /\ (exists rr, provider w (fetched w ++ [first])%list refresh = Resolves rr
                            /\ ok rr = true))).
Proof.
  intros url first refresh.
  destruct (provider w (fetched w) first) as [r|reason] eqn:Hfirst.
  2:{ exists (Threw (JsError "TypeError" reason)), (record_fetch first w).
      split; [|split; [reflexivity | left; reflexivity]].
      unfold request, bind at 1, get_accessToken. fold url. fold first.
      unfold bind at 1, fetch at 1. now rewrite Hfirst. }
  destruct (status r =? 401) eqn:H401.
  - apply Z.eqb_eq in H401.
    pose proof (request_401_unfold w endpoint options r Hfirst H401) as Hreq.
    cbn zeta in Hreq. fold url in Hreq. fold first in Hreq.
    pose proof (refreshAccessToken_cases (record_fetch first w)) as Hcases.
    cbn zeta in Hcases.
    change (refreshToken (record_fetch first w)) with (refreshToken w) in Hcases.
    change (provider (record_fetch first w)) with (provider w) in Hcases.
    change (fetched (record_fetch first w)) with (fetched w ++ [first])%list in Hcases.
    change (onTokenRefresh (record_fetch first w)) with (onTokenRefresh w) in Hcases.
    fold refresh in Hcases.
    assert (Hlog2 : ((fetched w ++ [first]) ++ [refresh]
                     = fetched w ++ [first; refresh])%list)
      by now rewrite <- app_assoc.
    assert (Hfailed : forall w2,
               refreshAccessToken (record_fetch first w) = (Returned false, w2) ->
               fetched w2 = (fetched w ++ [first; refresh])%list ->
               provider w2 = provider w ->
               exists c w',
                 request endpoint options w = (c, w')
                 /\ provider w' = provider w
                 /\ (fetched w' = (fetched w ++ [first])%list
                     \/ (fetched w' = (fetched w ++ [first; refresh])%list
                         /\ (exists r0, Resolves r = Resolves r0 /\ status r0 = 401)
                         /\ c = Threw (MatterAPIError "Authentication failed" 401 None))
                     \/ False)).
    { intros w2 Hr Hf Hp. exists (Threw (MatterAPIError "Authentication failed" 401 None)), w2.
      rewrite Hreq, Hr. split; [reflexivity|]. split; [exact Hp|].
      right. left. split; [exact Hf|]. split; [exists r; auto | reflexivity]. }
    assert (Hretried : forall w2,
               refreshAccessToken (record_fetch first w) = (Returned true, w2) ->
               fetched w2 = (fetched w ++ [first; refresh])%list ->
               provider w2 = provider w ->
               exists c w',
                 request endpoint options w = (c, w')
                 /\ provider w' = provider w
                 /\ fetched w'
                    = (fetched w ++ [first; refresh;
                                     mk_request url options
                                                (bearer_headers (accessToken w'))])%list).
    { intros w2 Hr Hf Hp. rewrite Hreq, Hr. cbn zeta.
      set (retry := mk_request url options (bearer_headers (accessToken w2))).
      assert (Hlog3 : fetched (record_fetch retry w2)
                      = (fetched w ++ [first; refresh; retry])%list)
        by (cbn; rewrite Hf, <- app_assoc; reflexivity).
      destruct (provider w2 (fetched w2) retry) as [r2|reason2].
      - destruct (ok r2); [destruct (body_json r2)|];
          (eexists _, (record_fetch retry w2); split; [reflexivity|];
           split; [exact Hp | exact Hlog3]).
      - eexists _, (record_fetch retry w2). split; [reflexivity|].
        split; [exact Hp | exact Hlog3]. }
    destruct (provider w (fetched w ++ [first])%list refresh) as [rr|reason] eqn:Hprov.
    2: refresh_refused Hfailed Hcases Hlog2.
    destruct (ok rr) eqn:Hok.
    2: refresh_refused Hfailed Hcases Hlog2.
    destruct (body_json rr) as [[fr|d|sv|raw]|] eqn:Hbody;
      try refresh_refused Hfailed Hcases Hlog2.
    cbn zeta in Hcases.
    destruct (onTokenRefresh w) as [f|].
    + destruct (f _).
      * destruct (Hretried _ Hcases) as (c & w' & Hrun & Hp & Hlog);
          [cbn; exact Hlog2 | reflexivity |].
        exists c, w'. split; [exact Hrun|]. split; [exact Hp|].
        right. right. split; [exact Hlog|]. split; [exists r; auto | exists rr; auto].
      * refresh_refused Hfailed Hcases Hlog2.
    + destruct (Hretried _ Hcases) as (c & w' & Hrun & Hp & Hlog);
        [cbn; exact Hlog2 | reflexivity |].
      exists c, w'. split; [exact Hrun|]. split; [exact Hp|].
      right. right. split; [exact Hlog|]. split; [exists r; auto | exists rr; auto].
  - rewrite (request_plain_unfold w endpoint options r Hfirst H401).
    eexists _, _. split; [reflexivity|]. split; [reflexivity|]. left. reflexivity.
Qed.

(** X2.  Whatever the provider does, one [request] makes between one and
    three calls, in this order: the original call, then (only after a 401)
    one call of the refresh endpoint, then (only after a refresh that
    that was answered 2xx) one repetition of the original call.  It never calls the
    refresh endpoint twice and never repeats the original call twice. *)
Theorem request_makes_at_most_three_calls
        (w : World) (endpoint : string) (options : RequestInit) :
  let url := request_url endpoint in
  let first := mk_request url options (bearer_headers (accessToken w)) in
  let refresh := refresh_request (refreshToken w) in
  exists c w',
    request endpoint options w = (c, w')
    /\ provider w' = provider w
    /\ (fetched w' = (fetched w ++ [first])%list
        \/ (fetched w' = (fetched w ++ [first; refresh])%list
            /\ (exists r, provider w (fetched w) first = Resolves r /\ status r = 401)
            /\ c = Threw (MatterAPIError "Authentication failed" 401 None))
        \/ (fetched w'
            = (fetched w ++ [first; refresh;
                             mk_request url options (bearer_headers (accessToken w'))])%list
            /\ (exists r, provider w (fetched w) first = Resolves r /\ status r = 401)
            /\ (exists rr, provider w (fetched w ++ [first])%list refresh = Resolves rr
                            /\ ok rr = true))).
Proof. exact (request_call_shapes w endpoint options). Qed.

(** X3.  [refreshAccessToken] never throws and makes exactly one call, of
    the refresh endpoint with the refresh token it holds.  It replaces the
    pair as a whole or not at all: when the endpoint grants a pair, both
    tokens are the granted ones, and the observer, if there is one, is
    called once with exactly that pair; when the call is rejected, is
    answered outside 2xx or has no parsable body, the result is [false],
    both tokens are the old ones and the observer is not called. *)
Theorem refreshAccessToken_replaces_both_or_none (w : World) :
  let req := refresh_request (refreshToken w) in
  exists b w',
    refreshAccessToken w = (Returned b, w')
    /\ fetched w' = (fetched w ++ [req])%list
    /\ (forall d, granted (provider w (fetched w) req) = Some d ->
                  accessToken w' = access_token d
                  /\ refreshToken w' = refresh_token d
                  /\ (onTokenRefresh w = None -> b = true /\ notified w' = notified w)
                  /\ (onTokenRefresh w <> None ->
                      notified w'
                      = (notified w ++ [mkTokens (access_token d) (refresh_token d)])%list))
    /\ ((forall r, provider w (fetched w) req = Resolves r ->
                   ok r = false \/ body_json r = None) ->
        b = false /\ accessToken w' = accessToken w
        /\ refreshToken w' = refreshToken w /\ notified w' = notified w).
Proof.
  intros req. rewrite refreshAccessToken_cases. cbn zeta. fold req. unfold granted.
  destruct (provider w (fetched w) req) as [r|reason].
  2:{ eexists _, _. split; [reflexivity|]. split; [reflexivity|].
      split; [discriminate|]. intros _. repeat split. }
  destruct (ok r) eqn:Hok.
  2:{ eexists _, _. split; [reflexivity|]. split; [reflexivity|].
      split; [discriminate|]. intros _. repeat split. }
  destruct (body_json r) as [[fr|d|sv|raw]|] eqn:Hbody.
  2:{ destruct (onTokenRefresh w) as [f|] eqn:Hobs.
      - destruct (f _); (eexists _, _; split; [reflexivity|]; split; [reflexivity|];
          split; [intros d' [= <-]; split; [reflexivity|]; split; [reflexivity|];
                  split; [discriminate | reflexivity]
                 | intros H; destruct (H r eq_refl); congruence]).
      - eexists _, _. split; [reflexivity|]. split; [reflexivity|].
        split; [intros d' [= <-]; split; [reflexivity|]; split; [reflexivity|];
                split; [split; reflexivity | congruence]
               | intros H; destruct (H r eq_refl); congruence]. }
  all: eexists _, _; (split; [reflexivity|]); (split; [reflexivity|]);
    (split; [discriminate|]); intros H; try (destruct (H r eq_refl); congruence);
    repeat split.
Qed.

(** ** Saving an article and the QR login calls *)

(** X4.  [saveArticle] goes through the request executor with an absolute
    URL: its first call is a POST of the article's URL and the user agent
    to https://web.getmatter.com/api/save, not to a path under the API
    base, with the bearer token of the client.  A 401 is handled as for any
    request: the only further calls are one refresh and, after it, one
    repetition of the same POST with the token then held.  A 2xx answer
    with ids is returned as it is. *)
Theorem saveArticle_posts_to_absolute_url (w : World) (url : string) :
  let first := save_request (accessToken w) url in
  req_url first = "https://web.getmatter.com/api/save"
  /\ String.prefix API_BASE (req_url first) = false
  /\ exists c w',
      saveArticle url w = (c, w')
      /\ (fetched w' = (fetched w ++ [first])%list
          \/ fetched w' = (fetched w ++ [first; refresh_request (refreshToken w)])%list
          \/ fetched w' = (fetched w ++ [first; refresh_request (refreshToken w);
                                         save_request (accessToken w') url])%list)
      /\ (forall r sv, provider w (fetched w) first = Resolves r ->
                       ok r = true -> body_json r = Some (JSave sv) ->
                       c = Returned sv /\ w' = record_fetch first w).
Proof.
  intros first. split; [reflexivity|]. split; [reflexivity|].
  pose proof (request_call_shapes w "https://web.getmatter.com/api/save"
                {| init_method := Some "POST";
                   init_body := Some [("url", url);
                                      ("user_agent", "Matter MCP Server/1.0")] |})
    as (c & w' & Hrun & _ & Hshape).
  cbn zeta in Hshape.
  change (mk_request (request_url "https://web.getmatter.com/api/save")
            {| init_method := Some "POST";
               init_body := Some [("url", url);
                                  ("user_agent", "Matter MCP Server/1.0")] |}
            (bearer_headers (accessToken w))) with first in Hshape.
  assert (Hworld : exists c', saveArticle url w = (c', w')
                              /\ (forall sv, c = Returned (JSave sv) -> c' = Returned sv)).
  { unfold saveArticle, bind. rewrite Hrun.
    destruct c as [[fr|d|sv|raw]| |]; cbn; eexists; split; try reflexivity;
      intros sv' [=]; congruence. }
  destruct Hworld as (c' & Hsave & Hret).
  exists c', w'. split; [exact Hsave|]. split.
  - destruct Hshape as [H|[(H & _)|(H & _)]]; auto.
  - intros r sv Hfirst Hok Hbody.
    pose proof (request_plain_unfold w "https://web.getmatter.com/api/save"
                  {| init_method := Some "POST";
                     init_body := Some [("url", url);
                                        ("user_agent", "Matter MCP Server/1.0")] |}
                  r Hfirst (ok_is_not_401 r Hok)) as Hplain.
    rewrite Hok, Hbody, Hrun in Hplain. injection Hplain as -> ->.
    split; [apply Hret; reflexivity | reflexivity].
Qed.

(** X5.  The two static QR login calls do not go through the request
    executor: each makes exactly one call, which carries no [Authorization]
    header, and leaves the client's token pair and observer alone.  An
    answer outside 2xx, a 401 included, is not followed by a refresh; it is
    thrown with the status of the answer, a fixed message and no body, and
    so is never an [AuthExpired] error. *)
Theorem qr_login_calls_are_single_and_unauthenticated (w : World) (sessionToken : string) :
  (exists c1, triggerQRLogin w = (c1, record_fetch trigger_request w)
              /\ forall r, provider w (fetched w) trigger_request = Resolves r ->
                           ok r = false ->
                           c1 = Threw (MatterAPIError "Failed to initiate QR login"
                                                      (status r) None))
  /\ (exists c2, exchangeQRToken sessionToken w
                 = (c2, record_fetch (exchange_request sessionToken) w)
                 /\ forall r, provider w (fetched w) (exchange_request sessionToken)
                              = Resolves r ->
                              ok r = false ->
                              c2 = Threw (MatterAPIError "Failed to exchange QR token"
                                                         (status r) None))
  /\ (forall q, q = trigger_request \/ q = exchange_request sessionToken ->
                forall h, In h (req_headers q) -> fst h <> "Authorization")
  /\ (forall code, error_kind (MatterAPIError "Failed to initiate QR login" code None)
                   = RequestFailed
                   /\ error_kind (MatterAPIError "Failed to exchange QR token" code None)
                      = RequestFailed).
Proof.
  split; [|split; [|split]].
  - unfold triggerQRLogin, bind, fetch.
    destruct (provider w (fetched w) trigger_request) as [r|reason].
    + destruct (ok r) eqn:Hok; cbn.
      * unfold response_json. destruct (body_json r); eexists; (split; [reflexivity|]);
          intros r' [= <-]; congruence.
      * eexists. split; [reflexivity|]. now intros r' [= <-] _.
    + eexists. split; [reflexivity|]. discriminate.
  - unfold exchangeQRToken, bind, fetch.
    destruct (provider w (fetched w) (exchange_request sessionToken)) as [r|reason].
    + destruct (ok r) eqn:Hok; cbn.
      * unfold response_json. destruct (body_json r); eexists; (split; [reflexivity|]);
          intros r' [= <-]; congruence.
      * eexists. split; [reflexivity|]. now intros r' [= <-] _.
    + eexists. split; [reflexivity|]. discriminate.
  - intros q [-> | ->] h [<- | []]; discriminate.
  - intros code. split; reflexivity.
Qed.

(** ** The paginator in front of any provider *)

(** What the loop of [getArticles] returns, whatever the provider answers:
    never more than [limit] items, a cursor only together with exactly
    [limit] items, and past page 1 the counts it was given. *)
Lemma getArticles_loop_returns (ts : string) (limit : Z) :
  forall (fuel : nat) (acc : list FeedEntry) (page : Z) (hasMore : bool)
         (qc ac : option Z) (w w' : World) (res : ArticlesResult),
    Z.of_nat (List.length acc) <= limit ->
    getArticles_loop fuel ts limit acc page hasMore qc ac w = (Returned res, w') ->
    Z.of_nat (List.length (articles res)) <= limit
    /\ (nextUrl res <> None -> Z.of_nat (List.length (articles res)) = limit)
    /\ (1 < page -> queueCount res = qc /\ archiveCount res = ac).
Proof.
  induction fuel as [|fuel IH]; intros acc page hasMore qc ac w w' res Hacc Hrun;
    cbn [getArticles_loop] in Hrun;
    destruct (hasMore && (Z.of_nat (List.length acc) <? limit)) eqn:Hguard.
  - discriminate.
  - injection Hrun as <- <-. cbn [articles nextUrl queueCount archiveCount].
    split; [exact Hacc|]. split; [congruence | auto].
  - apply andb_true_iff in Hguard as [_ Hlt]. apply Z.ltb_lt in Hlt.
    unfold bind at 1 in Hrun.
    destruct (request (feed_endpoint ts page) no_init w) as [[j|e|] w1];
      try discriminate.
    unfold bind at 1 in Hrun.
    destruct j as [p|d|sv|raw]; cbn [as_feed ret throw] in Hrun; try discriminate.
    destruct (Z.of_nat (List.length (acc ++ feed p)) >=? limit) eqn:Hfull.
    + injection Hrun as <- <-. cbn [articles nextUrl queueCount archiveCount].
      rewrite Z.geb_leb in Hfull. apply Z.leb_le in Hfull.
      rewrite slice0_positive by lia. rewrite length_firstn.
      split; [lia|]. split; [lia|].
      intros Hpage. replace (page =? 1) with false by (symmetry; apply Z.eqb_neq; lia).
      auto.
    + rewrite Z.geb_leb in Hfull. apply Z.leb_gt in Hfull.
      destruct (IH _ _ _ _ _ _ _ _ (Z.lt_le_incl _ _ Hfull) Hrun)
        as (Hlen & Hcursor & Hcounts).
      split; [exact Hlen|]. split; [exact Hcursor|].
      intros Hpage.
      replace (page =? 1) with false in Hcounts by (symmetry; apply Z.eqb_neq; lia).
      apply Hcounts. lia.
  - injection Hrun as <- <-. cbn [articles nextUrl queueCount archiveCount].
    split; [exact Hacc|]. split; [congruence | auto].
Qed.

(** [getArticles] never returns more than its limit. *)
Lemma getArticles_returns_bounded
        (fuel : nat) (options : option ArticlesOptions) (w : World)
        (res : ArticlesResult) :
  fst (getArticles fuel options w) = Returned res ->
  Z.of_nat (List.length (articles res)) <= Z.max 0 (effective_limit options)
  /\ (nextUrl res <> None ->
      Z.of_nat (List.length (articles res)) = effective_limit options).
Proof.
  unfold getArticles. fold (effective_limit options).
  set (limit := effective_limit options).
  intros Hrun.
  destruct (getArticles_loop fuel _ limit [] _ true None None w) as [c w'] eqn:Hloop.
  cbn [fst] in Hrun. subst c.
  destruct (Z.le_gt_cases 0 limit) as [Hpos|Hneg].
  - destruct (getArticles_loop_returns _ limit _ [] _ _ _ _ _ _ _ Hpos Hloop)
      as (Hlen & Hcursor & _).
    split; [lia | exact Hcursor].
  - assert (Hguard : (Z.of_nat (List.length (@nil FeedEntry)) <? limit) = false)
      by (apply Z.ltb_ge; cbn; lia).
    destruct fuel; cbn [getArticles_loop andb] in Hloop; rewrite Hguard in Hloop;
      injection Hloop as <- <-; cbn [articles nextUrl List.length];
      (split; [lia | congruence]).
Qed.

(** X6.  Whatever the provider answers, a call of [getArticles] that
    returns never returns more items than the limit it works with (the
    given one, 100 when it is absent or 0), and it exposes a cursor only
    together with exactly that many items: a result shorter than the limit
    always has an absent cursor. *)
Theorem getArticles_never_exceeds_limit
        (fuel : nat) (options : option ArticlesOptions) (w : World)
        (res : ArticlesResult) :
  fst (getArticles fuel options w) = Returned res ->
  Z.of_nat (List.length (articles res)) <= Z.max 0 (effective_limit options)
  /\ (nextUrl res <> None ->
      Z.of_nat (List.length (articles res)) = effective_limit options).
Proof. exact (getArticles_returns_bounded fuel options w res). Qed.

Lemma getArticles_never_exceeds_limit_witness :
  let res := {| articles := [Mock.entry "a" 1; Mock.entry "b" 2];
                nextUrl := Some "c1"; queueCount := None; archiveCount := None |} in
  fst (getArticles 3 (Mock.limit_only 2) (Mock.feed_client Mock.three_pages))
  = Returned res
  /\ Z.of_nat (List.length (articles res)) <= Z.max 0 (effective_limit (Mock.limit_only 2))
  /\ (nextUrl res <> None ->
      Z.of_nat (List.length (articles res)) = effective_limit (Mock.limit_only 2)).
Proof.
  cbv zeta. split; [vm_compute; reflexivity|].
  exact (getArticles_never_exceeds_limit
           3 (Mock.limit_only 2) (Mock.feed_client Mock.three_pages)
           {| articles := [Mock.entry "a" 1; Mock.entry "b" 2];
              nextUrl := Some "c1"; queueCount := None; archiveCount := None |}
           eq_refl).
Defined.

(** X7.  The counts of the library in the result of [getArticles] are those
    of the answer to page 1 and of no other page: a traversal that starts
    past page 1 returns absent counts whatever the pages carry, and a
    traversal that starts at page 1 returns the counts of its first answer,
    however many pages it reads after it. *)
Theorem getArticles_counts_come_from_page_one
        (fuel : nat) (options : option ArticlesOptions) (w : World)
        (res : ArticlesResult) :
  fst (getArticles fuel options w) = Returned res ->
  (1 < start_page options -> queueCount res = None /\ archiveCount res = None)
  /\ (start_page options = 1 -> 0 < effective_limit options ->
      forall p w1,
        request (feed_endpoint (effective_timestamp options) 1) no_init w
        = (Returned (JFeed p), w1) ->
        queueCount res = queue_count p /\ archiveCount res = archive_count p).
Proof.
  unfold getArticles.
  fold (effective_limit options) (start_page options) (effective_timestamp options).
  set (limit := effective_limit options). set (ts := effective_timestamp options).
  set (page := start_page options).
  intros Hrun.
  destruct (getArticles_loop fuel ts limit [] page true None None w) as [c w'] eqn:Hloop.
  cbn [fst] in Hrun. subst c. split.
  - intros Hpage. destruct (Z.le_gt_cases 0 limit) as [Hpos|Hneg].
    + now destruct (getArticles_loop_returns ts limit _ [] _ _ _ _ _ _ _ Hpos Hloop)
        as (_ & _ & Hcounts); apply Hcounts.
    + assert (Hguard : (Z.of_nat (List.length (@nil FeedEntry)) <? limit) = false)
        by (apply Z.ltb_ge; cbn; lia).
      destruct fuel; cbn [getArticles_loop andb] in Hloop; rewrite Hguard in Hloop;
        injection Hloop as <- <-; split; reflexivity.
  - intros Hpage Hpos p w1 Hreq. rewrite Hpage in Hloop.
    destruct fuel as [|fuel].
    { cbn [getArticles_loop andb List.length] in Hloop.
      replace (Z.of_nat 0 <? limit) with true in Hloop
        by (symmetry; apply Z.ltb_lt; cbn; lia).
      discriminate. }
    rewrite (getArticles_loop_step fuel ts limit [] 1 None None w w1 p Hreq Hpos)
      in Hloop.
    cbn [Z.eqb Pos.eqb] in Hloop.
    destruct (Z.of_nat (List.length ([] ++ feed p)%list) >=? limit) eqn:Hfull.
    + injection Hloop as <- <-. split; reflexivity.
    + rewrite Z.geb_leb in Hfull. apply Z.leb_gt in Hfull.
      destruct (getArticles_loop_returns ts limit _ _ _ _ _ _ _ _ _
                                         (Z.lt_le_incl _ _ Hfull) Hloop)
        as (_ & _ & Hcounts).
      apply Hcounts. lia.
Qed.

Lemma getArticles_counts_come_from_page_one_witness :
  let w := Mock.feed_client Mock.counted_pages in
  let res := {| articles := [Mock.entry "a" 1; Mock.entry "b" 2]; nextUrl := None;
                queueCount := Some 5; archiveCount := Some 9 |} in
  fst (getArticles 2 None w) = Returned res
  /\ (1 < start_page None -> queueCount res = None /\ archiveCount res = None)
  /\ (start_page None = 1 -> 0 < effective_limit None ->
      forall p w1,
        request (feed_endpoint (effective_timestamp None) 1) no_init w
        = (Returned (JFeed p), w1) ->
        queueCount res = queue_count p /\ archiveCount res = archive_count p).
Proof.
  cbv zeta. split; [vm_compute; reflexivity|].
  exact (getArticles_counts_come_from_page_one
           2 None (Mock.feed_client Mock.counted_pages)
           {| articles := [Mock.entry "a" 1; Mock.entry "b" 2]; nextUrl := None;
              queueCount := Some 5; archiveCount := Some 9 |}
           eq_refl).
Defined.

(** X8.  The options of [getArticles] are read with [||]: a limit or a page
    of 0 and an empty timestamp are replaced by the defaults (100, 1 and
    the 1970 timestamp), as absent ones are.  A negative limit is not
    replaced: the loop is never entered, no request is made and the result
    is empty with no cursor, whatever the page and the timestamp. *)
Theorem getArticles_negative_limit_reads_nothing
        (fuel : nat) (limit page : Z) (afterTimestamp : string) (w : World) :
  limit < 0 ->
  getArticles fuel (Mock.with_options limit page afterTimestamp) w
  = (Returned {| articles := []; nextUrl := None;
                 queueCount := None; archiveCount := None |}, w)
  /\ getArticles fuel (Mock.with_options 0 0 "") w = getArticles fuel None w
  /\ effective_limit (Mock.with_options 0 page afterTimestamp) = 100.
Proof.
  intros Hneg. split; [|split; reflexivity].
  unfold getArticles, Mock.with_options. cbn [opt_limit opt_page opt_afterTimestamp].
  assert (Hlimit : Js.number_or (Some limit) 100 = limit).
  { unfold Js.number_or. destruct (limit =? 0) eqn:E; [apply Z.eqb_eq in E; lia|].
    reflexivity. }
  rewrite Hlimit.
  assert (Hguard : (Z.of_nat (List.length (@nil FeedEntry)) <? limit) = false)
    by (apply Z.ltb_ge; cbn; lia).
  destruct fuel; cbn [getArticles_loop andb]; rewrite Hguard; reflexivity.
Qed.

Lemma getArticles_negative_limit_reads_nothing_witness :
  let w := Mock.feed_client Mock.three_pages in
  -1 < 0
  /\ getArticles 0 (Mock.with_options (-1) 1 "") w
     = (Returned {| articles := []; nextUrl := None;
                    queueCount := None; archiveCount := None |}, w)
  /\ getArticles 0 (Mock.with_options 0 0 "") w = getArticles 0 None w
  /\ effective_limit (Mock.with_options 0 1 "") = 100.
Proof.
  cbv zeta. split; [lia|].
  exact (getArticles_negative_limit_reads_nothing
           0 (-1) 1 "" (Mock.feed_client Mock.three_pages) eq_refl).
Defined.

(** X9.  The [page] option moves the start of the traversal: in front of a
    served feed, [getArticles] from page k+1 on requests the pages k+1,
    k+2, ... only, returns the items of those pages and none of the pages
    before them, and, unless it starts at page 1, returns no counts. *)
Theorem getArticles_starts_at_given_page
        (pages : list FeedResponse) (k : nat) (limit : Z) (w : World) (fuel : nat) :
  let rest := skipn k pages in
  provider w = Mock.feed_provider default_timestamp pages ->
  Mock.linked rest = true ->
  Mock.closed rest = true ->
  (List.length rest <= fuel)%nat ->
  Z.of_nat (List.length (Mock.items rest)) < limit ->
  exists res w',
    getArticles fuel (Mock.from_page (Z.of_nat (S k)) limit) w = (Returned res, w')
    /\ articles res = Mock.items rest
    /\ nextUrl res = None
    /\ fetched w'
       = (fetched w ++ map (Mock.page_request default_timestamp (accessToken w))
                           (seq (S k) (List.length rest)))%list
    /\ ((0 < k)%nat -> queueCount res = None /\ archiveCount res = None).
Proof.
  intros rest Hp Hlinked Hclosed Hfuel Hbelow.
  assert (Hstart : getArticles fuel (Mock.from_page (Z.of_nat (S k)) limit) w
                   = getArticles_loop fuel default_timestamp limit [] (Z.of_nat (S k))
                                      true None None w).
  { unfold getArticles, Mock.from_page. cbn [opt_limit opt_page opt_afterTimestamp].
    unfold Js.number_or, Js.string_or.
    destruct (limit =? 0) eqn:E; [apply Z.eqb_eq in E; lia|].
    destruct (Z.of_nat (S k) =? 0) eqn:E'; [apply Z.eqb_eq in E'; lia|].
    reflexivity. }
  destruct (getArticles_loop_all pages limit rest k w fuel [] None None
                                 Hp eq_refl Hlinked Hclosed Hfuel Hbelow)
    as (res & w' & Hrun & Hart & Hnone & Hlog).
  exists res, w'. rewrite Hstart. split; [exact Hrun|]. split; [exact Hart|].
  split; [exact Hnone|]. split; [exact Hlog|].
  intros Hk.
  assert (Hpos : 0 <= limit) by lia.
  destruct (getArticles_loop_returns default_timestamp limit _ [] _ _ _ _ _ _ _ Hpos Hrun)
    as (_ & _ & Hcounts).
  apply Hcounts. lia.
Qed.

Lemma getArticles_starts_at_given_page_witness :
  let pages := Mock.counted_pages in
  let w := Mock.feed_client pages in
  let rest := skipn 1 pages in
  provider w = Mock.feed_provider default_timestamp pages
  /\ Mock.linked rest = true
  /\ Mock.closed rest = true
  /\ (List.length rest <= 1)%nat
  /\ Z.of_nat (List.length (Mock.items rest)) < 10
  /\ exists res w',
      getArticles 1 (Mock.from_page (Z.of_nat 2) 10) w = (Returned res, w')
      /\ articles res = Mock.items rest
      /\ nextUrl res = None
      /\ fetched w'
         = (fetched w ++ map (Mock.page_request default_timestamp (accessToken w))
                             (seq 2 (List.length rest)))%list
      /\ ((0 < 1)%nat -> queueCount res = None /\ archiveCount res = None).
Proof.
  cbv zeta. split; [reflexivity|]. split; [reflexivity|]. split; [reflexivity|].
  split; [cbn; lia|]. split; [reflexivity|].
  exact (getArticles_starts_at_given_page
           Mock.counted_pages 1 10 (Mock.feed_client Mock.counted_pages) 1%nat
           eq_refl eq_refl eq_refl (le_n 1) eq_refl).
Defined.

(** ** The locator in front of any provider *)

Lemma getArticle_loop_sound (articleId : string) (numericId : option Z) :
  forall (fuel : nat) (page : Z) (w : World) (e : FeedEntry),
    fst (getArticle_loop fuel articleId numericId page w) = Returned (Some e) ->
    entry_matches articleId numericId e = true.
Proof.
  induction fuel as [|fuel IH]; intros page w e Hrun; [discriminate|].
  cbn [getArticle_loop] in Hrun. unfold bind at 1 in Hrun.
  destruct (request (feed_endpoint default_timestamp page) no_init w) as [[j|x|] w1];
    try discriminate.
  unfold bind at 1 in Hrun.
  destruct j as [p|d|sv|raw]; cbn [as_feed ret throw] in Hrun; try discriminate.
  destruct (find (entry_matches articleId numericId) (feed p)) as [found|] eqn:Hfind.
  - cbn in Hrun. injection Hrun as <-. now apply find_some in Hfind.
  - destruct (next p); [now apply IH in Hrun | discriminate].
Qed.

(** X10.  Whatever the provider answers, an entry that [getArticle] returns
    matches the identifier asked for by one of the three comparisons of the
    code: its string identifier is the identifier, or its content
    identifier is the number that [parseInt] reads from the identifier, or
    the decimal form of its content identifier is the identifier.  The
    locator never returns an entry for any other reason. *)
Theorem getArticle_returns_only_matches
        (fuel : nat) (articleId : string) (w : World) (e : FeedEntry) :
  fst (getArticle fuel articleId w) = Returned (Some e) ->
  entry_id e = articleId
  \/ Js.parseInt articleId = Some (content_id (entry_content e))
  \/ Js.String_of_number (content_id (entry_content e)) = articleId.
Proof.
  intros Hrun. apply getArticle_loop_sound in Hrun.
  unfold entry_matches in Hrun.
  apply orb_true_iff in Hrun as [Hrun|Hrun];
    [apply orb_true_iff in Hrun as [Hrun|Hrun]|].
  - left. now apply String.eqb_eq.
  - right. left. unfold Js.number_eq in Hrun.
    destruct (Js.parseInt articleId) as [n|]; [|discriminate].
    apply Z.eqb_eq in Hrun. now subst.
  - right. right. now apply String.eqb_eq.
Qed.

Lemma getArticle_returns_only_matches_witness :
  fst (getArticle 3 "2" (Mock.feed_client Mock.three_pages))
  = Returned (Some (Mock.entry "b" 2))
  /\ (entry_id (Mock.entry "b" 2) = "2"
      \/ Js.parseInt "2" = Some (content_id (entry_content (Mock.entry "b" 2)))
      \/ Js.String_of_number (content_id (entry_content (Mock.entry "b" 2))) = "2").
Proof.
  split; [vm_compute; reflexivity|].
  exact (getArticle_returns_only_matches
           3 "2" (Mock.feed_client Mock.three_pages) (Mock.entry "b" 2) eq_refl).
Defined.

Lemma find_present {A} (f : A -> bool) (l : list A) (x : A) :
  In x l -> f x = true -> exists y, find f l = Some y.
Proof.
  intros Hin Hx. destruct (find f l) as [y|] eqn:Hfind; [eauto|].
  rewrite (find_none f l Hfind x Hin) in Hx. discriminate.
Qed.

Lemma find_only {A} (f : A -> bool) (l : list A) (x : A) :
  In x l -> f x = true -> (forall y, In y l -> f y = true -> y = x) ->
  find f l = Some x.
Proof.
  intros Hin Hx Honly. destruct (find_present f l x Hin Hx) as [y Hy].
  rewrite Hy. f_equal. destruct (find_some _ _ Hy). auto.
Qed.

(** X11.  What [getArticles] lists, [getArticle] finds: in front of a
    served feed, looking up an entry of the feed by its own string
    identifier, or by the decimal form of its content identifier, never
    gives [null]; and when no other entry of the feed matches the entry's
    string identifier, the lookup by it returns that very entry. *)
Theorem getArticle_finds_listed_entries
        (pages : list FeedResponse) (w : World) (fuel : nat) (e : FeedEntry) :
  provider w = Mock.feed_provider default_timestamp pages ->
  Mock.linked pages = true ->
  Mock.closed pages = true ->
  (List.length pages <= fuel)%nat ->
  In e (Mock.items pages) ->
  (exists e1, fst (getArticle fuel (entry_id e) w) = Returned (Some e1))
  /\ (exists e2, fst (getArticle fuel (Js.String_of_number (content_id (entry_content e))) w)
                 = Returned (Some e2))
  /\ ((forall e', In e' (Mock.items pages) ->
                  entry_matches (entry_id e) (Js.parseInt (entry_id e)) e' = true ->
                  e' = e) ->
      fst (getArticle fuel (entry_id e) w) = Returned (Some e)).
Proof.
  intros Hp Hlinked Hclosed Hfuel Hin.
  assert (Hrun : forall articleId,
             fst (getArticle fuel articleId w)
             = Returned (find (entry_matches articleId (Js.parseInt articleId))
                              (Mock.items pages))).
  { intros articleId.
    destruct (getArticle_loop_served pages articleId (Js.parseInt articleId)
                                     pages 0 w fuel Hp eq_refl Hlinked Hclosed Hfuel)
      as (w' & Hrun & _).
    unfold getArticle. change 1 with (Z.of_nat 1). now rewrite Hrun. }
  assert (Hid : entry_matches (entry_id e) (Js.parseInt (entry_id e)) e = true).
  { unfold entry_matches. now rewrite String.eqb_refl. }
  split; [|split].
  - destruct (find_present _ _ e Hin Hid) as [e1 H1]. exists e1. now rewrite Hrun, H1.
  - assert (Hcid : entry_matches (Js.String_of_number (content_id (entry_content e)))
                     (Js.parseInt (Js.String_of_number (content_id (entry_content e)))) e
                   = true).
    { unfold entry_matches. rewrite String.eqb_refl. apply orb_true_r. }
    destruct (find_present _ _ e Hin Hcid) as [e2 H2]. exists e2. now rewrite Hrun, H2.
  - intros Honly. rewrite Hrun. f_equal. now apply find_only.
Qed.

Lemma getArticle_finds_listed_entries_witness :
  let pages := Mock.three_pages in
  let w := Mock.feed_client pages in
  let e := Mock.entry "d" 4 in
  provider w = Mock.feed_provider default_timestamp pages
  /\ Mock.linked pages = true
  /\ Mock.closed pages = true
  /\ (List.length pages <= 3)%nat
  /\ In e (Mock.items pages)
  /\ (exists e1, fst (getArticle 3 (entry_id e) w) = Returned (Some e1))
  /\ (exists e2, fst (getArticle 3 (Js.String_of_number (content_id (entry_content e))) w)
                 = Returned (Some e2))
  /\ ((forall e', In e' (Mock.items pages) ->
                  entry_matches (entry_id e) (Js.parseInt (entry_id e)) e' = true ->
                  e' = e) ->
      fst (getArticle 3 (entry_id e) w) = Returned (Some e)).
Proof.
  cbv zeta. split; [reflexivity|]. split; [reflexivity|]. split; [reflexivity|].
  split; [cbn; lia|]. split; [cbn; tauto|].
  exact (getArticle_finds_listed_entries
           Mock.three_pages (Mock.feed_client Mock.three_pages) 3%nat (Mock.entry "d" 4)
           eq_refl eq_refl eq_refl (le_n 3)
           (or_intror (or_intror (or_intror (or_introl eq_refl))))).
Defined.

(** ** The paginator behind expiring tokens *)

Lemma bearer_differs (a b : string) :
  a <> b -> (("Bearer " ++ a) =? ("Bearer " ++ b))%string = false.
Proof.
  intros H. apply String.eqb_neq. intros E. apply H.
  exact (append_cancel_l "Bearer " a b E).
Qed.

Lemma expiring_feed_serves (fresh : TokenRefreshResponse) (pages : list FeedResponse)
      (history : list HttpRequest) (k : nat) (p : FeedResponse) :
  nth_error pages k = Some p ->
  Mock.expiring_feed_provider fresh pages history
    (Mock.page_request default_timestamp (access_token fresh) (S k))
  = Resolves (Mock.ok_response (JFeed p)).
Proof.
  intros Hk. unfold Mock.expiring_feed_provider.
  change (req_url (Mock.page_request default_timestamp (access_token fresh) (S k))
          =? refresh_url)%string with false.
  cbn [Mock.page_request mk_request req_headers bearer_headers Mock.header].
  change (("Content-Type" =? "Authorization")%string) with false.
  change (("Authorization" =? "Authorization")%string) with true.
  cbn iota. rewrite String.eqb_refl.
  exact (feed_provider_serves default_timestamp (access_token fresh) pages history k p Hk).
Qed.

Lemma expiring_feed_refuses (fresh : TokenRefreshResponse) (pages : list FeedResponse)
      (history : list HttpRequest) (token : string) (k : nat) :
  token <> access_token fresh ->
  Mock.expiring_feed_provider fresh pages history
    (Mock.page_request default_timestamp token k)
  = Resolves (Mock.error_response 401 "Unauthorized").
Proof.
  intros Hstale. unfold Mock.expiring_feed_provider.
  change (req_url (Mock.page_request default_timestamp token k)
          =? refresh_url)%string with false.
  cbn [Mock.page_request mk_request req_headers bearer_headers Mock.header].
  change (("Content-Type" =? "Authorization")%string) with false.
  change (("Authorization" =? "Authorization")%string) with true.
  cbn iota. now rewrite (bearer_differs token (access_token fresh) Hstale).
Qed.

(** A request that bears the fresh token is served at once. *)
Lemma request_expiring_fresh (fresh : TokenRefreshResponse) (pages : list FeedResponse)
      (w : World) (k : nat) (p : FeedResponse) :
  provider w = Mock.expiring_feed_provider fresh pages
  /\ accessToken w = access_token fresh ->
  nth_error pages k = Some p ->
  request (feed_endpoint default_timestamp (Z.of_nat (S k))) no_init w
  = (Returned (JFeed p),
     record_fetch (Mock.page_request default_timestamp (accessToken w) (S k)) w).
Proof.
  intros [Hp Htok] Hk.
  unfold request, bind at 1, get_accessToken.
  unfold bind at 1, fetch at 1.
  fold (Mock.page_request default_timestamp (accessToken w) (S k)).
  rewrite Hp, Htok, (expiring_feed_serves fresh pages _ k p Hk).
  reflexivity.
Qed.

(** A request that bears another token is answered 401, refreshes the pair
    and is repeated with the fresh token. *)
Lemma request_expiring_stale (fresh : TokenRefreshResponse) (pages : list FeedResponse)
      (w : World) (k : nat) (p : FeedResponse) :
  provider w = Mock.expiring_feed_provider fresh pages ->
  accessToken w <> access_token fresh ->
  (forall f, onTokenRefresh w = Some f ->
             f (mkTokens (access_token fresh) (refresh_token fresh)) = ObserverReturns) ->
  nth_error pages k = Some p ->
  exists w2,
    request (feed_endpoint default_timestamp (Z.of_nat (S k))) no_init w
    = (Returned (JFeed p), w2)
    /\ provider w2 = provider w
    /\ accessToken w2 = access_token fresh
    /\ refreshToken w2 = refresh_token fresh
    /\ fetched w2
       = (fetched w ++ [Mock.page_request default_timestamp (accessToken w) (S k);
                        refresh_request (refreshToken w);
                        Mock.page_request default_timestamp (access_token fresh) (S k)])%list
    /\ notified w2
       = (notified w ++ match onTokenRefresh w with
                        | Some _ => [mkTokens (access_token fresh) (refresh_token fresh)]
                        | None => []
                        end)%list.
Proof.
  intros Hp Hstale Hobs Hk.
  assert (Hfirst : provider w (fetched w)
                     (mk_request (request_url (feed_endpoint default_timestamp
                                                             (Z.of_nat (S k))))
                                 no_init (bearer_headers (accessToken w)))
                   = Resolves (Mock.error_response 401 "Unauthorized")).
  { rewrite Hp. exact (expiring_feed_refuses fresh pages _ _ (S k) Hstale). }
  rewrite (request_401_unfold w _ no_init _ Hfirst eq_refl).
  fold (Mock.page_request default_timestamp (accessToken w) (S k)).
  rewrite refreshAccessToken_cases. cbn zeta.
  cbn [record_fetch provider refreshToken fetched onTokenRefresh].
  rewrite Hp.
  change (Mock.expiring_feed_provider fresh pages
            (fetched w ++ [Mock.page_request default_timestamp (accessToken w) (S k)])%list
            (refresh_request (refreshToken w)))
    with (Resolves (Mock.ok_response (JTokens fresh))).
  cbn [ok Mock.ok_response status body_json Z.leb Z.compare Pos.compare
       Pos.compare_cont andb].
  destruct (onTokenRefresh w) as [f|] eqn:Hf.
  - rewrite (Hobs f eq_refl).
    cbn [record_notify install_tokens record_fetch provider accessToken fetched].
    rewrite Hp.
    fold (Mock.page_request default_timestamp (access_token fresh) (S k)).
    rewrite (expiring_feed_serves fresh pages _ k p Hk).
    cbn [ok Mock.ok_response status body_json Z.leb Z.compare Pos.compare
         Pos.compare_cont andb].
    eexists. split; [reflexivity|].
    cbn [record_notify install_tokens record_fetch provider accessToken refreshToken
         fetched notified].
    split; [exact Hp|]. split; [reflexivity|]. split; [reflexivity|].
    split; [now rewrite <- !app_assoc | reflexivity].
  - cbn [record_notify install_tokens record_fetch provider accessToken fetched].
    rewrite Hp.
    fold (Mock.page_request default_timestamp (access_token fresh) (S k)).
    rewrite (expiring_feed_serves fresh pages _ k p Hk).
    cbn [ok Mock.ok_response status body_json Z.leb Z.compare Pos.compare
         Pos.compare_cont andb].
    eexists. split; [reflexivity|].
    cbn [record_notify install_tokens record_fetch provider accessToken refreshToken
         fetched notified].
    split; [exact Hp|]. split; [reflexivity|]. split; [reflexivity|].
    split; [now rewrite <- !app_assoc | now rewrite app_nil_r].
Qed.

Section ServedFeed.

Variable pages : list FeedResponse.
Variable Good : World -> Prop.

Hypothesis Good_serves :
  forall (w : World) (k : nat) (p : FeedResponse),
    Good w -> nth_error pages k = Some p ->
    request (feed_endpoint default_timestamp (Z.of_nat (S k))) no_init w
    = (Returned (JFeed p),
       record_fetch (Mock.page_request default_timestamp (accessToken w) (S k)) w).

Hypothesis Good_kept :
  forall (w : World) (req : HttpRequest), Good w -> Good (record_fetch req w).

(** [getArticles_loop_all] for any client whose requests are served. *)
Lemma getArticles_loop_all_served (limit : Z) :
  forall (rest : list FeedResponse) (k : nat) (w : World) (fuel : nat)
         (acc : list FeedEntry) (qc ac : option Z),
    Good w ->
    skipn k pages = rest ->
    Mock.linked rest = true ->
    Mock.closed rest = true ->
    (List.length rest <= fuel)%nat ->
    Z.of_nat (List.length (acc ++ Mock.items rest)) < limit ->
    exists res w',
      getArticles_loop fuel default_timestamp limit acc (Z.of_nat (S k)) true qc ac w
      = (Returned res, w')
      /\ articles res = (acc ++ Mock.items rest)%list
      /\ nextUrl res = None
      /\ accessToken w' = accessToken w
      /\ refreshToken w' = refreshToken w
      /\ notified w' = notified w
      /\ fetched w'
         = (fetched w ++ map (Mock.page_request default_timestamp (accessToken w))
                             (seq (S k) (List.length rest)))%list.
Proof.
  induction rest as [|p rest IH];
    intros k w fuel acc qc ac Hgood Hskip Hlinked Hclosed Hfuel Htotal.
  - discriminate.
  - destruct fuel as [|fuel]; [cbn in Hfuel; lia|].
    destruct (nth_error_skipn_head _ _ _ _ Hskip) as [Hk Hskip'].
    rewrite items_cons, app_assoc in Htotal.
    assert (Hacc1 : Z.of_nat (List.length (acc ++ feed p)) < limit).
    { rewrite length_app in Htotal. lia. }
    assert (Hacc : Z.of_nat (List.length acc) < limit).
    { rewrite length_app in Hacc1. lia. }
    rewrite (getArticles_loop_step fuel _ limit acc _ qc ac w _ p
                                   (Good_serves w k p Hgood Hk) Hacc).
    assert (Hge : (Z.of_nat (List.length (acc ++ feed p)) >=? limit) = false)
      by (rewrite Z.geb_leb; apply Z.leb_gt; exact Hacc1).
    rewrite Hge.
    destruct rest as [|q rest].
    + cbn [Mock.closed] in Hclosed. apply negb_true_iff in Hclosed.
      rewrite Hclosed, getArticles_loop_exhausted.
      eexists _, _. split; [reflexivity|]. cbn [articles nextUrl].
      split; [now rewrite items_cons, app_nil_r|].
      repeat (split; [reflexivity|]). reflexivity.
    + destruct (linked_tail _ _ _ Hlinked) as [Hnext Hlinked'].
      rewrite Hnext.
      replace (Z.of_nat (S k) + 1) with (Z.of_nat (S (S k))) by lia.
      edestruct (IH (S k) (record_fetch (Mock.page_request default_timestamp
                                                           (accessToken w) (S k)) w)
                    fuel (acc ++ feed p)%list)
        as (res & w' & Hrun & Hart & Hnone & Ha & Hr & Hn & Hlog);
        [apply Good_kept; exact Hgood | exact Hskip' | exact Hlinked' | exact Hclosed
         | cbn in Hfuel |- *; lia | exact Htotal | ].
      exists res, w'. split; [exact Hrun|].
      split; [now rewrite Hart, (items_cons p), app_assoc|]. split; [exact Hnone|].
      split; [exact Ha|]. split; [exact Hr|]. split; [exact Hn|].
      rewrite Hlog. cbn [record_fetch fetched accessToken].
      rewrite <- app_assoc. reflexivity.
Qed.

End ServedFeed.

(** X12.  One refresh serves a whole traversal.  When the client holds an
    expired access token in front of a feed that needs the fresh one,
    [getArticles] is answered 401 on its first page only: it refreshes the
    pair once, repeats that page, and requests every later page with the
    fresh token straight away, so that a feed of n pages costs n + 2 calls.
    The items returned are those of the feed, and the client holds the
    fresh pair afterwards; the observer, if any, is called once. *)
Theorem getArticles_refreshes_once_per_traversal
        (fresh : TokenRefreshResponse) (pages : list FeedResponse) (limit : Z)
        (w : World) (fuel : nat) :
  provider w = Mock.expiring_feed_provider fresh pages ->
  accessToken w <> access_token fresh ->
  (forall f, onTokenRefresh w = Some f ->
             f (mkTokens (access_token fresh) (refresh_token fresh)) = ObserverReturns) ->
  Mock.linked pages = true ->
  Mock.closed pages = true ->
  (List.length pages <= fuel)%nat ->
  Z.of_nat (List.length (Mock.items pages)) < limit ->
  exists res w',
    getArticles fuel (Mock.limit_only limit) w = (Returned res, w')
    /\ articles res = Mock.items pages
    /\ nextUrl res = None
    /\ accessToken w' = access_token fresh
    /\ refreshToken w' = refresh_token fresh
    /\ fetched w'
       = (fetched w
            ++ [Mock.page_request default_timestamp (accessToken w) 1;
                refresh_request (refreshToken w)]
            ++ map (Mock.page_request default_timestamp (access_token fresh))
                   (seq 1 (List.length pages)))%list
    /\ List.length (notified w')
       = (List.length (notified w)
          + match onTokenRefresh w with Some _ => 1 | None => 0 end)%nat.
Proof.
  intros Hp Hstale Hobs Hlinked Hclosed Hfuel Hbelow.
  assert (Hpos : 0 < limit) by lia.
  assert (Hstart : getArticles fuel (Mock.limit_only limit) w
                   = getArticles_loop fuel default_timestamp limit [] (Z.of_nat 1)
                                      true None None w).
  { unfold getArticles, Mock.limit_only. cbn [opt_limit opt_page opt_afterTimestamp].
    unfold Js.number_or, Js.string_or.
    destruct (limit =? 0) eqn:E; [apply Z.eqb_eq in E; lia | reflexivity]. }
  rewrite Hstart.
  destruct pages as [|p rest]; [discriminate|].
  destruct fuel as [|fuel]; [cbn in Hfuel; lia|].
  destruct (request_expiring_stale fresh (p :: rest) w 0 p Hp Hstale Hobs eq_refl)
    as (w2 & Hreq & Hp2 & Ha2 & Hr2 & Hlog2 & Hn2).
  rewrite (getArticles_loop_step fuel _ limit [] _ None None w w2 p Hreq Hpos).
  rewrite items_cons in Hbelow.
  assert (Hge : (Z.of_nat (List.length ([] ++ feed p)%list) >=? limit) = false).
  { rewrite Z.geb_leb. apply Z.leb_gt. cbn [Datatypes.app].
    rewrite length_app in Hbelow. lia. }
  rewrite Hge.
  assert (Hcount : List.length (notified w2)
                   = (List.length (notified w)
                      + match onTokenRefresh w with Some _ => 1 | None => 0 end)%nat).
  { rewrite Hn2, length_app. now destruct (onTokenRefresh w). }
  destruct rest as [|q rest].
  - cbn [Mock.closed] in Hclosed. apply negb_true_iff in Hclosed.
    rewrite Hclosed, getArticles_loop_exhausted.
    eexists _, _. split; [reflexivity|]. cbn [articles nextUrl].
    split; [now rewrite items_cons, app_nil_r|]. split; [reflexivity|].
    split; [exact Ha2|]. split; [exact Hr2|]. split; [exact Hlog2 | exact Hcount].
  - destruct (linked_tail _ _ _ Hlinked) as [Hnext Hlinked'].
    rewrite Hnext.
    change (Z.of_nat 1 + 1) with (Z.of_nat 2).
    destruct (getArticles_loop_all_served
                (p :: q :: rest)
                (fun w => provider w = Mock.expiring_feed_provider fresh (p :: q :: rest)
                          /\ accessToken w = access_token fresh)
                (request_expiring_fresh fresh (p :: q :: rest))
                (fun w req H => H)
                limit (q :: rest) 1 w2 fuel ([] ++ feed p)%list
                (if Z.of_nat 1 =? 1 then queue_count p else None)
                (if Z.of_nat 1 =? 1 then archive_count p else None)
                (conj (eq_trans Hp2 Hp) Ha2) eq_refl Hlinked' Hclosed
                ltac:(cbn in Hfuel |- *; lia) Hbelow)
      as (res & w' & Hrun & Hart & Hnone & Ha & Hr & Hn & Hlog).
    exists res, w'. split; [exact Hrun|]. split; [exact Hart|]. split; [exact Hnone|].
    split; [congruence|]. split; [congruence|]. split.
    + rewrite Hlog, Hlog2, Ha2. cbn [List.length seq map].
      rewrite <- !app_assoc. reflexivity.
    + now rewrite Hn.
Qed.

Lemma getArticles_refreshes_once_per_traversal_witness :
  let fresh := Mock.fresh_pair in
  let pages := Mock.three_pages in
  let w := Mock.stale_feed_client pages in
  provider w = Mock.expiring_feed_provider fresh pages
  /\ accessToken w <> access_token fresh
  /\ (forall f, onTokenRefresh w = Some f ->
                f (mkTokens (access_token fresh) (refresh_token fresh)) = ObserverReturns)
  /\ Mock.linked pages = true
  /\ Mock.closed pages = true
  /\ (List.length pages <= 3)%nat
  /\ Z.of_nat (List.length (Mock.items pages)) < 10
  /\ exists res w',
      getArticles 3 (Mock.limit_only 10) w = (Returned res, w')
      /\ articles res = Mock.items pages
      /\ nextUrl res = None
      /\ accessToken w' = access_token fresh
      /\ refreshToken w' = refresh_token fresh
      /\ fetched w'
         = (fetched w
              ++ [Mock.page_request default_timestamp (accessToken w) 1;
                  refresh_request (refreshToken w)]
              ++ map (Mock.page_request default_timestamp (access_token fresh))
                     (seq 1 (List.length pages)))%list
      /\ List.length (notified w')
         = (List.length (notified w)
            + match onTokenRefresh w with Some _ => 1 | None => 0 end)%nat.
Proof.
  cbv zeta.
  split; [reflexivity|]. split; [discriminate|]. split; [discriminate|].
  split; [reflexivity|]. split; [reflexivity|]. split; [cbn; lia|].
  split; [reflexivity|].
  exact (getArticles_refreshes_once_per_traversal
           Mock.fresh_pair Mock.three_pages 10
           (Mock.stale_feed_client Mock.three_pages) 3%nat
           eq_refl ltac:(discriminate) ltac:(discriminate)
           eq_refl eq_refl (le_n 3) eq_refl).
Defined.

(** ** The tool dispatcher *)

Lemma bind_returned {A B} (m : M A) (k : A -> M B) (w w' : World) (b : B) :
  bind m k w = (Returned b, w') ->
  exists a w1, m w = (Returned a, w1) /\ k a w1 = (Returned b, w').
Proof.
  unfold bind. destruct (m w) as [[a|e|] w1]; try discriminate. eauto.
Qed.

Lemma try_catch_returned {A} (m : M A) (h : Exn -> M A) (w w' : World) (a : A) :
  try_catch m h w = (Returned a, w') ->
  m w = (Returned a, w')
  \/ exists e w1, m w = (Threw e, w1) /\ h e w1 = (Returned a, w').
Proof.
  unfold try_catch. destruct (m w) as [[x|e|] w1]; try discriminate; eauto.
Qed.

Lemma ListArticlesInputSchema_parse_returned (args : option Server.Args)
      (w w1 : World) (limit : Z) :
  Server.ListArticlesInputSchema_parse args w = (Returned limit, w1) ->
  w1 = w /\ 1 <= limit <= 100
  /\ (forall a, args = Some a -> Server.lookup "limit" a = None -> limit = 20).
Proof.
  unfold Server.ListArticlesInputSchema_parse.
  destruct args as [a|]; [|discriminate].
  destruct (Server.lookup "limit" a) as [[s|n|]|] eqn:Hl; try discriminate.
  - destruct (n <? 1) eqn:Hlow; [discriminate|].
    destruct (100 <? n) eqn:Hhigh; [discriminate|].
    intros [= <- <-]. apply Z.ltb_ge in Hlow, Hhigh.
    split; [reflexivity|]. split; [lia|]. intros a' [= <-] H. congruence.
  - intros [= <- <-]. split; [reflexivity|]. split; [lia|]. reflexivity.
Qed.

Lemma GetArticleInputSchema_parse_returned (args : option Server.Args)
      (w w1 : World) (id : string) :
  Server.GetArticleInputSchema_parse args w = (Returned id, w1) ->
  w1 = w /\ id <> EmptyString
  /\ exists a, args = Some a /\ Server.lookup "article_id" a = Some (Server.AString id).
Proof.
  unfold Server.GetArticleInputSchema_parse.
  destruct args as [a|]; [|discriminate].
  destruct (Server.lookup "article_id" a) as [[s|n|]|] eqn:Hl; try discriminate.
  destruct s as [|c s]; [discriminate|].
  intros [= <- <-]. split; [reflexivity|]. split; [discriminate|]. eauto.
Qed.

Section Tools.

Variable formatArticle : FeedEntry -> string.
Variable formatArticleList : list FeedEntry -> string.
Variable is_url : string -> bool.

Local Abbreviation handler :=
  (Server.call_tool_handler formatArticle formatArticleList is_url).

Lemma SaveArticleInputSchema_parse_pure (args : option Server.Args) (w : World) :
  snd (Server.SaveArticleInputSchema_parse is_url args w) = w.
Proof.
  unfold Server.SaveArticleInputSchema_parse.
  destruct args as [a|]; [|reflexivity].
  destruct (Server.lookup "url" a) as [[s|n|]|]; try reflexivity.
  destruct (is_url s); reflexivity.
Qed.

Lemma ListArticlesInputSchema_parse_pure (args : option Server.Args) (w : World) :
  snd (Server.ListArticlesInputSchema_parse args w) = w.
Proof.
  unfold Server.ListArticlesInputSchema_parse.
  destruct args as [a|]; [|reflexivity].
  destruct (Server.lookup "limit" a) as [[s|n|]|]; try reflexivity.
  destruct (n <? 1); [reflexivity|]. destruct (100 <? n); reflexivity.
Qed.

Lemma GetArticleInputSchema_parse_pure (args : option Server.Args) (w : World) :
  snd (Server.GetArticleInputSchema_parse args w) = w.
Proof.
  unfold Server.GetArticleInputSchema_parse.
  destruct args as [a|]; [|reflexivity].
  destruct (Server.lookup "article_id" a) as [[s|n|]|]; try reflexivity.
  destruct s; reflexivity.
Qed.

(** The results that the body of the handler can return. *)
Lemma call_tool_handler_shape (fuel : nat) (name : string) (args : option Server.Args)
      (w w' : World) (r : Server.CallToolResult) :
  handler fuel name args w = (Returned r, w') ->
  exists t, r = Server.text_result t \/ r = Server.error_result t.
Proof.
  unfold Server.call_tool_handler. intros H.
  apply try_catch_returned in H as [H|(e & w1 & _ & H)].
  2:{ injection H as <- _. eauto. }
  destruct (name =? "matter_list_articles")%string.
  { apply bind_returned in H as (limit & w1 & _ & H).
    apply bind_returned in H as (res & w2 & _ & H).
    injection H as <- _. eauto. }
  destruct (name =? "matter_get_article")%string.
  { apply bind_returned in H as (id & w1 & _ & H).
    apply bind_returned in H as ([a|] & w2 & _ & H); injection H as <- _; eauto. }
  destruct (name =? "matter_save_article")%string.
  { apply bind_returned in H as (url & w1 & _ & H).
    apply bind_returned in H as (res & w2 & _ & H).
    injection H as <- _. eauto. }
  injection H as <- _. eauto.
Qed.

(** X13.  The tool handler never throws: whatever the tool name, the
    arguments and the provider, a call that completes returns a result made
    of exactly one text item, flagged [isError: true] or not flagged.  A
    name that is none of the three tools gives the flagged result
    [Unknown tool: <name>] without any call of the provider. *)
Theorem call_tool_handler_never_throws
        (fuel : nat) (name : string) (args : option Server.Args) (w : World) :
  (forall e w', handler fuel name args w <> (Threw e, w'))
  /\ (forall r w', handler fuel name args w = (Returned r, w') ->
                   (exists t, Server.content r
                              = [{| Server.content_type := "text"; Server.text := t |}])
                   /\ (Server.isError r = None \/ Server.isError r = Some true))
  /\ (name <> "matter_list_articles" -> name <> "matter_get_article" ->
      name <> "matter_save_article" ->
      handler fuel name args w
      = (Returned (Server.error_result ("Unknown tool: " ++ name)), w)).
Proof.
  split; [|split].
  - intros e w'. unfold Server.call_tool_handler, try_catch.
    match goal with |- (match ?body with _ => _ end) <> _ =>
      destruct body as [[r|x|] w1] end; discriminate.
  - intros r w' H. apply call_tool_handler_shape in H as [t [-> | ->]];
      (split; [exists t; reflexivity|]); [left | right]; reflexivity.
  - intros Hlist Hget Hsave. unfold Server.call_tool_handler, try_catch.
    apply String.eqb_neq in Hlist, Hget, Hsave. now rewrite Hlist, Hget, Hsave.
Qed.

(** X14.  Arguments are checked before anything else: when the schema of
    the tool called rejects the arguments (a limit outside 1..100, a
    missing or empty article identifier, a string that is not a URL, ...),
    the handler returns the flagged result [Error: <issue>], no request is
    made and the client's tokens are untouched. *)
Theorem invalid_arguments_make_no_call
        (fuel : nat) (name : string) (args : option Server.Args) (w : World) (e : Exn) :
  (name = "matter_list_articles"
   /\ fst (Server.ListArticlesInputSchema_parse args w) = Threw e)
  \/ (name = "matter_get_article"
      /\ fst (Server.GetArticleInputSchema_parse args w) = Threw e)
  \/ (name = "matter_save_article"
      /\ fst (Server.SaveArticleInputSchema_parse is_url args w) = Threw e) ->
  handler fuel name args w
  = (Returned (Server.error_result ("Error: " ++ exn_message e)), w).
Proof.
  intros [[-> H]|[[-> H]|[-> H]]]; unfold Server.call_tool_handler, try_catch;
    cbn [String.eqb Ascii.eqb Bool.eqb]; cbv iota; unfold bind at 1.
  - pose proof (ListArticlesInputSchema_parse_pure args w) as Hw.
    destruct (Server.ListArticlesInputSchema_parse args w) as [c w1].
    cbn in H, Hw. now subst.
  - pose proof (GetArticleInputSchema_parse_pure args w) as Hw.
    destruct (Server.GetArticleInputSchema_parse args w) as [c w1].
    cbn in H, Hw. now subst.
  - pose proof (SaveArticleInputSchema_parse_pure args w) as Hw.
    destruct (Server.SaveArticleInputSchema_parse is_url args w) as [c w1].
    cbn in H, Hw. now subst.
Qed.

(** X15.  Whatever the provider answers, an unflagged result of the
    list-articles tool is the formatting of at most [limit] entries, where
    [limit] is the validated argument: between 1 and 100, and 20 when the
    argument is absent.  The tool never formats more than 100 entries. *)
Theorem list_tool_formats_at_most_limit
        (fuel : nat) (args : option Server.Args) (w : World)
        (r : Server.CallToolResult) :
  fst (handler fuel "matter_list_articles" args w) = Returned r ->
  Server.isError r = None ->
  exists limit entries,
    fst (Server.ListArticlesInputSchema_parse args w) = Returned limit
    /\ 1 <= limit <= 100
    /\ (forall a, args = Some a -> Server.lookup "limit" a = None -> limit = 20)
    /\ r = Server.text_result (formatArticleList entries)
    /\ Z.of_nat (List.length entries) <= limit.
Proof.
  intros H Hflag.
  destruct (handler fuel "matter_list_articles" args w) as [c w'] eqn:Hcall.
  cbn [fst] in H. subst c. rename Hcall into H.
  unfold Server.call_tool_handler in H. cbn [String.eqb Ascii.eqb Bool.eqb] in H.
  cbv iota in H.
  apply try_catch_returned in H as [H|(e & w1 & _ & H)].
  2:{ injection H as <- _. discriminate. }
  apply bind_returned in H as (limit & w1 & Hparse & H).
  apply bind_returned in H as (res & w2 & Hrun & H).
  injection H as <- _.
  destruct (ListArticlesInputSchema_parse_returned _ _ _ _ Hparse)
    as (-> & Hrange & Hdefault).
  exists limit, (articles res). rewrite Hparse.
  split; [reflexivity|]. split; [exact Hrange|]. split; [exact Hdefault|].
  split; [reflexivity|].
  pose proof (getArticles_returns_bounded fuel _ w res
                ltac:(rewrite Hrun; reflexivity)) as [Hlen _].
  unfold effective_limit, Js.number_or in Hlen. cbn [opt_limit] in Hlen.
  destruct (limit =? 0) eqn:E; [apply Z.eqb_eq in E; lia | lia].
Qed.

(** X16.  Whatever the provider answers, an unflagged result of the
    get-article tool is the formatting of one entry, and that entry matches
    the validated, non-empty identifier by one of the three comparisons of
    the locator. *)
Theorem get_tool_formats_a_matching_entry
        (fuel : nat) (args : option Server.Args) (w : World)
        (r : Server.CallToolResult) :
  fst (handler fuel "matter_get_article" args w) = Returned r ->
  Server.isError r = None ->
  exists id e,
    fst (Server.GetArticleInputSchema_parse args w) = Returned id
    /\ id <> EmptyString
    /\ r = Server.text_result (formatArticle e)
    /\ entry_matches id (Js.parseInt id) e = true.
Proof.
  intros H Hflag.
  destruct (handler fuel "matter_get_article" args w) as [c w'] eqn:Hcall.
  cbn [fst] in H. subst c. rename Hcall into H.
  unfold Server.call_tool_handler in H. cbn [String.eqb Ascii.eqb Bool.eqb] in H.
  cbv iota in H.
  apply try_catch_returned in H as [H|(e & w1 & _ & H)].
  2:{ injection H as <- _. discriminate. }
  apply bind_returned in H as (id & w1 & Hparse & H).
  apply bind_returned in H as ([a|] & w2 & Hrun & H); injection H as <- _;
    [|discriminate].
  destruct (GetArticleInputSchema_parse_returned _ _ _ _ Hparse) as (-> & Hne & _).
  exists id, a. rewrite Hparse.
  split; [reflexivity|]. split; [exact Hne|]. split; [reflexivity|].
  apply (getArticle_loop_sound id (Js.parseInt id) fuel 1 w a).
  unfold getArticle in Hrun. now rewrite Hrun.
Qed.

End Tools.

Lemma invalid_arguments_make_no_call_witness :
  let w := Server.createMatterServer Mock.stale_pair
             (Mock.feed_provider default_timestamp Mock.three_pages) in
  let args := Some [("limit", Server.ANumber 101)] in
  let e := Server.zod_error "Number must be less than or equal to 100" in
  (("matter_list_articles" = "matter_list_articles"
    /\ fst (Server.ListArticlesInputSchema_parse args w) = Threw e)
   \/ ("matter_list_articles" = "matter_get_article"
       /\ fst (Server.GetArticleInputSchema_parse args w) = Threw e)
   \/ ("matter_list_articles" = "matter_save_article"
       /\ fst (Server.SaveArticleInputSchema_parse (fun _ => true) args w) = Threw e))
  /\ Server.call_tool_handler (fun _ => "article") (fun _ => "list") (fun _ => true)
                              3 "matter_list_articles" args w
     = (Returned (Server.error_result ("Error: " ++ exn_message e)), w).
Proof.
  cbv zeta. split; [left; split; reflexivity|].
  exact (invalid_arguments_make_no_call
           (fun _ => "article") (fun _ => "list") (fun _ => true)
           3 "matter_list_articles" (Some [("limit", Server.ANumber 101)])
           (Server.createMatterServer Mock.stale_pair
              (Mock.feed_provider default_timestamp Mock.three_pages))
           (Server.zod_error "Number must be less than or equal to 100")
           (or_introl (conj eq_refl eq_refl))).
Defined.

Lemma list_tool_formats_at_most_limit_witness :
  let w := Server.createMatterServer Mock.stale_pair
             (Mock.feed_provider default_timestamp Mock.three_pages) in
  let args := Some [("limit", Server.ANumber 3)] in
  let r := Server.text_result "3 articles" in
  let list_of := fun l : list FeedEntry =>
                   (Js.String_of_number (Z.of_nat (List.length l)) ++ " articles")%string in
  fst (Server.call_tool_handler (fun _ => "article") list_of (fun _ => true)
                                3 "matter_list_articles" args w) = Returned r
  /\ Server.isError r = None
  /\ exists limit entries,
      fst (Server.ListArticlesInputSchema_parse args w) = Returned limit
      /\ 1 <= limit <= 100
      /\ (forall a, args = Some a -> Server.lookup "limit" a = None -> limit = 20)
      /\ r = Server.text_result (list_of entries)
      /\ Z.of_nat (List.length entries) <= limit.
Proof.
  cbv zeta. split; [vm_compute; reflexivity|]. split; [reflexivity|].
  exact (list_tool_formats_at_most_limit
           (fun _ => "article")
           (fun l : list FeedEntry =>
              (Js.String_of_number (Z.of_nat (List.length l)) ++ " articles")%string)
           (fun _ => true)
           3 (Some [("limit", Server.ANumber 3)])
           (Server.createMatterServer Mock.stale_pair
              (Mock.feed_provider default_timestamp Mock.three_pages))
           (Server.text_result "3 articles")
           eq_refl eq_refl).
Defined.

Lemma get_tool_formats_a_matching_entry_witness :
  let w := Server.createMatterServer Mock.stale_pair
             (Mock.feed_provider default_timestamp Mock.three_pages) in
  let args := Some [("article_id", Server.AString "4")] in
  let r := Server.text_result "d" in
  fst (Server.call_tool_handler entry_id (fun _ => "list") (fun _ => true)
                                3 "matter_get_article" args w) = Returned r
  /\ Server.isError r = None
  /\ exists id e,
      fst (Server.GetArticleInputSchema_parse args w) = Returned id
      /\ id <> EmptyString
      /\ r = Server.text_result (entry_id e)
      /\ entry_matches id (Js.parseInt id) e = true.
Proof.
  cbv zeta. split; [vm_compute; reflexivity|]. split; [reflexivity|].
  exact (get_tool_formats_a_matching_entry
           entry_id (fun _ => "list") (fun _ => true)
           3 (Some [("article_id", Server.AString "4")])
           (Server.createMatterServer Mock.stale_pair
              (Mock.feed_provider default_timestamp Mock.three_pages))
           (Server.text_result "d")
           eq_refl eq_refl).
Defined.

(** ** The OAuth bridge, from the authorization page to the resource *)

Module OAuthFlow.
Import OAuth.
Local Open Scope N_scope.
Local Open Scope list_scope.

Lemma jseqb_eq (a b : jsstring) : jseqb a b = true <-> a = b.
Proof.
  revert b. induction a as [|x a IH]; intros [|y b]; cbn; split; try easy.
  - intros H. apply andb_true_iff in H as [Hx Hrest].
    apply N.eqb_eq in Hx. apply IH in Hrest. congruence.
  - intros [= -> ->]. rewrite N.eqb_refl. now apply IH.
Qed.

Lemma jseqb_neq (a b : jsstring) : jseqb a b = false <-> a <> b.
Proof.
  split.
  - intros H E. apply jseqb_eq in E. congruence.
  - intros H. destruct (jseqb a b) eqn:E; [|reflexivity].
    apply jseqb_eq in E. contradiction.
Qed.

(** X17.  The token endpoint answers every request with the three CORS
    headers and one of the statuses 200, 204, 400 and 405.  [OPTIONS] is
    answered 204 with no body and any other method but [POST] 405, both
    without a look at the body; a [POST] without a code, or with an empty
    one, is answered 400 [invalid_request].  So a 200 answer is given only
    to a [POST] that carries a non-empty code. *)
Theorem token_handler_gate
        (form : jsstring -> jsstring -> option jsstring) (req : TokenRequest) :
  let answer := token_handler form req in
  let missing :=
    req_body req = BodyAbsent
    \/ (exists o, req_body req = BodyObject o
                  /\ truthy (json_get (lit "code") o) = false)
    \/ (exists s, req_body req = BodyString s
                  /\ truthy (form s (lit "code")) = false) in
  res_headers answer = cors_headers
  /\ (res_status answer = 200 \/ res_status answer = 204
      \/ res_status answer = 400 \/ res_status answer = 405)
  /\ (req_method req = lit "OPTIONS" ->
      answer = {| res_status := 204; res_headers := cors_headers; res_body := Ended |})
  /\ (req_method req <> lit "OPTIONS" -> req_method req <> lit "POST" ->
      answer = respond 405 [(lit "error", lit "Method not allowed")])
  /\ (req_method req = lit "POST" -> missing ->
      answer = respond 400 [(lit "error", lit "invalid_request");
                            (lit "error_description", lit "Missing code parameter")])
  /\ (res_status answer = 200 -> req_method req = lit "POST" /\ ~ missing).
Proof.
  cbv zeta. unfold token_handler.
  destruct (jseqb (req_method req) (lit "OPTIONS")) eqn:Hoptions.
  { apply jseqb_eq in Hoptions.
    split; [reflexivity|]. split; [auto|]. split; [reflexivity|].
    split; [congruence|]. split; [|discriminate].
    intros Hpost. rewrite Hoptions in Hpost. discriminate. }
  apply jseqb_neq in Hoptions.
  destruct (jseqb (req_method req) (lit "POST")) eqn:Hpost; cbn [negb].
  2:{ apply jseqb_neq in Hpost.
      split; [reflexivity|]. split; [auto|]. split; [congruence|].
      split; [reflexivity|]. split; [congruence | discriminate]. }
  apply jseqb_eq in Hpost.
  set (code := match req_body req with
               | BodyAbsent => None
               | BodyString s =>
                 if truthy (form s (lit "code")) then form s (lit "code") else None
               | BodyObject o => json_get (lit "code") o
               end).
  assert (Hmissing :
            req_body req = BodyAbsent
            \/ (exists o, req_body req = BodyObject o
                          /\ truthy (json_get (lit "code") o) = false)
            \/ (exists s, req_body req = BodyString s
                          /\ truthy (form s (lit "code")) = false) ->
            truthy code = false).
  { unfold code. intros [H|[(o & H & Ht)|(s & H & Ht)]]; rewrite H;
      [reflexivity | exact Ht | now rewrite Ht]. }
  destruct code as [[|c code1]|].
  1,3: (split; [reflexivity|]); (split; [auto|]); (split; [congruence|]);
    (split; [congruence|]); (split; [reflexivity | discriminate]).
  assert (Hpresent : ~ (req_body req = BodyAbsent
                        \/ (exists o, req_body req = BodyObject o
                                      /\ truthy (json_get (lit "code") o) = false)
                        \/ (exists s, req_body req = BodyString s
                                      /\ truthy (form s (lit "code")) = false))).
  { intros H. apply Hmissing in H. discriminate. }
  destruct (JSON_parse (utf8_decode (Buffer_from_base64 (c :: code1)))) as [decoded|].
  2:{ split; [reflexivity|]. split; [auto|]. split; [congruence|].
      split; [congruence|]. split; [|discriminate].
      intros _ H. contradiction. }
  destruct (json_get (lit "access_token") decoded) as [[|a a1]|];
    destruct (json_get (lit "refresh_token") decoded) as [[|r r1]|];
    (split; [reflexivity|]); (split; [auto|]); (split; [congruence|]);
    (split; [congruence|]);
    (split; [intros _ H; contradiction|]);
    try discriminate.
  intros _. split; [exact Hpost | exact Hpresent].
Qed.

(** X18.  At the resource endpoint an [Authorization] header that is
    absent, or of another scheme than [Bearer], is ignored: the two custom
    headers decide alone, and give the pair only when both are present and
    not empty.  Whatever the [Authorization] header holds, a request that
    carries both custom headers, not empty, is never refused; and a request
    is refused only if one of the two is absent or empty. *)
Theorem getTokensFromRequest_falls_back_to_headers (headers : RequestHeaders) :
  let custom :=
    match x_matter_access_token headers, x_matter_refresh_token headers with
    | Some (a :: a1), Some (r :: r1) =>
      Some {| accessToken := a :: a1; refreshToken := r :: r1 |}
    | _, _ => None
    end in
  (authorization headers = None
   \/ (exists h, authorization headers = Some h
                 /\ startsWith (lit "Bearer ") h = false) ->
   getTokensFromRequest headers = custom)
  /\ (forall a r, x_matter_access_token headers = Some a ->
                  x_matter_refresh_token headers = Some r ->
                  a <> [] -> r <> [] ->
                  custom = Some {| accessToken := a; refreshToken := r |}
                  /\ getTokensFromRequest headers <> None)
  /\ (getTokensFromRequest headers = None ->
      truthy (x_matter_access_token headers)
      && truthy (x_matter_refresh_token headers) = false).
Proof.
  cbv zeta. unfold getTokensFromRequest.
  set (from_bearer :=
         match authorization headers with
         | Some authHeader =>
           if startsWith (lit "Bearer ") authHeader then
             match JSON_parse (utf8_decode (Buffer_from_base64 (skipn 7 authHeader))) with
             | Some decoded =>
               match json_get (lit "accessToken") decoded,
                     json_get (lit "refreshToken") decoded with
               | Some (a :: a1), Some (r :: r1) =>
                 Some {| accessToken := a :: a1; refreshToken := r :: r1 |}
               | _, _ => None
               end
             | None => None
             end
           else None
         | None => None
         end).
  assert (Hignored : authorization headers = None
                     \/ (exists h, authorization headers = Some h
                                   /\ startsWith (lit "Bearer ") h = false) ->
                     from_bearer = None).
  { unfold from_bearer. intros [->|(h & -> & ->)]; reflexivity. }
  split; [|split].
  - intros H. now rewrite (Hignored H).
  - intros a r Ha Hr Hane Hrne. rewrite Ha, Hr.
    destruct a; [congruence|]. destruct r; [congruence|].
    split; [reflexivity|]. destruct from_bearer; discriminate.
  - destruct from_bearer; [discriminate|].
    destruct (x_matter_access_token headers) as [[|a a1]|]; try reflexivity.
    destruct (x_matter_refresh_token headers) as [[|r r1]|]; try reflexivity.
    discriminate.
Qed.

Lemma waited_app (x y : list Event) : waited (x ++ y) = waited x + waited y.
Proof.
  induction x as [|e x IH]; [reflexivity|].
  destruct e; cbn [waited Datatypes.app]; rewrite IH; lia.
Qed.

Lemma waited_sleeps (events : list Event) (k : nat) :
  sleeps events = repeat 1000 k -> waited events = 1000 * N.of_nat k.
Proof.
  revert k. induction events as [|e events IH]; intros k H.
  - destruct k; [reflexivity | discriminate].
  - destruct e; cbn [sleeps waited] in *; try (now apply IH).
    destruct k as [|k]; [discriminate|]. cbn [repeat] in H.
    injection H as -> H. rewrite (IH k H). lia.
Qed.

Section Bounds.

Variable URL : Type.
Variable new_URL : jsstring -> option URL.
Variable searchParams_set : URL -> jsstring -> jsstring -> URL.
Variable URL_toString : URL -> jsstring.
Variable exchange : nat -> ExchangeReply.
Variables sessionToken redirectUri state : jsstring.

Local Abbreviation once :=
  (poll_once URL new_URL searchParams_set URL_toString exchange
             sessionToken redirectUri state).
Local Abbreviation loop :=
  (poll_loop URL new_URL searchParams_set URL_toString exchange
             sessionToken redirectUri state).

(** One attempt, whatever the endpoint does: one poll, no pause, and a
    navigation exactly when it resolves the flow, as its last act. *)
Lemma poll_once_events (i : nat) :
  polls (snd (once i)) = 1%nat
  /\ sleeps (snd (once i)) = []
  /\ match fst (once i) with
     | Some href =>
       navigations (snd (once i)) = 1%nat
       /\ exists before, snd (once i) = before ++ [EvNavigate href]
     | None => navigations (snd (once i)) = 0%nat
     end.
Proof.
  unfold poll_once.
  destruct (exchange i) as [|[|] [data|]]; try (repeat split; fail).
  destruct (js_or (data_access_token data) (data_accessToken data)) as [[|a a1]|];
    try (repeat split; fail).
  destruct (js_or (data_refresh_token data) (data_refreshToken data)) as [[|r r1]|];
    try (repeat split; fail).
  destruct (authorization_code (a :: a1) (r :: r1)) as [code|];
    [|repeat split].
  destruct (new_URL redirectUri) as [url|]; [|repeat split].
  cbn [fst snd]. split; [reflexivity|]. split; [reflexivity|].
  split; [reflexivity|].
  eexists [_; _]. reflexivity.
Qed.

(** The loop, whatever the endpoint does. *)
Lemma poll_loop_bounded :
  forall (n i : nat),
    match fst (loop n i) with
    | Resolved href =>
      exists (k : nat) (before : list Event),
        (k < n)%nat
        /\ polls (snd (loop n i)) = S k
        /\ sleeps (snd (loop n i)) = repeat 1000 k
        /\ navigations (snd (loop n i)) = 1%nat
        /\ snd (loop n i) = before ++ [EvNavigate href]
    | Expired =>
      polls (snd (loop n i)) = n
      /\ sleeps (snd (loop n i)) = repeat 1000 n
      /\ navigations (snd (loop n i)) = 0%nat
      /\ exists before,
          snd (loop n i) = before ++ [EvStatus timed_out_html (lit "status error")]
    end.
Proof.
  induction n as [|n IH]; intros i.
  - cbn. repeat split. now exists [].
  - cbn [poll_loop].
    pose proof (poll_once_events i) as (Hp & Hs & Hn).
    destruct (once i) as [[href|] events]; cbn [fst snd] in *.
    + destruct Hn as (Hn & before & ->).
      exists 0%nat, before. repeat split; auto. lia.
    + specialize (IH (S i)).
      destruct (loop n (S i)) as [final later]. cbn [fst snd] in *.
      assert (Hpolls : polls (events ++ EvSleep 1000 :: later)
                       = S (polls later)).
      { rewrite OAuthProofs.polls_app, Hp. reflexivity. }
      assert (Hsleeps : sleeps (events ++ EvSleep 1000 :: later)
                        = 1000 :: sleeps later).
      { rewrite OAuthProofs.sleeps_app, Hs. reflexivity. }
      assert (Hnavs : navigations (events ++ EvSleep 1000 :: later)
                      = navigations later).
      { rewrite OAuthProofs.navigations_app, Hn. reflexivity. }
      destruct final as [href|].
      * destruct IH as (k & before & Hk & Hp' & Hs' & Hn' & ->).
        exists (S k), (events ++ EvSleep 1000 :: before).
        rewrite Hpolls, Hsleeps, Hnavs, Hp', Hs', Hn'.
        split; [lia|]. split; [reflexivity|]. split; [reflexivity|].
        split; [reflexivity|]. now rewrite <- app_assoc.
      * destruct IH as (Hp' & Hs' & Hn' & before & ->).
        rewrite Hpolls, Hsleeps, Hnavs, Hp', Hs', Hn'.
        split; [reflexivity|]. split; [reflexivity|]. split; [reflexivity|].
        exists (events ++ EvSleep 1000 :: before). now rewrite <- app_assoc.
Qed.

(** X19.  Whatever the exchange endpoint answers and whatever the redirect
    URI is, the page polls at most 120 times, pauses 1000 ms after every
    attempt that did not resolve the flow and so waits at most two minutes
    in all, and navigates at most once.  It ends in one of two ways only:
    resolved, by a navigation that is its last act, after fewer than 120
    pauses; or expired, after exactly 120 polls and 120 pauses, without any
    navigation, on the time-out message. *)
Theorem pollForTokens_is_bounded :
  let run := pollForTokens URL new_URL searchParams_set URL_toString exchange
                           sessionToken redirectUri state in
  (polls (snd run) <= 120)%nat
  /\ (navigations (snd run) <= 1)%nat
  /\ waited (snd run) <= 120000
  /\ (forall ms, In ms (sleeps (snd run)) -> ms = 1000)
  /\ match fst run with
     | Resolved href =>
       navigations (snd run) = 1%nat
       /\ (exists before, snd run = before ++ [EvNavigate href])
       /\ waited (snd run) < 120000
       /\ polls (snd run) = S (List.length (sleeps (snd run)))
     | Expired =>
       navigations (snd run) = 0%nat
       /\ polls (snd run) = 120%nat
       /\ waited (snd run) = 120000
       /\ exists before,
           snd run = before ++ [EvStatus timed_out_html (lit "status error")]
     end.
Proof.
  cbv zeta. unfold pollForTokens.
  pose proof (poll_loop_bounded 120 0) as H.
  destruct (fst (loop 120 0)) as [href|].
  - destruct H as (k & before & Hk & Hp & Hs & Hn & Hlast).
    pose proof (waited_sleeps _ _ Hs) as Hw.
    rewrite Hp, Hn, Hw, Hs, repeat_length.
    split; [lia|]. split; [lia|]. split; [lia|].
    split; [intros ms Hin; now apply repeat_spec in Hin|].
    split; [reflexivity|]. split; [now exists before|]. split; [lia | reflexivity].
  - destruct H as (Hp & Hs & Hn & before & Hlast).
    pose proof (waited_sleeps _ _ Hs) as Hw.
    rewrite Hp, Hn, Hw, Hs.
    split; [lia|]. split; [lia|]. split; [cbn; lia|].
    split; [intros ms Hin; now apply repeat_spec in Hin|].
    split; [reflexivity|]. split; [reflexivity|]. split; [reflexivity|].
    now exists before.
Qed.

(** A page whose redirect URI is not a URL never resolves. *)
Lemma poll_loop_without_url :
  new_URL redirectUri = None ->
  forall (n i : nat), fst (loop n i) = Expired.
Proof.
  intros Hurl. induction n as [|n IH]; intros i; [reflexivity|].
  cbn [poll_loop].
  assert (Hnone : fst (once i) = None).
  { unfold poll_once.
    destruct (exchange i) as [|[|] [data|]]; try reflexivity.
    destruct (js_or (data_access_token data) (data_accessToken data)) as [[|a a1]|];
      try reflexivity.
    destruct (js_or (data_refresh_token data) (data_refreshToken data)) as [[|r r1]|];
      try reflexivity.
    destruct (authorization_code (a :: a1) (r :: r1)); [|reflexivity].
    now rewrite Hurl. }
  destruct (once i) as [[href|] events]; [discriminate|].
  specialize (IH (S i)). destruct (loop n (S i)) as [final later].
  exact IH.
Qed.

End Bounds.

(** X20.  The authorization endpoint checks its query before it calls
    Matter: without a [redirect_uri], or with an empty one, it answers 400
    and makes no call; otherwise it calls the trigger endpoint exactly
    once.  Its errors are 400 or 500 only.  It serves the page only when
    the trigger endpoint answered 2xx with a non-empty session token and a
    non-empty QR code URL; the page carries that session token (the
    snake_case field when it is not empty), the redirect URI as it was
    given, and the state, empty when absent. *)
Theorem authorize_handler_outcomes
        (redirect_uri state : option jsstring) (trigger : TriggerReply) :
  let answer := fst (authorize_handler redirect_uri state trigger) in
  let calls := snd (authorize_handler redirect_uri state trigger) in
  (truthy redirect_uri = false ->
   answer = AuthorizeError 400 (lit "Missing redirect_uri") /\ calls = 0%nat)
  /\ (truthy redirect_uri = true -> calls = 1%nat)
  /\ (forall code e, answer = AuthorizeError code e -> code = 400 \/ code = 500)
  /\ (forall p, answer = AuthorizePage p ->
                redirect_uri = Some (page_redirectUri p)
                /\ page_redirectUri p <> []
                /\ page_sessionToken p <> []
                /\ page_qrCodeUrl p <> []
                /\ page_state p = match state with Some s => s | None => [] end
                /\ exists status text data,
                    trigger = TriggerResponds true status text (Some data)
                    /\ js_or (trigger_session_token data) (trigger_sessionToken data)
                       = Some (page_sessionToken p)
                    /\ (truthy (trigger_session_token data) = true ->
                        trigger_session_token data = Some (page_sessionToken p))).
Proof.
  cbv zeta. unfold authorize_handler.
  destruct redirect_uri as [[|u u1]|].
  1,3: (split; [intros _; split; reflexivity|]); (split; [discriminate|]);
    (split; [intros code e [= <- _]; left; reflexivity|]); discriminate.
  split; [discriminate|].
  destruct trigger as [|ok status text json].
  { split; [reflexivity|]. split; [intros code e [= <- _]; right; reflexivity|].
    discriminate. }
  destruct ok; cbn [negb].
  2:{ destruct text; (split; [reflexivity|]);
        (split; [intros code e [= <- _]; right; reflexivity|]); discriminate. }
  destruct json as [data|].
  2:{ split; [reflexivity|]. split; [intros code e [= <- _]; right; reflexivity|].
      discriminate. }
  destruct (js_or (trigger_session_token data) (trigger_sessionToken data))
    as [[|s s1]|] eqn:Hsession.
  1,3: (split; [reflexivity|]);
    (split; [intros code e [= <- _]; right; reflexivity|]); discriminate.
  destruct (js_or (js_or (js_or (trigger_qr_code_url data) (trigger_qrCodeUrl data))
                         (trigger_qr_url data)) (trigger_qrUrl data)) as [[|q q1]|].
  1,3: (split; [reflexivity|]);
    (split; [intros code e [= <- _]; right; reflexivity|]); discriminate.
  split; [reflexivity|]. split; [discriminate|].
  intros p [= <-]. cbn.
  split; [reflexivity|]. split; [discriminate|]. split; [discriminate|].
  split; [discriminate|]. split.
  - now destruct state as [[|c st]|].
  - exists status, text, data. split; [reflexivity|]. split; [exact Hsession|].
    intros Hsnake. unfold js_or in Hsession. now rewrite Hsnake in Hsession.
Qed.

(** X21.  The authorization endpoint does not check that the redirect URI
    is a URL.  It serves the page for any non-empty [redirect_uri]; when
    the page is intact (no [<] in the session token, the redirect URI and
    the state, no double quote in the QR code URL), so that its script runs
    as written, and the browser's [URL] refuses the redirect URI, the page
    can never resolve: whatever the exchange endpoint answers, a complete
    pair included, it polls 120 times, never navigates, and ends on the
    time-out message. *)
Theorem unchecked_redirect_never_resolves
        (URL : Type) (new_URL : jsstring -> option URL)
        (searchParams_set : URL -> jsstring -> jsstring -> URL)
        (URL_toString : URL -> jsstring)
        (redirectUri session qr : jsstring) (state : option jsstring)
        (status : N) (text : option jsstring) :
  redirectUri <> [] -> session <> [] -> qr <> [] ->
  script_safe redirectUri = true ->
  script_safe session = true ->
  script_safe (state_text state) = true ->
  attribute_safe qr = true ->
  new_URL redirectUri = None ->
  exists p,
    authorize_handler (Some redirectUri) state
                      (TriggerResponds true status text (Some (trigger_data session qr)))
    = (AuthorizePage p, 1%nat)
    /\ page_intact p = true
    /\ page_redirectUri p = redirectUri
    /\ page_sessionToken p = session
    /\ forall exchange,
        let run := pollForTokens URL new_URL searchParams_set URL_toString exchange
                                 (page_sessionToken p) (page_redirectUri p)
                                 (page_state p) in
        fst run = Expired
        /\ polls (snd run) = 120%nat
        /\ navigations (snd run) = 0%nat.
Proof.
  intros Hredirect Hsession Hqr Hsafe1 Hsafe2 Hsafe3 Hsafe4 Hurl.
  destruct redirectUri as [|u u1]; [congruence|].
  destruct session as [|s s1]; [congruence|].
  destruct qr as [|q q1]; [congruence|].
  assert (Hstate : match js_or state (Some []) with Some st => st | None => [] end
                   = state_text state)
    by (now destruct state as [[|c st]|]).
  eexists. split; [reflexivity|].
  unfold page_intact. cbn [page_redirectUri page_sessionToken page_state page_qrCodeUrl].
  rewrite Hstate, Hsafe1, Hsafe2, Hsafe3, Hsafe4.
  split; [reflexivity|]. split; [reflexivity|]. split; [reflexivity|].
  intros exchange. cbv zeta. unfold pollForTokens.
  pose proof (poll_loop_without_url URL new_URL searchParams_set URL_toString exchange
                (s :: s1) (u :: u1) (state_text state) Hurl 120 0) as Hexpired.
  pose proof (poll_loop_bounded URL new_URL searchParams_set URL_toString exchange
                (s :: s1) (u :: u1) (state_text state) 120 0) as Hbounds.
  rewrite Hexpired in Hbounds. destruct Hbounds as (Hp & _ & Hn & _).
  split; [exact Hexpired|]. split; [exact Hp | exact Hn].
Qed.

Lemma unchecked_redirect_never_resolves_witness :
  lit "claude.ai/callback" <> [] /\ lit "session-1" <> [] /\ lit "https://qr.example/1" <> []
  /\ script_safe (lit "claude.ai/callback") = true
  /\ script_safe (lit "session-1") = true
  /\ script_safe (state_text None) = true
  /\ attribute_safe (lit "https://qr.example/1") = true
  /\ text_URL (lit "claude.ai/callback") = None
  /\ exists p,
      authorize_handler (Some (lit "claude.ai/callback")) None
                        (TriggerResponds true 200 None
                           (Some (trigger_data (lit "session-1")
                                               (lit "https://qr.example/1"))))
      = (AuthorizePage p, 1%nat)
      /\ page_intact p = true
      /\ page_redirectUri p = lit "claude.ai/callback"
      /\ page_sessionToken p = lit "session-1"
      /\ forall exchange,
          let run := pollForTokens jsstring text_URL text_set (fun u => u) exchange
                                   (page_sessionToken p) (page_redirectUri p)
                                   (page_state p) in
          fst run = Expired
          /\ polls (snd run) = 120%nat
          /\ navigations (snd run) = 0%nat.
Proof.
  split; [discriminate|]. split; [discriminate|]. split; [discriminate|].
  split; [reflexivity|]. split; [reflexivity|]. split; [reflexivity|].
  split; [reflexivity|]. split; [reflexivity|].
  exact (unchecked_redirect_never_resolves
           jsstring text_URL text_set (fun u => u)
           (lit "claude.ai/callback") (lit "session-1") (lit "https://qr.example/1")
           None 200 None
           ltac:(discriminate) ltac:(discriminate) ltac:(discriminate)
           eq_refl eq_refl eq_refl eq_refl eq_refl).
Defined.

(** X22.  The exchange proxy calls Matter only for a [POST] that carries a
    non-empty session token, once, with that token; [OPTIONS], other
    methods and a missing token are answered 204, 405 and 400 without a
    call.  It forwards Matter's status and data as they are, statuses
    outside 2xx included, and answers 500 when the call fails or its body
    is not JSON. *)
Theorem exchange_proxy_forwards
        (method : jsstring) (session_token : option jsstring)
        (upstream : jsstring -> UpstreamReply) :
  let answer := fst (exchange_proxy method session_token upstream) in
  let sent := snd (exchange_proxy method session_token upstream) in
  (sent = []
   /\ (proxy_status answer = 204 \/ proxy_status answer = 405
       \/ proxy_status answer = 400)
   /\ (method <> lit "POST" \/ truthy session_token = false)
   \/ exists t, t <> [] /\ session_token = Some t /\ method = lit "POST"
                /\ sent = [t]
                /\ (forall status data,
                       upstream t = UpstreamResponds status (Some data) ->
                       answer = {| proxy_status := status;
                                   proxy_body := ProxyData data |})
                /\ (upstream t = UpstreamRejects
                    \/ (exists status, upstream t = UpstreamResponds status None) ->
                    answer = {| proxy_status := 500;
                                proxy_body := ProxyError (lit "Failed to exchange token") |})).
Proof.
  cbv zeta. unfold exchange_proxy.
  destruct (jseqb method (lit "OPTIONS")) eqn:Hoptions.
  { apply jseqb_eq in Hoptions. left. split; [reflexivity|]. split; [auto|].
    left. rewrite Hoptions. discriminate. }
  destruct (jseqb method (lit "POST")) eqn:Hpost; cbn [negb].
  2:{ apply jseqb_neq in Hpost. left. split; [reflexivity|]. split; auto. }
  apply jseqb_eq in Hpost.
  destruct session_token as [[|t t1]|].
  1,3: left; (split; [reflexivity|]); split; auto.
  right. exists (t :: t1). split; [discriminate|]. split; [reflexivity|].
  split; [exact Hpost|].
  destruct (upstream (t :: t1)) as [|status [data|]].
  - split; [reflexivity|]. split; [discriminate | reflexivity].
  - split; [reflexivity|]. split; [now intros s d [= <- <-]|].
    intros [H|(s & H)]; discriminate.
  - split; [reflexivity|]. split; [discriminate | reflexivity].
Qed.

Lemma through_proxy_grants (session : jsstring) (matter : nat -> UpstreamReply) (n : nat) :
  session <> [] ->
  complete_pair (through_proxy session matter n) = grants (matter n).
Proof.
  intros Hsession. destruct session as [|s s1]; [congruence|].
  unfold through_proxy, exchange_proxy, seen_by_page, grants.
  replace (jseqb (lit "POST") (lit "OPTIONS")) with false by reflexivity.
  replace (jseqb (lit "POST") (lit "POST")) with true by reflexivity.
  cbn [negb].
  destruct (matter n) as [|status [data|]]; reflexivity.
Qed.

(** X23.  The whole login, from the authorization endpoint to the redirect:
    when the redirect URI is a URL, the trigger endpoint hands out a
    session token, and the page served is intact (no [<] in the session
    token, the redirect URI and the state, no double quote in the QR code
    URL), the page polls Matter through the proxy with that session token;
    if Matter's first [K] < 120 answers grant nothing and the next one
    grants a pair that [btoa] can encode, the page resolves after [K + 1]
    polls by navigating once, to the redirect URI with the authorization
    code of that pair and the state.  Every poll reaches Matter: the proxy
    never refuses the page's token. *)
Theorem login_resolves_through_proxy
        (URL : Type) (new_URL : jsstring -> option URL)
        (searchParams_set : URL -> jsstring -> jsstring -> URL)
        (URL_toString : URL -> jsstring)
        (redirectUri session qr : jsstring) (state : option jsstring)
        (status : N) (text : option jsstring)
        (matter : nat -> UpstreamReply) (K : nat) (a r code : jsstring) (url : URL) :
  redirectUri <> [] -> session <> [] -> qr <> [] ->
  script_safe redirectUri = true ->
  script_safe session = true ->
  script_safe (state_text state) = true ->
  attribute_safe qr = true ->
  new_URL redirectUri = Some url ->
  (K < 120)%nat ->
  (forall j, (j < K)%nat -> grants (matter j) = None) ->
  grants (matter K) = Some (a, r) ->
  authorization_code a r = Some code ->
  exists p,
    authorize_handler (Some redirectUri) state
                      (TriggerResponds true status text (Some (trigger_data session qr)))
    = (AuthorizePage p, 1%nat)
    /\ page_intact p = true
    /\ let run := pollForTokens URL new_URL searchParams_set URL_toString
                                (through_proxy (page_sessionToken p) matter)
                                (page_sessionToken p) (page_redirectUri p)
                                (page_state p) in
       fst run = Resolved (destination URL searchParams_set URL_toString
                                       (page_state p) url code)
       /\ polls (snd run) = S K
       /\ navigations (snd run) = 1%nat
       /\ waited (snd run) = 1000 * N.of_nat K
       /\ forall j, snd (exchange_proxy (lit "POST") (Some (page_sessionToken p))
                                        (fun _ => matter j))
                    = [session].
Proof.
  intros Hredirect Hsession Hqr Hsafe1 Hsafe2 Hsafe3 Hsafe4 Hurl HK Hpending Hgrant Hcode.
  destruct redirectUri as [|u u1]; [congruence|].
  destruct session as [|s s1]; [congruence|].
  destruct qr as [|q q1]; [congruence|].
  assert (Hstate : match js_or state (Some []) with Some st => st | None => [] end
                   = state_text state)
    by (now destruct state as [[|c0 st]|]).
  eexists. split; [reflexivity|].
  unfold page_intact. cbn [page_redirectUri page_sessionToken page_state page_qrCodeUrl].
  rewrite Hstate, Hsafe1, Hsafe2, Hsafe3, Hsafe4.
  split; [reflexivity|].
  destruct (OAuthProofs.poll_loop_resolves
              URL new_URL searchParams_set URL_toString
              (through_proxy (s :: s1) matter) (s :: s1) (u :: u1) (state_text state)
              a r code url Hcode Hurl K 120 0 HK)
    as (before & Hrun & Hp & Hs & Hn).
  { intros j Hj. rewrite through_proxy_grants by discriminate. apply Hpending. lia. }
  { rewrite through_proxy_grants by discriminate. exact Hgrant. }
  cbv zeta. unfold pollForTokens. rewrite Hrun. cbn [fst snd].
  split; [reflexivity|].
  rewrite OAuthProofs.polls_app, OAuthProofs.navigations_app, waited_app, Hp, Hn.
  rewrite (waited_sleeps before K Hs).
  split; [cbn; lia|]. split; [reflexivity|]. split; [cbn; lia|].
  intros j. unfold exchange_proxy.
  replace (jseqb (lit "POST") (lit "OPTIONS")) with false by reflexivity.
  replace (jseqb (lit "POST") (lit "POST")) with true by reflexivity.
  cbn [negb]. destruct (matter j) as [|status' [data|]]; reflexivity.
Qed.

Lemma login_resolves_through_proxy_witness :
  let matter := granting_after 2 (lit "access") (lit "refresh") in
  lit "https://claude.ai/callback" <> []
  /\ lit "session-1" <> [] /\ lit "https://qr.example/1" <> []
  /\ script_safe (lit "https://claude.ai/callback") = true
  /\ script_safe (lit "session-1") = true
  /\ script_safe (state_text (Some (lit "xyz"))) = true
  /\ attribute_safe (lit "https://qr.example/1") = true
  /\ text_URL (lit "https://claude.ai/callback") = Some (lit "https://claude.ai/callback")
  /\ (2 < 120)%nat
  /\ (forall j, (j < 2)%nat -> grants (matter j) = None)
  /\ grants (matter 2%nat) = Some (lit "access", lit "refresh")
  /\ authorization_code (lit "access") (lit "refresh") = Some login_code
  /\ exists p,
      authorize_handler (Some (lit "https://claude.ai/callback")) (Some (lit "xyz"))
                        (TriggerResponds true 200 None
                           (Some (trigger_data (lit "session-1")
                                               (lit "https://qr.example/1"))))
      = (AuthorizePage p, 1%nat)
      /\ page_intact p = true
      /\ let run := pollForTokens jsstring text_URL text_set (fun u => u)
                                  (through_proxy (page_sessionToken p) matter)
                                  (page_sessionToken p) (page_redirectUri p)
                                  (page_state p) in
         fst run = Resolved (destination jsstring text_set (fun u => u)
                                         (page_state p)
                                         (lit "https://claude.ai/callback") login_code)
         /\ polls (snd run) = 3%nat
         /\ navigations (snd run) = 1%nat
         /\ waited (snd run) = 1000 * N.of_nat 2
         /\ forall j, snd (exchange_proxy (lit "POST") (Some (page_sessionToken p))
                                          (fun _ => matter j))
                      = [lit "session-1"].
Proof.
  cbv zeta.
  assert (Hpending : forall j, (j < 2)%nat ->
                               grants (granting_after 2 (lit "access") (lit "refresh") j)
                               = None).
  { intros j Hj. destruct j as [|[|j]]; [reflexivity | reflexivity | lia]. }
  split; [discriminate|]. split; [discriminate|]. split; [discriminate|].
  split; [reflexivity|]. split; [reflexivity|]. split; [reflexivity|].
  split; [reflexivity|].
  split; [reflexivity|]. split; [lia|]. split; [exact Hpending|].
  split; [reflexivity|]. split; [vm_compute; reflexivity|].
  exact (login_resolves_through_proxy
           jsstring text_URL text_set (fun u => u)
           (lit "https://claude.ai/callback") (lit "session-1")
           (lit "https://qr.example/1") (Some (lit "xyz")) 200 None
           (granting_after 2 (lit "access") (lit "refresh")) 2%nat
           (lit "access") (lit "refresh") login_code (lit "https://claude.ai/callback")
           ltac:(discriminate) ltac:(discriminate) ltac:(discriminate)
           eq_refl eq_refl eq_refl eq_refl
           eq_refl ltac:(lia) Hpending eq_refl ltac:(vm_compute; reflexivity)).
Defined.

End OAuthFlow.
